(** * Verification of the agent pipeline of [agents/openai_agents.py]

    A shallow embedding of the deterministic parts of the
    [AzureOpenAIAgents] class: the schema-split fallback, the data-type
    fallback, dimension normalisation, the transform data-flow script
    generator, the static pre-checks of the validator and the bounded
    regeneration loop; then the context keyword, the fallback decision
    for a single table, the retry loop of the training-based generation
    and the two functions that read the names back from the script.

    Python strings are modelled as [string] (sequences of [ascii]); the
    character classes ([str.lower], [str.title], [\s], [\w]) are the
    ASCII ones, every code unit above 127 being neither cased, nor a
    space, nor a word character.  Python dictionaries, whose iteration
    order is the insertion order, are association lists updated in
    place. *)

From Stdlib Require Import Bool Arith List Ascii String ZArith Lia DecimalString.
Import ListNotations.
Open Scope list_scope.
Open Scope string_scope.
Open Scope nat_scope.

(* ================================================================== *)
(** ** Python string operations *)
(* ================================================================== *)

Module PyStr.

Definition code (c : ascii) : nat := nat_of_ascii c.

Definition is_upper (c : ascii) : bool := (65 <=? code c) && (code c <=? 90).
Definition is_lower (c : ascii) : bool := (97 <=? code c) && (code c <=? 122).
Definition is_digit (c : ascii) : bool := (48 <=? code c) && (code c <=? 57).
Definition is_cased (c : ascii) : bool := is_upper c || is_lower c.

(** [\w] of the [re] module, restricted to ASCII. *)
Definition is_word (c : ascii) : bool :=
  is_cased c || is_digit c || (code c =? 95).

(** [str.isspace] and [\s]: TAB, LF, VT, FF, CR, FS, GS, RS, US, SPACE. *)
Definition is_space (c : ascii) : bool :=
  ((9 <=? code c) && (code c <=? 13))
  || ((28 <=? code c) && (code c <=? 31))
  || (code c =? 32).

Definition lower_char (c : ascii) : ascii :=
  if is_upper c then ascii_of_nat (code c + 32) else c.
Definition upper_char (c : ascii) : ascii :=
  if is_lower c then ascii_of_nat (code c - 32) else c.

Fixpoint map_chars (f : ascii -> ascii) (s : string) : string :=
  match s with
  | EmptyString => EmptyString
  | String c s' => String (f c) (map_chars f s')
  end.

(** [s.lower()], [s.upper()] *)
Definition lower (s : string) : string := map_chars lower_char s.
Definition upper (s : string) : string := map_chars upper_char s.

(** [p] is a prefix of [s] *)
Fixpoint prefixb (p s : string) : bool :=
  match p with
  | EmptyString => true
  | String a p' =>
      match s with
      | EmptyString => false
      | String b s' => Ascii.eqb a b && prefixb p' s'
      end
  end.

(** [s.startswith(p)] *)
Definition startswith (s p : string) : bool := prefixb p s.

(** [needle in hay] *)
Fixpoint str_in (needle hay : string) : bool :=
  prefixb needle hay
  || match hay with
     | EmptyString => false
     | String _ hay' => str_in needle hay'
     end.

Fixpoint drop (n : nat) (s : string) : string :=
  match n, s with
  | O, _ => s
  | S _, EmptyString => EmptyString
  | S k, String _ s' => drop k s'
  end.

(** [s.endswith(suf)] *)
Definition endswith (s suf : string) : bool :=
  (String.length suf <=? String.length s)
  && String.eqb (drop (String.length s - String.length suf) s) suf.

(** [s.replace(old, new)] for a non-empty [old] (every call site of the
    source passes a non-empty literal): occurrences are replaced from the
    left and do not overlap; [skip] counts the characters of the
    occurrence under replacement that are still to be consumed. *)
Fixpoint replace_go (old new : string) (skip : nat) (s : string) : string :=
  match s with
  | EmptyString => EmptyString
  | String c s' =>
      match skip with
      | S k => replace_go old new k s'
      | O =>
          if prefixb old s
          then new ++ replace_go old new (String.length old - 1) s'
          else String c (replace_go old new 0 s')
      end
  end.

Definition replace (old new s : string) : string := replace_go old new 0 s.

(** [s.title()]: a cased character is upper-cased when the previous
    character is not cased and lower-cased otherwise. *)
Fixpoint title_go (prev_cased : bool) (s : string) : string :=
  match s with
  | EmptyString => EmptyString
  | String c s' =>
      String (if prev_cased then lower_char c else upper_char c)
             (title_go (is_cased c) s')
  end.

Definition title (s : string) : string := title_go false s.

(** [sep.join(parts)] *)
Definition join (sep : string) (parts : list string) : string :=
  String.concat sep parts.

Fixpoint all_chars (p : ascii -> bool) (s : string) : bool :=
  match s with
  | EmptyString => true
  | String c s' => p c && all_chars p s'
  end.

(** [len(s.strip()) == 0] *)
Definition strip_is_empty (s : string) : bool := all_chars is_space s.

(** [x in l] for a list of strings *)
Definition mem (x : string) (l : list string) : bool :=
  existsb (String.eqb x) l.

Lemma mem_In (x : string) (l : list string) : mem x l = true <-> In x l.
Proof.
  unfold mem. rewrite existsb_exists. split.
  - intros [y [Hy Heq]]. apply String.eqb_eq in Heq. now subst.
  - intros H. exists x. split; [assumption | apply String.eqb_refl].
Qed.

Lemma mem_false_In (x : string) (l : list string) :
  mem x l = false <-> ~ In x l.
Proof.
  rewrite <- mem_In. destruct (mem x l); split; intros; congruence.
Qed.


(** Replacing one character by another acts on each character. *)
Definition swap_char (a b c : ascii) : ascii := if Ascii.eqb a c then b else c.

Lemma replace_char (a b : ascii) (s : string) :
  replace (String a EmptyString) (String b EmptyString) s
  = map_chars (swap_char a b) s.
Proof.
  unfold replace. induction s as [|c s IH]; [reflexivity|].
  cbn [replace_go prefixb String.length Nat.sub map_chars].
  unfold swap_char at 1. destruct (Ascii.eqb a c); cbn [andb].
  - destruct s; cbn [String.append]; now rewrite IH.
  - now rewrite IH.
Qed.

Lemma map_chars_map_chars (f g : ascii -> ascii) (s : string) :
  map_chars f (map_chars g s) = map_chars (fun c => f (g c)) s.
Proof. induction s as [|c s IH]; simpl; [reflexivity | now rewrite IH]. Qed.

Lemma map_chars_ext (f g : ascii -> ascii) (s : string) :
  (forall c, f c = g c) -> map_chars f s = map_chars g s.
Proof.
  intros H. induction s as [|c s IH]; simpl; [reflexivity|].
  now rewrite H, IH.
Qed.

Lemma map_chars_length (f : ascii -> ascii) (s : string) :
  String.length (map_chars f s) = String.length s.
Proof. induction s as [|c s IH]; simpl; [reflexivity | now rewrite IH]. Qed.

Lemma all_chars_map_chars (p : ascii -> bool) (f : ascii -> ascii) (s : string) :
  (forall c, p (f c) = true) -> all_chars p (map_chars f s) = true.
Proof.
  intros H. induction s as [|c s IH]; simpl; [reflexivity|].
  now rewrite H, IH.
Qed.

Lemma map_chars_fixed (p : ascii -> bool) (f : ascii -> ascii) (s : string) :
  (forall c, p c = true -> f c = c) ->
  all_chars p s = true -> map_chars f s = s.
Proof.
  intros H. induction s as [|c s IH]; simpl; [reflexivity|].
  intros Hs. apply andb_prop in Hs. destruct Hs as [Hc Hs].
  now rewrite (H c Hc), IH.
Qed.





(** [s.strip()] *)
Fixpoint lstrip (s : string) : string :=
  match s with
  | EmptyString => EmptyString
  | String c s' => if is_space c then lstrip s' else s
  end.

Fixpoint rstrip (s : string) : string :=
  match s with
  | EmptyString => EmptyString
  | String c s' =>
      match rstrip s' with
      | EmptyString => if is_space c then EmptyString else String c EmptyString
      | r => String c r
      end
  end.

Definition strip (s : string) : string := rstrip (lstrip s).

End PyStr.

(* ================================================================== *)
(** ** Python dictionaries with string keys *)
(* ================================================================== *)

Module Dict.

Section WithValue.
Context {V : Type}.

Definition t := list (string * V).

Fixpoint get (d : t) (k : string) : option V :=
  match d with
  | [] => None
  | (k', v) :: d' => if String.eqb k k' then Some v else get d' k
  end.

(** [d[k] = v]: an existing key keeps its position, a new key goes last. *)
Fixpoint set (d : t) (k : string) (v : V) : t :=
  match d with
  | [] => [(k, v)]
  | (k', v') :: d' =>
      if String.eqb k k' then (k', v) :: d' else (k', v') :: set d' k v
  end.

Definition keys (d : t) : list string := map fst d.
Definition values (d : t) : list V := map snd d.

Lemma keys_set (d : t) (k : string) (v : V) :
  keys (set d k v) = if PyStr.mem k (keys d) then keys d else (keys d ++ [k])%list.
Proof.
  unfold keys. induction d as [|[k' v'] d IH]; simpl; [reflexivity|].
  destruct (String.eqb k k') eqn:E; simpl; [reflexivity|].
  rewrite IH. destruct (PyStr.mem k (map fst d)); reflexivity.
Qed.

Lemma In_keys_set (d : t) (k : string) (v : V) (x : string) :
  In x (keys (set d k v)) <-> x = k \/ In x (keys d).
Proof.
  rewrite keys_set. destruct (PyStr.mem k (keys d)) eqn:E.
  - apply PyStr.mem_In in E. split; [tauto|]. intros [->|H]; assumption.
  - rewrite in_app_iff. simpl. split; intros H; intuition auto.
Qed.

Lemma NoDup_keys_set (d : t) (k : string) (v : V) :
  NoDup (keys d) -> NoDup (keys (set d k v)).
Proof.
  intros H. rewrite keys_set. destruct (PyStr.mem k (keys d)) eqn:E.
  - assumption.
  - apply PyStr.mem_false_In in E.
    apply NoDup_app; [assumption | constructor; [intros []|constructor] |].
    intros x Hx [<-|[]]. contradiction.
Qed.

Lemma get_set_same (d : t) (k : string) (v : V) : get (set d k v) k = Some v.
Proof.
  induction d as [|[k' v'] d IH]; simpl.
  - now rewrite String.eqb_refl.
  - destruct (String.eqb k k') eqn:E; simpl; rewrite E; auto.
Qed.

Lemma get_set_other (d : t) (k k0 : string) (v : V) :
  k0 <> k -> get (set d k v) k0 = get d k0.
Proof.
  intros Hne. induction d as [|[k' v'] d IH]; simpl.
  - apply String.eqb_neq in Hne. now rewrite Hne.
  - destruct (String.eqb k k') eqn:E; simpl.
    + apply String.eqb_eq in E. subst k'.
      apply String.eqb_neq in Hne. now rewrite Hne.
    + now rewrite IH.
Qed.

Lemma get_In (d : t) (k : string) (v : V) : get d k = Some v -> In (k, v) d.
Proof.
  induction d as [|[k' v'] d IH]; simpl; [discriminate|].
  destruct (String.eqb k k') eqn:E.
  - apply String.eqb_eq in E. intros [= ->]. subst. now left.
  - intros H. right. auto.
Qed.

Lemma In_get (d : t) (k : string) (v : V) :
  NoDup (keys d) -> In (k, v) d -> get d k = Some v.
Proof.
  induction d as [|[k' v'] d IH]; simpl; [intros _ []|].
  intros Hnd [Heq|Hin].
  - injection Heq as -> ->. now rewrite String.eqb_refl.
  - inversion Hnd as [|? ? Hnotin Hnd']; subst.
    destruct (String.eqb k k') eqn:E.
    + apply String.eqb_eq in E. subst k'.
      exfalso. apply Hnotin. apply (in_map fst) in Hin. exact Hin.
    + auto.
Qed.

Lemma Forall_set (P : string * V -> Prop) (d : t) (k : string) (v : V) :
  Forall P d -> P (k, v) -> Forall P (set d k v).
Proof.
  intros Hd Hkv. induction d as [|[k' v'] d IH]; simpl.
  - constructor; [assumption|constructor].
  - inversion Hd; subst. destruct (String.eqb k k') eqn:E.
    + apply String.eqb_eq in E. subst k'. constructor; assumption.
    + constructor; auto.
Qed.

Lemma In_set_inv (d : t) (k : string) (v : V) (x : string * V) :
  In x (set d k v) -> x = (k, v) \/ In x d.
Proof.
  induction d as [|[k' v'] d IH]; simpl.
  - intros [<-|[]]. now left.
  - destruct (String.eqb k k') eqn:E; simpl.
    + apply String.eqb_eq in E. subst k'. intros [<-|H]; auto.
    + intros [<-|H]; auto. destruct (IH H); auto.
Qed.

Lemma get_Some_keys (d : t) (k : string) (v : V) :
  get d k = Some v -> In k (keys d).
Proof. intros H. apply get_In in H. apply (in_map fst) in H. exact H. Qed.

Lemma keys_get (d : t) (k : string) : In k (keys d) -> exists v, get d k = Some v.
Proof.
  induction d as [|[k' v'] d IH]; simpl; [intros []|].
  intros [<-|H].
  - rewrite String.eqb_refl. eauto.
  - destruct (String.eqb k k'); eauto.
Qed.

End WithValue.

Arguments t : clear implicits.

(** A loop [for x in l: d[key(x)] = value(x)]. *)
Section FoldSet.
Context {A V : Type}.
Variable key : A -> string.
Variable value : A -> V.





End FoldSet.




End Dict.

(* ================================================================== *)
(** ** List facts shared by the loops *)
(* ================================================================== *)

Lemma fold_left_invariant {A B : Type} (f : A -> B -> A) (P : A -> Prop)
    (l : list B) (a : A) :
  P a -> (forall a' b, In b l -> P a' -> P (f a' b)) -> P (fold_left f l a).
Proof.
  revert a. induction l as [|b l IH]; simpl; intros a Ha Hstep.
  - exact Ha.
  - apply IH.
    + apply Hstep; [now left | exact Ha].
    + intros a' b' Hb'. apply Hstep. now right.
Qed.

Lemma In_firstn {A : Type} (n : nat) (l : list A) (x : A) :
  In x (firstn n l) -> In x l.
Proof.
  revert l. induction n as [|n IH]; intros [|y l]; simpl; try tauto.
  intros [H|H]; auto.
Qed.

(* ================================================================== *)
(** ** Agent 1 fallback: [_create_fallback_analysis] *)
(* ================================================================== *)

Module SchemaFallback.
Import PyStr.

(** What [df.select_dtypes] tells about a column: selected by
    [include=['number']], by [include=['object']], or by neither. *)
Inductive DKind := KNumber | KObject | KOther.

Record Column := { col_name : string; col_kind : DKind }.

(** The frame as the fallback observes it: its columns, in order. *)
Definition DataFrame := list Column.

Record DimInfo := { columns : list string; primary_key : string }.

(** The returned dictionary; its entry ['reasoning'], a sentence for the
    reader, is left out, and with it the argument [csv_filename]. *)
Record Analysis := {
  fact_columns : list string;
  dimensions : Dict.t DimInfo;
  foreign_keys : Dict.t string
}.

Definition is_number (c : Column) : bool :=
  match col_kind c with KNumber => true | _ => false end.
Definition is_object (c : Column) : bool :=
  match col_kind c with KObject => true | _ => false end.

Definition dimension_keywords : list (string * list string) :=
  [ ("DimPatient", ["patient"]);
    ("DimDoctor", ["doctor"; "physician"]);
    ("DimHospital", ["hospital"; "clinic"; "facility"]);
    ("DimDate", ["date"; "time"]);
    ("DimMedication", ["medication"; "drug"; "medicine"]);
    ("DimLocation", ["location"; "address"; "city"; "state"; "zip"]);
    ("DimDepartment", ["department"; "division"]) ].

(** ['id' in col.lower() and col.lower().endswith('_id')] *)
Definition is_id_column (col : string) : bool :=
  str_in "id" (lower col) && endswith (lower col) "_id".

(** [any(k in col.lower() for k in keywords)] *)
Definition matches_any (keywords : list string) (col : string) : bool :=
  existsb (fun k => str_in k (lower col)) keywords.

(** One iteration of the loop over [dimension_keywords.items()]. *)
Definition keyword_step (id_columns text_columns : list string)
    (dims : Dict.t DimInfo) (entry : string * list string) : Dict.t DimInfo :=
  let (dim_name, keywords) := entry in
  let matching_cols := filter (matches_any keywords) text_columns in
  match matching_cols with
  | [] => dims
  | first_match :: _ =>
      let pk_candidates := filter (matches_any keywords) id_columns in
      let pk := match pk_candidates with
                | cand :: _ => cand
                | [] => first_match
                end in
      Dict.set dims dim_name {| columns := matching_cols; primary_key := pk |}
  end.

(** [f"Dim{id_col.replace('_ID', '').replace('_', '').title()}"] *)
Definition id_dim_name (id_col : string) : string :=
  "Dim" ++ title (replace "_" "" (replace "_ID" "" id_col)).

(** One iteration of the loop over [id_columns[:5]]. *)
Definition id_step (text_columns : list string)
    (dims : Dict.t DimInfo) (id_col : string) : Dict.t DimInfo :=
  let related_cols :=
    filter (fun col => str_in (lower (replace "_ID" "" id_col)) (lower col))
           text_columns in
  match related_cols with
  | [] => dims
  | _ :: _ =>
      Dict.set dims (id_dim_name id_col)
        {| columns := id_col :: firstn 10 related_cols; primary_key := id_col |}
  end.

(** The loop that fills [foreign_keys] from [dimensions.items()]. *)
Definition fk_step (all_columns : list string)
    (fks : Dict.t string) (entry : string * DimInfo) : Dict.t string :=
  let (dim_name, dim_info) := entry in
  if mem (primary_key dim_info) all_columns
  then Dict.set fks (primary_key dim_info) dim_name
  else fks.

Definition is_empty {A : Type} (l : list A) : bool :=
  match l with [] => true | _ => false end.

Definition _create_fallback_analysis (df : DataFrame) : Analysis :=
  let all_columns := map col_name df in
  let id_columns := filter is_id_column all_columns in
  let numeric_columns :=
    filter (fun col => negb (mem col id_columns))
           (map col_name (filter is_number df)) in
  let text_columns := map col_name (filter is_object df) in
  let fact0 := numeric_columns in
  let dims1 :=
    fold_left (keyword_step id_columns text_columns) dimension_keywords [] in
  let dims2 :=
    if is_empty dims1 && negb (is_empty id_columns)
    then fold_left (id_step text_columns) (firstn 5 id_columns) dims1
    else dims1 in
  let fks1 := fold_left (fk_step all_columns) dims2 [] in
  let remaining_cols :=
    filter (fun col =>
              negb (mem col fact0)
              && negb (existsb (fun d => mem col (columns d)) (Dict.values dims2)))
           all_columns in
  let fact1 := (fact0 ++ remaining_cols)%list in
  let fact2 := if is_empty fact1 then firstn 20 numeric_columns else fact1 in
  let '(dims3, fks2) :=
    match is_empty dims2, id_columns with
    | true, first_id :: _ =>
        let dim_name := id_dim_name first_id in
        let related_cols := firstn 10 text_columns in
        (Dict.set dims2 dim_name
           {| columns := first_id :: related_cols; primary_key := first_id |},
         Dict.set fks1 first_id dim_name)
    | _, _ => (dims2, fks1)
    end in
  {| fact_columns := if is_empty fact2 then firstn 10 all_columns
                     else firstn 50 fact2;
     dimensions := dims3;
     foreign_keys := fks2 |}.

(** The sentinel test that the script generator applies to a name:
    ['unknown' in dim_name.lower()]. *)
Definition contains_unknown (name : string) : bool :=
  str_in "unknown" (lower name).

Definition col (name : string) (k : DKind) : Column :=
  {| col_name := name; col_kind := k |}.

Definition df_visits : DataFrame :=
  [ col "Patient_ID" KNumber; col "Patient_Name" KObject;
    col "Doctor_ID" KNumber; col "Doctor_Name" KObject;
    col "Visit_Date" KObject; col "Amount" KNumber ].



(** *** Invariants of the loops *)

(** A dimension of the fallback either carries one of the seven fixed
    names, or was synthesised from an identifier column, which is then
    its primary key and one of its columns. *)
Definition dim_origin (id_columns : list string)
    (entry : string * DimInfo) : Prop :=
  (In (fst entry) (map fst dimension_keywords)
   /\ contains_unknown (fst entry) = false)
  \/ (exists id_col,
        In id_col id_columns
        /\ fst entry = id_dim_name id_col
        /\ primary_key (snd entry) = id_col
        /\ In (primary_key (snd entry)) (columns (snd entry))).

Definition dims_ok (id_columns : list string) (dims : Dict.t DimInfo) : Prop :=
  NoDup (Dict.keys dims) /\ Forall (dim_origin id_columns) dims.

Lemma keyword_names_not_unknown :
  Forall (fun e => contains_unknown (fst e) = false) dimension_keywords.
Proof. repeat constructor. Qed.

Lemma keyword_step_ok (ids texts : list string) (dims : Dict.t DimInfo)
    (entry : string * list string) :
  In entry dimension_keywords ->
  dims_ok ids dims -> dims_ok ids (keyword_step ids texts dims entry).
Proof.
  intros Hin [Hnd Hall]. destruct entry as [dim_name keywords].
  unfold keyword_step. destruct (filter (matches_any keywords) texts) as [|m ms].
  - split; assumption.
  - split.
    + now apply Dict.NoDup_keys_set.
    + apply Dict.Forall_set; [assumption|]. left. simpl. split.
      * apply (in_map fst) in Hin. exact Hin.
      * pose proof keyword_names_not_unknown as H.
        rewrite Forall_forall in H. exact (H _ Hin).
Qed.

Lemma id_step_ok (ids texts : list string) (dims : Dict.t DimInfo)
    (id_col : string) :
  In id_col ids -> dims_ok ids dims -> dims_ok ids (id_step texts dims id_col).
Proof.
  intros Hin [Hnd Hall]. unfold id_step.
  match goal with |- context [match ?l with [] => _ | _ :: _ => _ end] =>
    destruct l as [|r rs] end.
  - split; assumption.
  - split.
    + now apply Dict.NoDup_keys_set.
    + apply Dict.Forall_set; [assumption|]. right. exists id_col. simpl.
      repeat split; auto.
Qed.

(** What the foreign-key loop maintains: a key is a column of the frame
    and is the primary key of the dimension it is mapped to. *)
Definition fk_entry_ok (all_columns : list string) (dims : Dict.t DimInfo)
    (entry : string * string) : Prop :=
  In (fst entry) all_columns
  /\ exists info, In (snd entry, info) dims /\ primary_key info = fst entry.

Lemma fk_step_ok (all_columns : list string) (dims : Dict.t DimInfo)
    (fks : Dict.t string) (entry : string * DimInfo) :
  In entry dims ->
  Forall (fk_entry_ok all_columns dims) fks ->
  Forall (fk_entry_ok all_columns dims) (fk_step all_columns fks entry).
Proof.
  intros Hin Hall. destruct entry as [dim_name info]. unfold fk_step.
  destruct (mem (primary_key info) all_columns) eqn:E; [|assumption].
  apply Dict.Forall_set; [assumption|]. split; simpl.
  - now apply mem_In.
  - exists info. split; [assumption | reflexivity].
Qed.

(** Every dimension whose key is a column of the frame gets an entry. *)
Lemma fk_fold_covers (all_columns : list string) (l : list (string * DimInfo))
    (fks : Dict.t string) (k : string) :
  (In k (Dict.keys fks)
   \/ exists n info, In (n, info) l /\ primary_key info = k /\ In k all_columns) ->
  In k (Dict.keys (fold_left (fk_step all_columns) l fks)).
Proof.
  revert fks. induction l as [|[n info] l IH]; simpl; intros fks H.
  - destruct H as [H|(n & info & [] & _)]. exact H.
  - apply IH. destruct H as [H|(n' & info' & [Heq|Hin] & Hpk & Hcol)].
    + left. unfold fk_step. destruct (mem (primary_key info) all_columns).
      * apply Dict.In_keys_set. now right.
      * exact H.
    + injection Heq as -> ->. left. unfold fk_step.
      apply mem_In in Hcol. rewrite Hpk, Hcol.
      apply Dict.In_keys_set. now left.
    + right. exists n', info'. auto.
Qed.


Lemma fallback_dims_ok (df : DataFrame) :
  dims_ok (filter is_id_column (map col_name df))
          (dimensions (_create_fallback_analysis df)).
Proof.
  unfold _create_fallback_analysis.
  set (all_columns := map col_name df).
  set (ids := filter is_id_column all_columns).
  set (texts := map col_name (filter is_object df)).
  set (dims1 := fold_left (keyword_step ids texts) dimension_keywords []).
  assert (H1 : dims_ok ids dims1).
  { apply fold_left_invariant.
    - split; constructor.
    - intros a b Hb Ha. now apply keyword_step_ok. }
  set (dims2 := if is_empty dims1 && negb (is_empty ids)
                then fold_left (id_step texts) (firstn 5 ids) dims1
                else dims1).
  assert (H2 : dims_ok ids dims2).
  { unfold dims2. destruct (is_empty dims1 && negb (is_empty ids)); [|exact H1].
    apply fold_left_invariant; [exact H1|].
    intros a b Hb Ha. apply id_step_ok; [|exact Ha].
    eapply In_firstn. exact Hb. }
  destruct (is_empty dims2) eqn:E2; [destruct ids as [|first_id ids'] eqn:Eids|];
    cbn [dimensions]; try exact H2.
  destruct H2 as [Hnd Hall]. split.
  - now apply Dict.NoDup_keys_set.
  - apply Dict.Forall_set; [assumption|]. right. exists first_id. simpl.
    repeat split; auto.
Qed.

Lemma fallback_fks_ok (df : DataFrame) :
  let a := _create_fallback_analysis df in
  Forall (fk_entry_ok (map col_name df) (dimensions a)) (foreign_keys a)
  /\ forall n info, In (n, info) (dimensions a) ->
       In (primary_key info) (map col_name df) ->
       In (primary_key info) (Dict.keys (foreign_keys a)).
Proof.
  unfold _create_fallback_analysis.
  set (all_columns := map col_name df).
  set (ids := filter is_id_column all_columns).
  set (texts := map col_name (filter is_object df)).
  set (dims1 := fold_left (keyword_step ids texts) dimension_keywords []).
  set (dims2 := if is_empty dims1 && negb (is_empty ids)
                then fold_left (id_step texts) (firstn 5 ids) dims1
                else dims1).
  set (fks1 := fold_left (fk_step all_columns) dims2 []).
  assert (H1 : Forall (fk_entry_ok all_columns dims2) fks1).
  { apply fold_left_invariant; [constructor|].
    intros a b Hb Ha. now apply fk_step_ok. }
  assert (H2 : forall n info, In (n, info) dims2 ->
             In (primary_key info) all_columns ->
             In (primary_key info) (Dict.keys fks1)).
  { intros n info Hin Hcol. apply fk_fold_covers. right. exists n, info. auto. }
  destruct (is_empty dims2) eqn:E2; [destruct ids as [|first_id ids'] eqn:Eids|];
    cbn [dimensions foreign_keys]; try (split; assumption).
  destruct dims2 as [|d ds]; [|discriminate].
  assert (Hcol : In first_id all_columns).
  { assert (Hin : In first_id ids) by (rewrite Eids; now left).
    unfold ids in Hin. apply filter_In in Hin. tauto. }
  split.
  - apply Dict.Forall_set.
    + eapply Forall_impl; [|exact H1]. intros [k v] [_ (info & [] & _)].
    + split; [exact Hcol|]. cbn [fst snd].
      eexists. split; [left; reflexivity | reflexivity].
  - intros n info Hin _. apply Dict.In_set_inv in Hin.
    destruct Hin as [Heq|[]]. injection Heq as -> ->. cbn [primary_key].
    apply Dict.In_keys_set. now left.
Qed.


(** The primary key chosen by either loop is a column of the frame, so
    the guard [if pk in columns] of the foreign-key loop always holds. *)
Section PrimaryKeyInFrame.
Variables all_columns ids texts : list string.
Hypothesis ids_incl : incl ids all_columns.
Hypothesis texts_incl : incl texts all_columns.

Definition pk_in_frame (entry : string * DimInfo) : Prop :=
  In (primary_key (snd entry)) all_columns.

Lemma keyword_step_pk (dims : Dict.t DimInfo) (entry : string * list string) :
  Forall pk_in_frame dims ->
  Forall pk_in_frame (keyword_step ids texts dims entry).
Proof.
  intros Hall. destruct entry as [dim_name keywords]. unfold keyword_step.
  destruct (filter (matches_any keywords) texts) as [|m ms] eqn:Em;
    [assumption|].
  apply Dict.Forall_set; [assumption|]. unfold pk_in_frame. cbn [snd primary_key].
  destruct (filter (matches_any keywords) ids) as [|c cs] eqn:Ec.
  - apply texts_incl. assert (H : In m (m :: ms)) by now left.
    rewrite <- Em in H. apply filter_In in H. tauto.
  - apply ids_incl. assert (H : In c (c :: cs)) by now left.
    rewrite <- Ec in H. apply filter_In in H. tauto.
Qed.

Lemma id_step_pk (dims : Dict.t DimInfo) (id_col : string) :
  In id_col ids ->
  Forall pk_in_frame dims -> Forall pk_in_frame (id_step texts dims id_col).
Proof.
  intros Hin Hall. unfold id_step.
  match goal with |- context [match ?l with [] => _ | _ :: _ => _ end] =>
    destruct l as [|r rs] end; [assumption|].
  apply Dict.Forall_set; [assumption|]. apply ids_incl. exact Hin.
Qed.

End PrimaryKeyInFrame.

Lemma fallback_pk_in_frame (df : DataFrame) :
  Forall (pk_in_frame (map col_name df))
         (dimensions (_create_fallback_analysis df)).
Proof.
  unfold _create_fallback_analysis.
  set (all_columns := map col_name df).
  set (ids := filter is_id_column all_columns).
  set (texts := map col_name (filter is_object df)).
  assert (Hids : incl ids all_columns).
  { intros x Hx. apply filter_In in Hx. tauto. }
  assert (Htexts : incl texts all_columns).
  { intros x Hx. unfold texts in Hx. apply in_map_iff in Hx.
    destruct Hx as (c & <- & Hc). apply filter_In in Hc.
    apply in_map. tauto. }
  set (dims1 := fold_left (keyword_step ids texts) dimension_keywords []).
  assert (H1 : Forall (pk_in_frame all_columns) dims1).
  { apply fold_left_invariant; [constructor|].
    intros a b _ Ha. now apply keyword_step_pk. }
  set (dims2 := if is_empty dims1 && negb (is_empty ids)
                then fold_left (id_step texts) (firstn 5 ids) dims1
                else dims1).
  assert (H2 : Forall (pk_in_frame all_columns) dims2).
  { unfold dims2. destruct (is_empty dims1 && negb (is_empty ids)); [|exact H1].
    apply fold_left_invariant; [exact H1|].
    intros a b Hb Ha. apply id_step_pk with (ids := ids); auto.
    eapply In_firstn. exact Hb. }
  destruct (is_empty dims2) eqn:E2; [destruct ids as [|first_id ids'] eqn:Eids|];
    cbn [dimensions]; try exact H2.
  apply Dict.Forall_set; [assumption|]. apply Hids. now left.
Qed.

(** A frame whose identifier column carries the sentinel in its name, and
    a frame whose identifiers are read as text. *)
Definition df_unknown : DataFrame :=
  [ col "Xunknown_ID" KNumber; col "Xunknown_Name" KObject ].

Definition df_text_ids : DataFrame :=
  [ col "Patient_ID" KObject; col "Patient_Name" KObject; col "Amount" KNumber ].

(** The invariant of a schema split as the specification words it. *)
Definition split_invariant (a : Analysis) : Prop :=
  (forall name info, In (name, info) (dimensions a) ->
     In (primary_key info) (columns info) /\ contains_unknown name = false)
  /\ NoDup (Dict.keys (dimensions a)).

(** Foreign keys as the specification words them: an entry for a
    dimension only if the fact table declares the key, and every value
    the name of a dimension. *)
Definition foreign_keys_follow_fact (a : Analysis) : Prop :=
  (forall name info, In (name, info) (dimensions a) ->
     Dict.get (foreign_keys a) (primary_key info) = Some name ->
     In (primary_key info) (fact_columns a))
  /\ (forall k v, Dict.get (foreign_keys a) k = Some v ->
        In v (Dict.keys (dimensions a))).


(** *** Further facts about the fallback split *)

Lemma incl_firstn {A : Type} (n : nat) (l : list A) : incl (firstn n l) l.
Proof. intros x. apply In_firstn. Qed.

Lemma is_empty_true {A : Type} (l : list A) : is_empty l = true <-> l = [].
Proof. destruct l; simpl; split; intros H; try reflexivity; discriminate H. Qed.

Lemma firstn_nonempty {A : Type} (n : nat) (l : list A) :
  l <> [] -> firstn (S n) l <> [].
Proof. destruct l; [contradiction | discriminate]. Qed.

Lemma set_nonempty {V : Type} (d : Dict.t V) (k : string) (v : V) :
  Dict.set d k v <> [].
Proof.
  destruct d as [|[k' v'] d]; simpl; [discriminate|].
  destruct (String.eqb k k'); discriminate.
Qed.

(** The three lists the fallback starts from. *)
Definition frame_columns (df : DataFrame) : list string := map col_name df.
Definition frame_ids (df : DataFrame) : list string :=
  filter is_id_column (frame_columns df).
Definition frame_texts (df : DataFrame) : list string :=
  map col_name (filter is_object df).
Definition frame_numeric (df : DataFrame) : list string :=
  filter (fun col => negb (mem col (frame_ids df)))
         (map col_name (filter is_number df)).

Lemma frame_ids_incl (df : DataFrame) : incl (frame_ids df) (frame_columns df).
Proof. intros x Hx. apply filter_In in Hx. tauto. Qed.

Lemma frame_texts_incl (df : DataFrame) :
  incl (frame_texts df) (frame_columns df).
Proof.
  intros x Hx. unfold frame_texts in Hx. apply in_map_iff in Hx.
  destruct Hx as (c & <- & Hc). apply filter_In in Hc. apply in_map. tauto.
Qed.

Lemma frame_numeric_incl (df : DataFrame) :
  incl (frame_numeric df) (frame_columns df).
Proof.
  intros x Hx. unfold frame_numeric in Hx. apply filter_In in Hx.
  destruct Hx as [Hx _]. apply in_map_iff in Hx.
  destruct Hx as (c & <- & Hc). apply filter_In in Hc. apply in_map. tauto.
Qed.

(** The dimensions after the two loops, before the last block. *)
Definition keyword_dims (df : DataFrame) : Dict.t DimInfo :=
  fold_left (keyword_step (frame_ids df) (frame_texts df)) dimension_keywords [].

Definition loop_dims (df : DataFrame) : Dict.t DimInfo :=
  if is_empty (keyword_dims df) && negb (is_empty (frame_ids df))
  then fold_left (id_step (frame_texts df)) (firstn 5 (frame_ids df))
                 (keyword_dims df)
  else keyword_dims df.

(** The fact columns before they are cut to fifty. *)
Definition loop_facts (df : DataFrame) : list string :=
  (frame_numeric df
   ++ filter (fun col =>
                negb (mem col (frame_numeric df))
                && negb (existsb (fun d => mem col (columns d))
                                 (Dict.values (loop_dims df))))
             (frame_columns df))%list.

Lemma fallback_dimensions_eq (df : DataFrame) :
  dimensions (_create_fallback_analysis df)
  = match is_empty (loop_dims df), frame_ids df with
    | true, first_id :: _ =>
        Dict.set (loop_dims df) (id_dim_name first_id)
          {| columns := first_id :: firstn 10 (frame_texts df);
             primary_key := first_id |}
    | _, _ => loop_dims df
    end.
Proof.
  unfold _create_fallback_analysis.
  fold (frame_columns df). fold (frame_ids df). fold (frame_texts df).
  fold (keyword_dims df). fold (loop_dims df).
  destruct (is_empty (loop_dims df)); [|reflexivity].
  destruct (frame_ids df); reflexivity.
Qed.

Lemma fallback_fact_columns_eq (df : DataFrame) :
  fact_columns (_create_fallback_analysis df)
  = let fact2 := if is_empty (loop_facts df)
                 then firstn 20 (frame_numeric df) else loop_facts df in
    if is_empty fact2 then firstn 10 (frame_columns df) else firstn 50 fact2.
Proof.
  unfold _create_fallback_analysis.
  fold (frame_columns df). fold (frame_ids df). fold (frame_texts df).
  fold (keyword_dims df). fold (loop_dims df).
  fold (frame_numeric df). fold (loop_facts df).
  destruct (is_empty (loop_dims df)); [|reflexivity].
  destruct (frame_ids df); reflexivity.
Qed.

Lemma loop_facts_incl (df : DataFrame) : incl (loop_facts df) (frame_columns df).
Proof.
  unfold loop_facts. apply incl_app; [apply frame_numeric_incl|].
  intros x Hx. apply filter_In in Hx. tauto.
Qed.


(** Every dimension has a column, and its columns are columns of the
    frame. *)
Definition columns_in_frame (all_columns : list string)
    (entry : string * DimInfo) : Prop :=
  columns (snd entry) <> [] /\ incl (columns (snd entry)) all_columns.

Lemma keyword_step_columns (all_columns ids texts : list string)
    (dims : Dict.t DimInfo) (entry : string * list string) :
  incl texts all_columns ->
  Forall (columns_in_frame all_columns) dims ->
  Forall (columns_in_frame all_columns) (keyword_step ids texts dims entry).
Proof.
  intros Htexts Hall. destruct entry as [dim_name keywords].
  unfold keyword_step.
  destruct (filter (matches_any keywords) texts) as [|m ms] eqn:Em;
    [assumption|].
  apply Dict.Forall_set; [assumption|]. split; cbn [snd columns].
  - discriminate.
  - intros x Hx. apply Htexts. rewrite <- Em in Hx.
    apply filter_In in Hx. tauto.
Qed.

Lemma id_step_columns (all_columns ids texts : list string)
    (dims : Dict.t DimInfo) (id_col : string) :
  incl ids all_columns -> incl texts all_columns -> In id_col ids ->
  Forall (columns_in_frame all_columns) dims ->
  Forall (columns_in_frame all_columns) (id_step texts dims id_col).
Proof.
  intros Hids Htexts Hin Hall. unfold id_step.
  match goal with |- context [match ?l with [] => _ | _ :: _ => _ end] =>
    destruct l as [|r rs] eqn:Er end; [assumption|].
  apply Dict.Forall_set; [assumption|]. split; cbn [snd columns].
  - discriminate.
  - intros x [<-|Hx]; [now apply Hids|].
    apply In_firstn in Hx. apply Htexts. rewrite <- Er in Hx.
    apply filter_In in Hx. tauto.
Qed.

Lemma loop_dims_columns (df : DataFrame) :
  Forall (columns_in_frame (frame_columns df)) (loop_dims df).
Proof.
  assert (H1 : Forall (columns_in_frame (frame_columns df)) (keyword_dims df)).
  { unfold keyword_dims. apply fold_left_invariant; [constructor|].
    intros a b _ Ha. apply keyword_step_columns; [apply frame_texts_incl|exact Ha]. }
  unfold loop_dims.
  destruct (is_empty (keyword_dims df) && negb (is_empty (frame_ids df)));
    [|exact H1].
  apply fold_left_invariant; [exact H1|].
  intros a b Hb Ha. apply id_step_columns with (ids := frame_ids df); auto.
  - apply frame_ids_incl.
  - apply frame_texts_incl.
  - eapply In_firstn. exact Hb.
Qed.

Lemma fallback_dims_columns (df : DataFrame) :
  Forall (columns_in_frame (frame_columns df))
         (dimensions (_create_fallback_analysis df)).
Proof.
  rewrite fallback_dimensions_eq. pose proof (loop_dims_columns df) as H.
  destruct (is_empty (loop_dims df)); [|exact H].
  destruct (frame_ids df) as [|first_id ids] eqn:E; [exact H|].
  apply Dict.Forall_set; [exact H|]. split; cbn [snd columns].
  - discriminate.
  - intros x [<-|Hx].
    + apply frame_ids_incl. rewrite E. now left.
    + apply In_firstn in Hx. now apply frame_texts_incl.
Qed.

(** The keyword loop leaves no dimension exactly when no text column
    holds a keyword. *)
Lemma keyword_fold_nonempty (ids texts : list string)
    (l : list (string * list string)) (dims : Dict.t DimInfo) :
  dims <> [] -> fold_left (keyword_step ids texts) l dims <> [].
Proof.
  revert dims. induction l as [|[n kws] l IH]; simpl; intros dims H; [exact H|].
  apply IH. destruct (filter (matches_any kws) texts); [exact H|].
  apply set_nonempty.
Qed.

Lemma keyword_fold_empty (ids texts : list string)
    (l : list (string * list string)) :
  fold_left (keyword_step ids texts) l [] = []
  <-> forall entry, In entry l -> filter (matches_any (snd entry)) texts = [].
Proof.
  induction l as [|[n kws] l IH]; simpl.
  - split; [intros _ ? [] | reflexivity].
  - destruct (filter (matches_any kws) texts) as [|m ms] eqn:E.
    + rewrite IH. split.
      * intros H entry [<-|Hin]; [exact E | auto].
      * intros H entry Hin. apply H. now right.
    + split.
      * intros H. exfalso. revert H. apply keyword_fold_nonempty.
        discriminate.
      * intros H. specialize (H (n, kws) (or_introl eq_refl)).
        simpl in H. rewrite E in H. discriminate H.
Qed.

Lemma id_fold_nonempty (texts l : list string) (dims : Dict.t DimInfo) :
  dims <> [] -> fold_left (id_step texts) l dims <> [].
Proof.
  revert dims. induction l as [|id_col l IH]; simpl; intros dims H; [exact H|].
  apply IH. unfold id_step.
  match goal with |- context [match ?l with [] => _ | _ :: _ => _ end] =>
    destruct l end; [exact H | apply set_nonempty].
Qed.

(** Positions taken by two filters that exclude each other. *)
Lemma disjoint_filters_length {A : Type} (p q : A -> bool) (l : list A) :
  (forall x, In x l -> p x = true -> q x = false) ->
  List.length (filter p l) + List.length (filter q l) <= List.length l.
Proof.
  induction l as [|x l IH]; simpl; intros H; [lia|].
  assert (IH' : List.length (filter p l) + List.length (filter q l)
                <= List.length l) by (apply IH; intros y Hy; apply H; now right).
  specialize (H x (or_introl eq_refl)).
  destruct (p x) eqn:Ep; [rewrite (H eq_refl)|destruct (q x)]; simpl; lia.
Qed.

Lemma filter_map_comm {A B : Type} (f : A -> B) (p : B -> bool) (l : list A) :
  filter p (map f l) = map f (filter (fun x => p (f x)) l).
Proof.
  induction l as [|x l IH]; simpl; [reflexivity|].
  destruct (p (f x)); simpl; now rewrite IH.
Qed.

Lemma filter_twice {A : Type} (p q : A -> bool) (l : list A) :
  filter p (filter q l) = filter (fun x => q x && p x) l.
Proof.
  induction l as [|x l IH]; simpl; [reflexivity|].
  destruct (q x); simpl; [destruct (p x)|]; now rewrite IH.
Qed.

Lemma loop_facts_length (df : DataFrame) :
  List.length (loop_facts df) <= List.length df.
Proof.
  unfold loop_facts. rewrite length_app.
  unfold frame_numeric at 1. unfold frame_columns.
  rewrite !filter_map_comm, !length_map, filter_twice.
  apply disjoint_filters_length.
  intros c Hc Hp. apply andb_prop in Hp. destruct Hp as [Hnum Hid].
  assert (Hin : mem (col_name c) (frame_numeric df) = true).
  { apply mem_In. unfold frame_numeric. apply filter_In. split; [|exact Hid].
    apply in_map. apply filter_In. auto. }
  rewrite Hin. reflexivity.
Qed.

Lemma loop_covers (df : DataFrame) (c : string) :
  In c (frame_columns df) ->
  In c (loop_facts df)
  \/ exists n d, In (n, d) (loop_dims df) /\ In c (columns d).
Proof.
  intros Hc. unfold loop_facts.
  destruct (mem c (frame_numeric df)) eqn:En.
  { left. apply in_or_app. left. now apply mem_In. }
  destruct (existsb (fun d => mem c (columns d)) (Dict.values (loop_dims df)))
    eqn:Ed.
  - right. apply existsb_exists in Ed. destruct Ed as (d & Hd & Hm).
    unfold Dict.values in Hd. apply in_map_iff in Hd.
    destruct Hd as ([n d'] & Heq & Hin). simpl in Heq. subst d'.
    exists n, d. split; [exact Hin | now apply mem_In].
  - left. apply in_or_app. right. apply filter_In. split; [exact Hc|].
    now rewrite En, Ed.
Qed.

End SchemaFallback.

(* ================================================================== *)
(** ** Agent 2 fallback: [_create_fallback_datatypes] *)
(* ================================================================== *)

Module TypeFallback.
Import PyStr.

(** What the fallback reads of one column.  [max_val] and [min_val] are
    the column's extrema when [float(df[col].max())] and
    [float(df[col].min())] return, [None] when they raise; the dtypes of
    the integer branch hold integers, and the conversion to a float is
    monotone and exact at 2147483647 and 2147483648, so the comparison
    with 2147483647 is the one on the integers.  [max_length] is
    [int(df[col].astype(str).str.len().max())], [None] when it raises. *)
Record Profile := {
  dtype : string;
  null_count : nat;
  notna_any : bool;
  max_val : option Z;
  min_val : option Z;
  max_length : option nat
}.




Definition show_nat (n : nat) : string :=
  NilEmpty.string_of_uint (Nat.to_uint n).

Definition int_branch (p : Profile) : string * string :=
  if notna_any p then
    match max_val p, min_val p with
    | Some mx, Some mn =>
        if ((Z.abs mx >? 2147483647) || (Z.abs mn >? 2147483647))%Z
        then ("BIGINT", "long")
        else ("INT", "integer")
    | _, _ => ("INT", "integer")
    end
  else ("INT", "integer").

Definition string_branch (p : Profile) : string * string :=
  if notna_any p then
    match max_length p with
    | Some n =>
        if 4000 <? n then ("NVARCHAR(MAX)", "string")
        else if 255 <? n
             then ("NVARCHAR(" ++ show_nat (Nat.min (n * 2) 4000) ++ ")", "string")
             else ("NVARCHAR(" ++ show_nat (Nat.max (n * 2) 50) ++ ")", "string")
    | None => ("NVARCHAR(255)", "string")
    end
  else ("NVARCHAR(255)", "string").

Definition column_types (p : Profile) : string * string :=
  if str_in "int" (dtype p) then int_branch p
  else if str_in "float" (dtype p) then ("DECIMAL(18,2)", "decimal(18,2)")
  else if str_in "datetime" (dtype p) || str_in "date" (dtype p)
       then ("DATETIME", "timestamp")
  else if str_in "bool" (dtype p) then ("BIT", "boolean")
  else string_branch p.



(** *** The vocabulary of the specification *)










End TypeFallback.

(* ================================================================== *)
(** ** Agent 3: [_normalize_dimensions] *)
(* ================================================================== *)

Module Normalize.
Import PyStr.
Import SchemaFallback.


















(** *** The normalised names carry the prefix *)






(** *** The normal form *)









End Normalize.

(* ================================================================== *)
(** ** Agent 4A: [_create_fallback_single_table_decision] *)
(* ================================================================== *)

Module SingleTable.
Import PyStr.
Import SchemaFallback.

(** The dictionary the function returns. *)
Record TableDecision := {
  table_name : string;
  activities : list string;
  cast_columns : Dict.t string;
  csv_columns_mapping : Dict.t string
}.

(** [datatype_analysis['columns']] with the ['sql_type'] of each entry,
    the empty string when the entry has none; [None] when
    [datatype_analysis] is empty or has no ['columns']. *)
Definition DatatypeColumns := option (Dict.t string).

(** The first loop over [csv_columns]: the names are equal in lower
    case. *)
Definition exact_match (csv_columns : list string) (table_col : string)
    : option string :=
  find (fun csv_col => String.eqb (lower csv_col) (lower table_col))
       csv_columns.

(** The second loop: equal in lower case without the underscores. *)
Definition fuzzy_eqb (csv_col table_col : string) : bool :=
  String.eqb (lower (replace "_" "" csv_col)) (lower (replace "_" "" table_col)).

Definition fuzzy_match (csv_columns : list string) (table_col : string)
    : option string :=
  find (fun csv_col => fuzzy_eqb csv_col table_col) csv_columns.

(** The truth value of [matching_csv_col]: [None] and the empty string
    are false. *)
Definition truthy (m : option string) : bool :=
  match m with
  | Some s => negb (String.eqb s "")
  | None => false
  end.

(** [matching_csv_col] after the two loops. *)
Definition matching_csv_col (csv_columns : list string) (table_col : string)
    : option string :=
  let m := exact_match csv_columns table_col in
  if truthy m then m
  else match fuzzy_match csv_columns table_col with
       | Some csv_col => Some csv_col
       | None => m
       end.

(** The chain of tests on [sql_type]; the last one reads
    [sql_type and 'TIME' in sql_type or 'DATETIME' in sql_type]. *)
Definition cast_type (sql_type : string) : option string :=
  let given := negb (String.eqb sql_type "") in
  if given && str_in "INT" sql_type then Some "integer"
  else if given && str_in "DECIMAL" sql_type then Some "decimal(18,2)"
  else if given && str_in "DATE" sql_type then Some "date"
  else if (given && str_in "TIME" sql_type) || str_in "DATETIME" sql_type
  then Some "timestamp"
  else None.

(** The cast recorded for a table column matched with [csv_col]. *)
Definition recommended_cast (datatype_columns : DatatypeColumns)
    (csv_col : string) : option string :=
  match datatype_columns with
  | Some cols =>
      match Dict.get cols csv_col with
      | Some raw => cast_type (upper raw)
      | None => None
      end
  | None => None
  end.

(** One iteration of the loop over [table_columns], on the pair
    [(cast_columns, csv_columns_mapping)]. *)
Definition table_step (csv_columns : list string)
    (datatype_columns : DatatypeColumns)
    (state : Dict.t string * Dict.t string) (table_col : string)
    : Dict.t string * Dict.t string :=
  let (casts, mapping) := state in
  let m := matching_csv_col csv_columns table_col in
  if truthy m then
    match m with
    | Some csv_col =>
        (match recommended_cast datatype_columns csv_col with
         | Some ty => Dict.set casts table_col ty
         | None => casts
         end,
         Dict.set mapping csv_col table_col)
    | None => state
    end
  else state.

Definition table_loop (csv_columns : list string)
    (datatype_columns : DatatypeColumns) (table_columns : list string)
    : Dict.t string * Dict.t string :=
  fold_left (table_step csv_columns datatype_columns) table_columns ([], []).

Definition _create_fallback_single_table_decision (name : string)
    (table_columns csv_columns : list string)
    (datatype_columns : DatatypeColumns) : TableDecision :=
  let (casts, mapping) :=
    table_loop csv_columns datatype_columns table_columns in
  {| table_name := name;
     activities := if is_empty casts then ["select"] else ["select"; "cast"];
     cast_columns := casts;
     csv_columns_mapping := mapping |}.

(** *** Names without their underscores *)

Fixpoint drop_underscores (s : string) : string :=
  match s with
  | EmptyString => EmptyString
  | String c s' =>
      if Ascii.eqb c "_" then drop_underscores s'
      else String c (drop_underscores s')
  end.

Lemma replace_underscore (s : string) : replace "_" "" s = drop_underscores s.
Proof.
  unfold replace. induction s as [|c s IH]; [reflexivity|].
  cbn [replace_go prefixb String.length Nat.sub drop_underscores].
  rewrite Ascii.eqb_sym.
  destruct (Ascii.eqb c "_"); cbn [andb].
  - destruct s; cbn [String.append]; exact IH.
  - now rewrite IH.
Qed.

Lemma lower_char_underscore (c : ascii) :
  Ascii.eqb (lower_char c) "_" = Ascii.eqb c "_".
Proof.
  destruct c as [[] [] [] [] [] [] [] []]; reflexivity.
Qed.

Lemma lower_drop_underscores (s : string) :
  lower (drop_underscores s) = drop_underscores (lower s).
Proof.
  unfold lower. induction s as [|c s IH]; [reflexivity|].
  cbn [drop_underscores map_chars]. rewrite lower_char_underscore.
  destruct (Ascii.eqb c "_"); [exact IH|].
  cbn [map_chars]. now rewrite IH.
Qed.

(** Names equal in lower case are equal in lower case without their
    underscores: what the first loop finds, the second would accept. *)
Lemma exact_is_fuzzy (csv_col table_col : string) :
  lower csv_col = lower table_col -> fuzzy_eqb csv_col table_col = true.
Proof.
  intros H. unfold fuzzy_eqb. rewrite !replace_underscore.
  rewrite !lower_drop_underscores, H. apply String.eqb_refl.
Qed.

Lemma truthy_Some (m : option string) :
  truthy m = true -> exists s, m = Some s /\ s <> "".
Proof.
  destruct m as [s|]; [|discriminate]. simpl. intros H.
  exists s. split; [reflexivity|].
  apply negb_true_iff in H. now apply String.eqb_neq.
Qed.

(** What is known of the column the two loops settle on. *)
Lemma matching_csv_col_sound (csv_columns : list string)
    (table_col csv_col : string) :
  matching_csv_col csv_columns table_col = Some csv_col ->
  In csv_col csv_columns /\ fuzzy_eqb csv_col table_col = true.
Proof.
  unfold matching_csv_col. cbv zeta.
  assert (Hex : forall c, exact_match csv_columns table_col = Some c ->
                  In c csv_columns /\ fuzzy_eqb c table_col = true).
  { intros c Hc. apply find_some in Hc. destruct Hc as [Hin Heq].
    split; [exact Hin|]. apply exact_is_fuzzy. now apply String.eqb_eq. }
  destruct (truthy (exact_match csv_columns table_col)); [apply Hex|].
  destruct (fuzzy_match csv_columns table_col) as [c|] eqn:E; [|apply Hex].
  intros [= <-]. apply find_some in E. exact E.
Qed.

(** Without an empty name among the CSV columns, a table column that
    some CSV column matches is given a column. *)
Lemma matching_csv_col_complete (csv_columns : list string)
    (table_col csv_col : string) :
  ~ In "" csv_columns ->
  In csv_col csv_columns -> fuzzy_eqb csv_col table_col = true ->
  truthy (matching_csv_col csv_columns table_col) = true.
Proof.
  intros Hne Hin Hm. unfold matching_csv_col. cbv zeta.
  destruct (truthy (exact_match csv_columns table_col)) eqn:E; [exact E|].
  destruct (fuzzy_match csv_columns table_col) as [c|] eqn:F.
  - apply find_some in F. destruct F as [Hc _]. simpl.
    apply negb_true_iff, String.eqb_neq. intros ->. contradiction.
  - unfold fuzzy_match in F.
    apply (find_none _ _ F) in Hin. cbv beta in Hin. congruence.
Qed.

(** *** The loop *)

Section Loop.
Variables (csv_columns : list string) (datatype_columns : DatatypeColumns).

Lemma table_step_mapping (state : Dict.t string * Dict.t string)
    (table_col : string) :
  snd (table_step csv_columns datatype_columns state table_col)
  = if truthy (matching_csv_col csv_columns table_col)
    then match matching_csv_col csv_columns table_col with
         | Some csv_col => Dict.set (snd state) csv_col table_col
         | None => snd state
         end
    else snd state.
Proof.
  destruct state as [casts mapping]. unfold table_step.
  destruct (truthy _); [|reflexivity].
  destruct (matching_csv_col csv_columns table_col); reflexivity.
Qed.

Lemma table_step_casts (state : Dict.t string * Dict.t string)
    (table_col : string) :
  fst (table_step csv_columns datatype_columns state table_col)
  = if truthy (matching_csv_col csv_columns table_col)
    then match matching_csv_col csv_columns table_col with
         | Some csv_col =>
             match recommended_cast datatype_columns csv_col with
             | Some ty => Dict.set (fst state) table_col ty
             | None => fst state
             end
         | None => fst state
         end
    else fst state.
Proof.
  destruct state as [casts mapping]. unfold table_step.
  destruct (truthy _); [|reflexivity].
  destruct (matching_csv_col csv_columns table_col); reflexivity.
Qed.

(** The cast a table column is given, if any. *)
Definition column_cast (table_col : string) : option string :=
  if truthy (matching_csv_col csv_columns table_col)
  then match matching_csv_col csv_columns table_col with
       | Some csv_col => recommended_cast datatype_columns csv_col
       | None => None
       end
  else None.

Lemma table_step_casts_get (state : Dict.t string * Dict.t string)
    (table_col t : string) :
  Dict.get (fst (table_step csv_columns datatype_columns state table_col)) t
  = if String.eqb t table_col
    then match column_cast table_col with
         | Some ty => Some ty
         | None => Dict.get (fst state) t
         end
    else Dict.get (fst state) t.
Proof.
  rewrite table_step_casts. unfold column_cast.
  destruct (String.eqb t table_col) eqn:E.
  - apply String.eqb_eq in E. subst t.
    destruct (truthy _); [|reflexivity].
    destruct (matching_csv_col csv_columns table_col) as [c|]; [|reflexivity].
    destruct (recommended_cast datatype_columns c); [|reflexivity].
    apply Dict.get_set_same.
  - apply String.eqb_neq in E.
    destruct (truthy _); [|reflexivity].
    destruct (matching_csv_col csv_columns table_col) as [c|]; [|reflexivity].
    destruct (recommended_cast datatype_columns c); [|reflexivity].
    now apply Dict.get_set_other.
Qed.

(** After the loop a table column has the cast of its own match, when it
    is one of the columns the loop has seen, and otherwise the one it
    had. *)
Lemma fold_casts_get (table_columns : list string)
    (state : Dict.t string * Dict.t string) (t : string) :
  Dict.get (fst (fold_left (table_step csv_columns datatype_columns)
                           table_columns state)) t
  = if mem t table_columns
    then match column_cast t with
         | Some ty => Some ty
         | None => Dict.get (fst state) t
         end
    else Dict.get (fst state) t.
Proof.
  revert state. induction table_columns as [|c cs IH]; intros state;
    [reflexivity|].
  cbn [fold_left]. rewrite IH, table_step_casts_get.
  unfold mem. cbn [existsb]. fold (mem t cs).
  destruct (String.eqb_spec t c) as [->|Hne].
  - cbn [orb]. destruct (mem c cs); destruct (column_cast c); reflexivity.
  - reflexivity.
Qed.

Lemma fold_mapping_sound (table_columns : list string)
    (state : Dict.t string * Dict.t string) (P : string * string -> Prop) :
  (forall c t, In t table_columns ->
     matching_csv_col csv_columns t = Some c -> c <> "" -> P (c, t)) ->
  Forall P (snd state) ->
  Forall P (snd (fold_left (table_step csv_columns datatype_columns)
                           table_columns state)).
Proof.
  revert state. induction table_columns as [|t ts IH]; intros state HP Hs;
    [exact Hs|].
  cbn [fold_left]. apply IH; [intros c t' Ht'; apply HP; now right|].
  rewrite table_step_mapping.
  destruct (truthy (matching_csv_col csv_columns t)) eqn:E; [|exact Hs].
  apply truthy_Some in E. destruct E as (c & Hc & Hne). rewrite Hc.
  apply Dict.Forall_set; [exact Hs|]. apply HP; [now left | exact Hc | exact Hne].
Qed.

Lemma fold_mapping_keys (table_columns : list string)
    (state : Dict.t string * Dict.t string) (c : string) :
  In c (Dict.keys (snd (fold_left (table_step csv_columns datatype_columns)
                                  table_columns state)))
  <-> In c (Dict.keys (snd state))
      \/ exists t, In t table_columns
                   /\ matching_csv_col csv_columns t = Some c /\ c <> "".
Proof.
  revert state. induction table_columns as [|t ts IH]; intros state.
  - cbn [fold_left]. split; [now left|].
    intros [H|(t & [] & _)]. exact H.
  - cbn [fold_left]. rewrite IH, table_step_mapping.
    destruct (truthy (matching_csv_col csv_columns t)) eqn:E.
    + apply truthy_Some in E. destruct E as (c' & Hc' & Hne). rewrite Hc'.
      rewrite Dict.In_keys_set. split.
      * intros [[->|H]|(t' & Ht' & Hm)].
        -- right. exists t. split; [now left | now split].
        -- now left.
        -- right. exists t'. split; [now right | exact Hm].
      * intros [H|(t' & [<-|Ht'] & Hm & Hn)].
        -- left. now right.
        -- left. left. congruence.
        -- right. exists t'. auto.
    + split.
      * intros [H|(t' & Ht' & Hm)]; [now left|].
        right. exists t'. split; [now right | exact Hm].
      * intros [H|(t' & [<-|Ht'] & Hm & Hn)]; [now left | | right; eauto].
        rewrite Hm in E. simpl in E.
        apply String.eqb_neq in Hn. rewrite Hn in E. discriminate E.
Qed.

End Loop.

End SingleTable.

(* ================================================================== *)
(** ** Agent 3: [_generate_transform_dataflow_script] *)
(* ================================================================== *)

Module TransformScript.
Import PyStr.
Import SchemaFallback.

(** The line feed of the triple-quoted templates. *)
Definition nl : string := String (ascii_of_nat 10) EmptyString.

(** [col.replace(' ', '_').replace('-', '_').replace('.', '_')] *)
Definition clean_col (c : string) : string :=
  replace "." "_" (replace "-" "_" (replace " " "_" c)).

Inductive StepKind := Source | Select | Aggregate | Cast | Derive | Sink.

Definition kind_eqb (a b : StepKind) : bool :=
  match a, b with
  | Source, Source | Select, Select | Aggregate, Aggregate
  | Cast, Cast | Derive, Derive | Sink, Sink => true
  | _, _ => false
  end.

(** An element of [script_parts]: the text appended by the source,
    together with what the template makes of it: the kind of node, the
    table it belongs to, the stream it reads and the name bound by
    [~>]. *)
Record Part := {
  kind : StepKind;
  table : string;
  upstream : string;
  target : string;
  text : string
}.

Definition source_part (column_output : string) : Part :=
  {| kind := Source; table := ""; upstream := ""; target := "StagingSource";
     text := "source(output(" ++ nl ++ column_output ++ nl ++ " )," ++ nl
             ++ " allowSchemaDrift: true," ++ nl
             ++ " validateSchema: false," ++ nl
             ++ " ignoreNoFilesFound: false) ~> StagingSource" |}.

Definition select_part (table_name select_output : string) : Part :=
  {| kind := Select; table := table_name; upstream := "StagingSource";
     target := "Select" ++ table_name;
     text := nl ++ "StagingSource select(mapColumn(" ++ nl
             ++ select_output ++ nl ++ " )," ++ nl
             ++ " skipDuplicateMapInputs: true," ++ nl
             ++ " skipDuplicateMapOutputs: true) ~> Select" ++ table_name |}.

Definition aggregate_part (table_name pk_clean agg_output : string) : Part :=
  {| kind := Aggregate; table := table_name;
     upstream := "Select" ++ table_name;
     target := "Aggregate" ++ table_name;
     text := nl ++ "Select" ++ table_name ++ " aggregate(groupBy("
             ++ pk_clean ++ ")," ++ nl
             ++ agg_output ++ ") ~> Aggregate" ++ table_name |}.

Definition cast_part (from table_name cast_output : string) : Part :=
  {| kind := Cast; table := table_name; upstream := from ++ table_name;
     target := "Cast" ++ table_name;
     text := nl ++ from ++ table_name ++ " cast(output(" ++ nl
             ++ cast_output ++ nl ++ ")," ++ nl
             ++ " errors: true) ~> Cast" ++ table_name |}.

Definition derive_part (table_name derive_output : string) : Part :=
  {| kind := Derive; table := table_name;
     upstream := "Aggregate" ++ table_name;
     target := "Derive" ++ table_name;
     text := nl ++ "Aggregate" ++ table_name ++ " derive(" ++ nl
             ++ derive_output ++ nl ++ ") ~> Derive" ++ table_name |}.

Definition sink_part (final_transform table_name : string) : Part :=
  {| kind := Sink; table := table_name; upstream := final_transform;
     target := "Load" ++ table_name;
     text := nl ++ final_transform ++ " sink(allowSchemaDrift: true," ++ nl
             ++ " validateSchema: false," ++ nl
             ++ " deletable:false," ++ nl
             ++ " insertable:true," ++ nl
             ++ " updateable:false," ++ nl
             ++ " upsertable:false," ++ nl
             ++ " format: 'table'," ++ nl
             ++ " skipDuplicateMapInputs: true," ++ nl
             ++ " skipDuplicateMapOutputs: true," ++ nl
             ++ " errorHandlingOption: 'stopOnFirstError') ~> Load"
             ++ table_name |}.

(** [',\n'.join(lines)] *)
Definition join_lines (lines : list string) : string :=
  join ("," ++ nl) lines.

(** [column_types]: the ['sql_type'] of each column Agent 2 typed, the
    empty string when the entry has none. *)
Definition ColumnTypes := Dict.t string.

(** The test that sets [cast_needed] in the loops over the columns. *)
Definition agent2_wants_cast (column_types : ColumnTypes) (col : string) : bool :=
  match Dict.get column_types (clean_col col) with
  | Some raw =>
      let sql_type := upper raw in
      negb (String.eqb sql_type "")
      && negb (mem sql_type ["NVARCHAR"; "VARCHAR"; "STRING"])
      && negb (str_in "TEXT" sql_type)
  | None => false
  end.

(** The cast line derived from the recommendation of Agent 2. *)
Definition agent2_cast (column_types : ColumnTypes) (col_clean : string)
    : list string :=
  match Dict.get column_types col_clean with
  | Some raw =>
      let sql_type := upper raw in
      if str_in "INT" sql_type || mem sql_type ["BIGINT"; "SMALLINT"; "TINYINT"]
      then ["      " ++ col_clean ++ " as integer"]
      else if str_in "DECIMAL" sql_type || str_in "NUMERIC" sql_type
              || str_in "MONEY" sql_type
      then ["      " ++ col_clean ++ " as decimal(18,2)"]
      else if str_in "DATE" sql_type
      then ["      " ++ col_clean ++ " as date"]
      else if str_in "TIME" sql_type || str_in "DATETIME" sql_type
      then ["      " ++ col_clean ++ " as timestamp"]
      else []
  | None => []
  end.

Definition any_in (needles : list string) (hay : string) : bool :=
  existsb (fun n => str_in n hay) needles.

(** *** The chain of one dimension *)

(** [if not primary_key:] infer it from the columns. *)
Definition effective_primary_key (dim_columns : list string)
    (primary_key first_col : string) : string :=
  if String.eqb primary_key "" then
    match filter is_id_column dim_columns with
    | cand :: _ => cand
    | [] => first_col
    end
  else primary_key.

(** The loop that fills [agg_cols]. *)
Definition agg_entry (clean : string) : string :=
  "     " ++ clean ++ " = first(" ++ clean ++ ")".

Definition is_group_key (primary_key col : string) : bool :=
  negb (String.eqb primary_key "") && String.eqb col primary_key.

Definition agg_cols (dim_columns : list string) (primary_key : string)
    : list string :=
  map (fun col => agg_entry (clean_col col))
      (filter (fun col => negb (is_group_key primary_key col)) dim_columns).

Definition pk_clean (primary_key first_col : string) : string :=
  if negb (String.eqb primary_key "") then clean_col primary_key
  else clean_col first_col.

Definition dim_is_healthcare (context_keyword : string) : bool :=
  any_in ["healthcare"; "hospital"; "patient"; "doctor"] (lower context_keyword).

Definition patient_age (dim_name col : string) : bool :=
  str_in "patient" (lower dim_name) && str_in "age" (lower col).

Definition doctor_experience (dim_name col : string) : bool :=
  str_in "doctor" (lower dim_name)
  && str_in "year" (lower col) && str_in "experience" (lower col).

Definition dim_cast_needed (context_keyword : string)
    (column_types : ColumnTypes) (dim_name : string)
    (dim_columns : list string) : bool :=
  existsb (agent2_wants_cast column_types) dim_columns
  || (dim_is_healthcare context_keyword
      && (if str_in "patient" (lower dim_name)
          then existsb (fun col => str_in "age" (lower col)) dim_columns
          else if str_in "doctor" (lower dim_name)
          then existsb (fun col => str_in "year" (lower col)
                                  && str_in "experience" (lower col))
                       dim_columns
          else false)).

Definition dim_derive_needed (context_keyword dim_name : string)
    (dim_columns : list string) : bool :=
  dim_is_healthcare context_keyword
  && negb (str_in "patient" (lower dim_name))
  && negb (str_in "doctor" (lower dim_name))
  && str_in "date" (lower dim_name)
  && negb (is_empty (filter (fun col => str_in "date" (lower col)) dim_columns)).

Definition dim_cast_cols (context_keyword : string)
    (column_types : ColumnTypes) (dim_name : string)
    (dim_columns : list string) : list string :=
  flat_map
    (fun col =>
       let col_clean := clean_col col in
       if dim_is_healthcare context_keyword
          && (patient_age dim_name col || doctor_experience dim_name col)
       then ["      " ++ col_clean ++ " as integer"]
       else agent2_cast column_types col_clean)
    dim_columns.

Definition dim_derive_cols (dim_columns : list string) : list string :=
  flat_map
    (fun col =>
       let col_clean := clean_col col in
       if any_in ["date"; "time"] (lower col)
       then ["      " ++ col_clean ++ " = toDate(" ++ col_clean ++ ")"]
       else [])
    dim_columns.

(** The name test that makes the loop skip a dimension. *)
Definition name_rejected (dim_name : string) : bool :=
  str_in "unknown" (lower dim_name) || str_in "unk" (lower dim_name).

(** What one iteration over [dimensions.items()] appends. *)
Definition dimension_chain (context_keyword : string)
    (column_types : ColumnTypes) (entry : string * DimInfo) : list Part :=
  let (dim_name, dim_info) := entry in
  if name_rejected dim_name then []
  else
    let dim_columns := columns dim_info in
    match dim_columns with
    | [] => []
    | first_col :: _ =>
        let pk := effective_primary_key dim_columns (primary_key dim_info)
                                        first_col in
        let table_name := dim_name in
        let select_output :=
          join_lines (map (fun col => "      " ++ clean_col col) dim_columns) in
        let agg_output := join_lines (agg_cols dim_columns pk) in
        let cast_needed :=
          dim_cast_needed context_keyword column_types dim_name dim_columns in
        let derive_needed :=
          dim_derive_needed context_keyword dim_name dim_columns in
        let cast_cols :=
          if cast_needed
          then dim_cast_cols context_keyword column_types dim_name dim_columns
          else [] in
        let derive_cols :=
          if derive_needed && negb cast_needed
          then dim_derive_cols dim_columns else [] in
        let cast_parts :=
          if is_empty cast_cols then []
          else [cast_part "Aggregate" table_name (join_lines cast_cols)] in
        let derive_parts :=
          if is_empty derive_cols then []
          else [derive_part table_name (join_lines derive_cols)] in
        let final_transform :=
          if negb (is_empty derive_cols) then "Derive" ++ table_name
          else if negb (is_empty cast_cols) then "Cast" ++ table_name
          else "Aggregate" ++ table_name in
        ([select_part table_name select_output;
          aggregate_part table_name (pk_clean pk first_col) agg_output]
         ++ cast_parts ++ derive_parts
         ++ [sink_part final_transform table_name])%list
    end.

(** *** The chain of the fact table *)

Definition fact_is_healthcare (context_keyword : string) : bool :=
  any_in ["healthcare"; "hospital"; "patient"; "visit"] (lower context_keyword).

Definition fact_cast_needed (context_keyword : string)
    (column_types : ColumnTypes) (fact_columns : list string) : bool :=
  existsb (agent2_wants_cast column_types) fact_columns
  || (fact_is_healthcare context_keyword
      && existsb (fun ind => str_in ind (join " " (map lower fact_columns)))
                 ["amount"; "cost"; "quantity"; "days"; "minutes"; "timestamp"]).

Definition fact_cast_cols (context_keyword : string)
    (column_types : ColumnTypes) (fact_columns : list string) : list string :=
  flat_map
    (fun col =>
       let col_clean := clean_col col in
       if fact_is_healthcare context_keyword
          && any_in ["amount"; "cost"; "price"] (lower col)
       then ["      " ++ col_clean ++ " as decimal(18,2)"]
       else if fact_is_healthcare context_keyword
               && any_in ["quantity"; "qty"] (lower col)
       then ["      " ++ col_clean ++ " as integer"]
       else if fact_is_healthcare context_keyword
               && any_in ["days"; "minutes"; "hours"; "duration"] (lower col)
       then ["      " ++ col_clean ++ " as integer"]
       else if fact_is_healthcare context_keyword
               && (str_in "timestamp" (lower col)
                   || str_in "record_created" (lower col))
       then ["      " ++ col_clean ++ " as timestamp"]
       else agent2_cast column_types col_clean)
    fact_columns.

Definition fact_chain (context_keyword : string) (column_types : ColumnTypes)
    (fact_columns : list string) (fact_tables : list (string * string))
    : list Part :=
  match fact_columns, fact_tables with
  | _ :: _, (table_name, _) :: _ =>
      let select_output :=
        join_lines (map (fun col => "      " ++ clean_col col) fact_columns) in
      let cast_cols :=
        if fact_cast_needed context_keyword column_types fact_columns
        then fact_cast_cols context_keyword column_types fact_columns
        else [] in
      let cast_parts :=
        if is_empty cast_cols then []
        else [cast_part "Select" table_name (join_lines cast_cols)] in
      let final_transform :=
        if negb (is_empty cast_cols) then "Cast" ++ table_name
        else "Select" ++ table_name in
      ([select_part table_name select_output] ++ cast_parts
       ++ [sink_part final_transform table_name])%list
  | _, _ => []
  end.

(** *** The whole script *)

Definition source_parts (csv_columns : list string) : list Part :=
  match csv_columns with
  | [] => []
  | _ :: _ =>
      [source_part
         (join_lines (map (fun col => "      " ++ clean_col col ++ " as string")
                          csv_columns))]
  end.

Definition dimension_chains (context_keyword : string)
    (column_types : ColumnTypes) (dimensions : Dict.t DimInfo) : list Part :=
  flat_map (dimension_chain context_keyword column_types) dimensions.

(** [script_parts] when the function returns.  The arguments
    [foreign_keys] and [dim_tables] are not read by the source; the count
    of [SelectDim], [AggregateDim] and [LoadDim] parts before the fact
    table only prints a warning. *)
Definition script_parts (csv_columns fact_columns : list string)
    (dimensions : Dict.t DimInfo) (column_types : ColumnTypes)
    (fact_tables : list (string * string)) (context_keyword : string)
    : list Part :=
  (source_parts csv_columns
   ++ dimension_chains context_keyword column_types dimensions
   ++ fact_chain context_keyword column_types fact_columns fact_tables)%list.

Definition _generate_transform_dataflow_script
    (csv_columns fact_columns : list string)
    (dimensions : Dict.t DimInfo) (column_types : ColumnTypes)
    (fact_tables : list (string * string)) (context_keyword : string)
    : string :=
  join nl (map text (script_parts csv_columns fact_columns dimensions
                                  column_types fact_tables context_keyword)).

Definition dim_customer : string * DimInfo :=
  ("DimCustomer",
   {| columns := ["CustomerID"; "Name"; "Phone"]; primary_key := "CustomerID" |}).


(** *** Counting the nodes *)

Definition count_kind (k : StepKind) (parts : list Part) : nat :=
  List.length (filter (fun p => kind_eqb (kind p) k) parts).

Lemma count_kind_app (k : StepKind) (l1 l2 : list Part) :
  count_kind k (l1 ++ l2) = count_kind k l1 + count_kind k l2.
Proof. unfold count_kind. now rewrite filter_app, length_app. Qed.

(** A dimension is processed when its name passes the sentinel test and
    it has a column. *)
Definition processed (entry : string * DimInfo) : bool :=
  negb (name_rejected (fst entry)) && negb (is_empty (columns (snd entry))).

Definition bool_count (b : bool) : nat := if b then 1 else 0.

Lemma dimension_chain_counts (ctx : string) (ct : ColumnTypes)
    (entry : string * DimInfo) :
  let chain := dimension_chain ctx ct entry in
  count_kind Select chain = bool_count (processed entry)
  /\ count_kind Aggregate chain = bool_count (processed entry)
  /\ count_kind Sink chain = bool_count (processed entry).
Proof.
  destruct entry as [dim_name [cols pk]]. unfold dimension_chain, processed.
  cbn [fst snd columns primary_key].
  destruct (name_rejected dim_name); [repeat split; reflexivity|].
  destruct cols as [|first_col rest]; [repeat split; reflexivity|].
  cbv zeta.
  match goal with |- context [is_empty ?c] =>
    match c with (if dim_cast_needed _ _ _ _ then _ else _) =>
      destruct (is_empty c) end end;
  match goal with |- context [is_empty ?c] =>
    match c with (if _ && _ then dim_derive_cols _ else _) =>
      destruct (is_empty c) end end;
  repeat split; reflexivity.
Qed.

Lemma dimension_chains_counts (ctx : string) (ct : ColumnTypes)
    (dims : Dict.t DimInfo) :
  let chains := dimension_chains ctx ct dims in
  count_kind Select chains = List.length (filter processed dims)
  /\ count_kind Aggregate chains = List.length (filter processed dims)
  /\ count_kind Sink chains = List.length (filter processed dims).
Proof.
  unfold dimension_chains. induction dims as [|entry dims IH].
  - repeat split; reflexivity.
  - cbn [flat_map filter]. rewrite !count_kind_app.
    destruct IH as (IH1 & IH2 & IH3).
    destruct (dimension_chain_counts ctx ct entry) as (H1 & H2 & H3).
    rewrite H1, H2, H3, IH1, IH2, IH3.
    destruct (processed entry); repeat split; reflexivity.
Qed.

Lemma fact_chain_counts (ctx : string) (ct : ColumnTypes)
    (fact_columns : list string) (fact_tables : list (string * string)) :
  fact_columns <> [] -> fact_tables <> [] ->
  let chain := fact_chain ctx ct fact_columns fact_tables in
  count_kind Select chain = 1
  /\ count_kind Aggregate chain = 0
  /\ count_kind Sink chain = 1.
Proof.
  intros Hc Ht. destruct fact_columns as [|c cs]; [contradiction|].
  destruct fact_tables as [|[t sch] ts]; [contradiction|].
  unfold fact_chain. cbv zeta.
  match goal with |- context [is_empty ?c] => destruct (is_empty c) end;
    repeat split; reflexivity.
Qed.

Lemma source_parts_counts (csv_columns : list string) :
  count_kind Select (source_parts csv_columns) = 0
  /\ count_kind Aggregate (source_parts csv_columns) = 0
  /\ count_kind Sink (source_parts csv_columns) = 0.
Proof. destruct csv_columns; repeat split; reflexivity. Qed.

(** *** No chain for a rejected name *)





(** *** The aggregate step *)

Lemma length_append (a b : string) :
  String.length (a ++ b) = String.length a + String.length b.
Proof. induction a as [|c a IH]; simpl; [reflexivity | now rewrite IH]. Qed.

Lemma append_inj_same_length (a b s t : string) :
  String.length a = String.length b -> a ++ s = b ++ t -> a = b.
Proof.
  revert b. induction a as [|c a IH]; intros [|d b]; simpl;
    try discriminate; [reflexivity|].
  intros Hlen Heq. injection Hlen as Hlen. injection Heq as -> Heq.
  f_equal. now apply IH.
Qed.

Lemma agg_entry_inj (x y : string) : agg_entry x = agg_entry y -> x = y.
Proof.
  unfold agg_entry. intros H.
  assert (Hlen : String.length x = String.length y).
  { apply (f_equal String.length) in H. rewrite !length_append in H.
    simpl in H. lia. }
  simpl in H. injection H as H.
  eapply append_inj_same_length; eassumption.
Qed.

(** The columns that get a reduction: all but the group-by key. *)
Definition other_columns (dim_columns : list string) (pk : string)
    : list string :=
  filter (fun col => negb (is_group_key pk col)) dim_columns.

Lemma agg_cols_other (dim_columns : list string) (pk : string) :
  agg_cols dim_columns pk
  = map agg_entry (map clean_col (other_columns dim_columns pk)).
Proof. unfold agg_cols, other_columns. now rewrite map_map. Qed.

Lemma In_other_columns (dim_columns : list string) (pk c : string) :
  pk <> "" ->
  In c (other_columns dim_columns pk) <-> In c dim_columns /\ c <> pk.
Proof.
  intros Hpk. unfold other_columns, is_group_key. rewrite filter_In.
  apply String.eqb_neq in Hpk. rewrite Hpk. cbn [negb andb].
  destruct (String.eqb c pk) eqn:E.
  - apply String.eqb_eq in E. split; intros [H1 H2]; [discriminate | tauto].
  - apply String.eqb_neq in E. tauto.
Qed.

Lemma NoDup_map_inj {A B : Type} (f : A -> B) (l : list A) :
  (forall x y, f x = f y -> x = y) -> NoDup l -> NoDup (map f l).
Proof.
  intros Hinj Hnd. induction Hnd as [|x l Hx Hnd IH]; simpl; constructor.
  - rewrite in_map_iff. intros (y & Hy & Hin). apply Hinj in Hy. now subst.
  - exact IH.
Qed.

Section AggregateStep.
Variables (dim_columns : list string) (pk : string).
Hypothesis pk_nonempty : pk <> "".
Hypothesis clean_names_distinct :
  NoDup (map clean_col (pk :: other_columns dim_columns pk)).

Lemma agg_cols_once (c : string) :
  In c dim_columns -> c <> pk ->
  count_occ string_dec (agg_cols dim_columns pk) (agg_entry (clean_col c)) = 1.
Proof.
  intros Hin Hne. rewrite agg_cols_other.
  apply NoDup_count_occ'.
  - apply NoDup_map_inj; [exact agg_entry_inj|].
    simpl in clean_names_distinct. now inversion clean_names_distinct.
  - apply in_map, in_map. apply In_other_columns; auto.
Qed.

Lemma agg_cols_without_key :
  ~ In (agg_entry (clean_col pk)) (agg_cols dim_columns pk).
Proof.
  rewrite agg_cols_other. intros H. apply in_map_iff in H.
  destruct H as (x & Hx & Hin). apply agg_entry_inj in Hx. subst x.
  simpl in clean_names_distinct. inversion clean_names_distinct. contradiction.
Qed.

Lemma agg_cols_only_others (e : string) :
  In e (agg_cols dim_columns pk) ->
  exists c, In c dim_columns /\ c <> pk /\ e = agg_entry (clean_col c).
Proof.
  rewrite agg_cols_other, map_map. intros H. apply in_map_iff in H.
  destruct H as (c & <- & Hin). apply In_other_columns in Hin; [|assumption].
  exists c. tauto.
Qed.

End AggregateStep.

(** The aggregate part of a processed dimension. *)
Lemma dimension_chain_aggregate (ctx : string) (ct : ColumnTypes)
    (dim_name : string) (info : DimInfo) (first_col : string)
    (rest : list string) :
  name_rejected dim_name = false ->
  columns info = first_col :: rest ->
  let pk := effective_primary_key (columns info) (primary_key info) first_col in
  In (aggregate_part dim_name (pk_clean pk first_col)
                     (join_lines (agg_cols (columns info) pk)))
     (dimension_chain ctx ct (dim_name, info)).
Proof.
  intros Hname Hcols. unfold dimension_chain. rewrite Hname.
  destruct info as [cols pk0]. cbn [columns primary_key] in *. subst cols.
  cbv zeta. right. left. reflexivity.
Qed.

(** A dimension that lists a column twice, and one whose key and another
    column are cleaned to the same name. *)
Definition dim_repeated : string * DimInfo :=
  ("DimPatient",
   {| columns := ["Patient_ID"; "Name"; "Name"]; primary_key := "Patient_ID" |}).

Definition dim_clash : string * DimInfo :=
  ("DimPatient",
   {| columns := ["Patient ID"; "Patient_ID"]; primary_key := "Patient ID" |}).


(** *** Transformations and sinks *)

Definition is_transformation (p : Part) : bool :=
  match kind p with
  | Select | Aggregate | Cast | Derive => true
  | _ => false
  end.

Definition is_sink (p : Part) : bool := kind_eqb (kind p) Sink.

(** The names bound by the transformation nodes, and those bound by the
    sink nodes. *)
Definition transformation_names (parts : list Part) : list string :=
  map target (filter is_transformation parts).

Definition sink_names (parts : list Part) : list string :=
  map target (filter is_sink parts).

Lemma transformation_names_app (l1 l2 : list Part) :
  transformation_names (l1 ++ l2)
  = (transformation_names l1 ++ transformation_names l2)%list.
Proof. unfold transformation_names. now rewrite filter_app, map_app. Qed.

Definition step_prefixes : list string :=
  ["Select"; "Aggregate"; "Cast"; "Derive"].

(** [n] is the name of a transformation of the table [t]. *)
Definition tagged (t n : string) : Prop :=
  exists k, In k step_prefixes /\ n = k ++ t.

Lemma tagged_same_table (t t' n : string) : tagged t n -> tagged t' n -> t = t'.
Proof.
  intros (k & Hk & ->) (k' & Hk' & H). simpl in Hk, Hk'.
  destruct Hk as [<-|[<-|[<-|[<-|[]]]]];
    destruct Hk' as [<-|[<-|[<-|[<-|[]]]]];
    simpl in H; try discriminate H; now injection H.
Qed.

Lemma tagged_not_load (t t' n : string) : tagged t n -> n <> "Load" ++ t'.
Proof.
  intros (k & Hk & ->) H. simpl in Hk.
  destruct Hk as [<-|[<-|[<-|[<-|[]]]]]; simpl in H; discriminate H.
Qed.

Lemma count_occ_foreign (l : list string) (t u : string) :
  (forall n, In n l -> exists t', t' <> t /\ tagged t' n) ->
  tagged t u -> count_occ string_dec l u = 0.
Proof.
  intros Hl Hu. apply count_occ_not_In. intros Hin.
  destruct (Hl _ Hin) as (t' & Hne & Ht'). apply Hne.
  exact (tagged_same_table _ _ _ Ht' Hu).
Qed.

(** The chain of a dimension, when there is one: a select, an aggregate,
    then a cast, a derive, both or neither, and the sink, which reads the
    last of them. *)
Inductive chain_shape (t : string) : list Part -> Prop :=
| shape_plain so pkc ao :
    chain_shape t [select_part t so; aggregate_part t pkc ao;
                   sink_part ("Aggregate" ++ t) t]
| shape_cast so pkc ao co :
    chain_shape t [select_part t so; aggregate_part t pkc ao;
                   cast_part "Aggregate" t co; sink_part ("Cast" ++ t) t]
| shape_derive so pkc ao d :
    chain_shape t [select_part t so; aggregate_part t pkc ao;
                   derive_part t d; sink_part ("Derive" ++ t) t]
| shape_both so pkc ao co d :
    chain_shape t [select_part t so; aggregate_part t pkc ao;
                   cast_part "Aggregate" t co; derive_part t d;
                   sink_part ("Derive" ++ t) t].

Lemma dimension_chain_shape (ctx : string) (ct : ColumnTypes)
    (entry : string * DimInfo) :
  dimension_chain ctx ct entry = []
  \/ chain_shape (fst entry) (dimension_chain ctx ct entry).
Proof.
  destruct entry as [dim_name [cols pk]]. unfold dimension_chain.
  cbn [fst snd columns primary_key].
  destruct (name_rejected dim_name); [now left|].
  destruct cols as [|first_col rest]; [now left|]. right. cbv zeta.
  match goal with |- context [is_empty ?c] =>
    match c with (if dim_cast_needed _ _ _ _ then _ else _) =>
      destruct (is_empty c) end end;
  match goal with |- context [is_empty ?c] =>
    match c with (if _ && _ then dim_derive_cols _ else _) =>
      destruct (is_empty c) end end;
  cbn [negb app]; constructor.
Qed.

(** The chain of the fact table, when there is one. *)
Inductive fact_shape (t : string) : list Part -> Prop :=
| fact_plain so :
    fact_shape t [select_part t so; sink_part ("Select" ++ t) t]
| fact_cast so co :
    fact_shape t [select_part t so; cast_part "Select" t co;
                  sink_part ("Cast" ++ t) t].

Lemma fact_chain_shape (ctx : string) (ct : ColumnTypes)
    (fact_columns : list string) (fact_tables : list (string * string)) :
  fact_chain ctx ct fact_columns fact_tables = []
  \/ exists t sch rest,
       fact_tables = (t, sch) :: rest
       /\ fact_shape t (fact_chain ctx ct fact_columns fact_tables).
Proof.
  unfold fact_chain. destruct fact_columns as [|c cs]; [now left|].
  destruct fact_tables as [|[t sch] rest]; [now left|]. right.
  exists t, sch, rest. split; [reflexivity|]. cbv zeta.
  match goal with |- context [is_empty ?c] => destruct (is_empty c) end;
    cbn [negb app]; constructor.
Qed.

Ltac tag k := exists k; split; [simpl; tauto | reflexivity].

Ltac distinct_names :=
  repeat constructor; simpl;
  repeat match goal with
         | |- ~ _ => intros H
         | H : _ \/ _ |- _ => destruct H as [H|H]
         | H : False |- _ => destruct H
         | H : String _ _ = String _ _ |- _ => discriminate H
         end.

(** In a chain the transformations carry the name of the table, no name
    is bound twice, and the sink reads one of them. *)
Definition well_named (t : string) (chain : list Part) : Prop :=
  (forall n, In n (transformation_names chain) -> tagged t n)
  /\ NoDup (transformation_names chain)
  /\ (forall n, In n (sink_names chain) -> n = "Load" ++ t)
  /\ (forall p, In p chain -> is_sink p = true ->
        tagged t (upstream p) /\ In (upstream p) (transformation_names chain)).

Lemma chain_shape_named (t : string) (chain : list Part) :
  chain_shape t chain -> well_named t chain.
Proof.
  intros H. destruct H; unfold well_named;
    cbn [transformation_names sink_names filter map is_transformation
         is_sink kind kind_eqb target select_part aggregate_part
         cast_part derive_part sink_part];
    (split; [|split; [|split]]).
  all: try solve [distinct_names].
  all: try solve [intros n Hn; simpl in Hn;
                  repeat (destruct Hn as [<-|Hn];
                          [first [tag "Select" | tag "Aggregate"
                                 | tag "Cast" | tag "Derive" | reflexivity]|]);
                  destruct Hn].
  all: intros p Hp Hs; simpl in Hp;
    repeat (destruct Hp as [<-|Hp]; [try discriminate Hs|]);
    try destruct Hp; cbn [upstream];
    (split; [first [tag "Aggregate" | tag "Cast" | tag "Derive"]
            | simpl; tauto]).
Qed.

Lemma fact_shape_named (t : string) (chain : list Part) :
  fact_shape t chain -> well_named t chain.
Proof.
  intros H. destruct H; unfold well_named;
    cbn [transformation_names sink_names filter map is_transformation
         is_sink kind kind_eqb target select_part aggregate_part
         cast_part derive_part sink_part];
    (split; [|split; [|split]]).
  all: try solve [distinct_names].
  all: try solve [intros n Hn; simpl in Hn;
                  repeat (destruct Hn as [<-|Hn];
                          [first [tag "Select" | tag "Aggregate"
                                 | tag "Cast" | tag "Derive" | reflexivity]|]);
                  destruct Hn].
  all: intros p Hp Hs; simpl in Hp;
    repeat (destruct Hp as [<-|Hp]; [try discriminate Hs|]);
    try destruct Hp; cbn [upstream];
    (split; [first [tag "Select" | tag "Cast"] | simpl; tauto]).
Qed.


Lemma well_named_nil (t : string) : well_named t [].
Proof.
  unfold well_named. cbn.
  split; [intros ? []|split; [constructor|split; intros ? []]].
Qed.

Lemma dimension_chain_named (ctx : string) (ct : ColumnTypes)
    (entry : string * DimInfo) :
  well_named (fst entry) (dimension_chain ctx ct entry).
Proof.
  destruct (dimension_chain_shape ctx ct entry) as [H|H].
  - rewrite H. apply well_named_nil.
  - now apply chain_shape_named.
Qed.

Lemma sink_names_app (l1 l2 : list Part) :
  sink_names (l1 ++ l2) = (sink_names l1 ++ sink_names l2)%list.
Proof. unfold sink_names. now rewrite filter_app, map_app. Qed.

Section Chains.
Variables (ctx : string) (ct : ColumnTypes).

Lemma chains_tagged (dims : Dict.t DimInfo) (n : string) :
  In n (transformation_names (dimension_chains ctx ct dims)) ->
  exists t, In t (Dict.keys dims) /\ tagged t n.
Proof.
  unfold dimension_chains. induction dims as [|e dims IH]; simpl; [intros []|].
  rewrite transformation_names_app, in_app_iff. intros [H|H].
  - exists (fst e). split; [now left|].
    now apply (dimension_chain_named ctx ct e).
  - destruct (IH H) as (t & Ht & Htag). exists t. split; [now right | exact Htag].
Qed.

Lemma chains_sinks (dims : Dict.t DimInfo) (n : string) :
  In n (sink_names (dimension_chains ctx ct dims)) ->
  exists t, n = "Load" ++ t.
Proof.
  unfold dimension_chains. induction dims as [|e dims IH]; simpl; [intros []|].
  rewrite sink_names_app, in_app_iff. intros [H|H]; [|auto].
  exists (fst e). now apply (dimension_chain_named ctx ct e).
Qed.

Lemma chains_distinct (dims : Dict.t DimInfo) :
  NoDup (Dict.keys dims) ->
  NoDup (transformation_names (dimension_chains ctx ct dims)).
Proof.
  unfold dimension_chains. induction dims as [|e dims IH]; simpl;
    [constructor|].
  intros Hnd. inversion Hnd as [|? ? Hnotin Hnd']; subst.
  rewrite transformation_names_app. apply NoDup_app.
  - apply (dimension_chain_named ctx ct e).
  - auto.
  - intros n Hn Hn'. apply (dimension_chain_named ctx ct e) in Hn.
    apply chains_tagged in Hn'. destruct Hn' as (t & Ht & Htag).
    apply Hnotin. rewrite (tagged_same_table _ _ _ Hn Htag). exact Ht.
Qed.

Lemma chains_sink_upstream (dims : Dict.t DimInfo) (p : Part) :
  In p (dimension_chains ctx ct dims) -> is_sink p = true ->
  In (upstream p) (transformation_names (dimension_chains ctx ct dims)).
Proof.
  unfold dimension_chains. induction dims as [|e dims IH]; simpl; [intros []|].
  rewrite transformation_names_app, !in_app_iff. intros [H|H] Hs.
  - left. now apply (dimension_chain_named ctx ct e).
  - right. auto.
Qed.

End Chains.

(** The whole script: no transformation is also a sink; when the names
    of the dimensions are distinct and the fact table is not named as a
    dimension, no transformation name is bound twice and every sink reads
    a transformation bound exactly once. *)
Lemma script_names_disjoint (csv_columns fact_columns : list string)
    (dims : Dict.t DimInfo) (ct : ColumnTypes)
    (fact_tables : list (string * string)) (ctx : string) (n : string) :
  let parts := script_parts csv_columns fact_columns dims ct fact_tables ctx in
  In n (transformation_names parts) -> ~ In n (sink_names parts).
Proof.
  intros parts Hn Hs. unfold parts, script_parts in Hn, Hs.
  rewrite !transformation_names_app, !in_app_iff in Hn.
  rewrite !sink_names_app, !in_app_iff in Hs.
  assert (Htag : exists t, tagged t n).
  { destruct Hn as [Hn|[Hn|Hn]].
    - destruct csv_columns; destruct Hn.
    - apply chains_tagged in Hn. destruct Hn as (t & _ & Ht). eauto.
    - destruct (fact_chain_shape ctx ct fact_columns fact_tables)
        as [E|(t & sch & rest & _ & Hsh)].
      + rewrite E in Hn. destruct Hn.
      + exists t. now apply (fact_shape_named _ _ Hsh). }
  destruct Htag as (t & Ht).
  assert (Hload : exists t', n = "Load" ++ t').
  { destruct Hs as [Hs|[Hs|Hs]].
    - destruct csv_columns; destruct Hs.
    - now apply chains_sinks in Hs.
    - destruct (fact_chain_shape ctx ct fact_columns fact_tables)
        as [E|(t' & sch & rest & _ & Hsh)].
      + rewrite E in Hs. destruct Hs.
      + exists t'. now apply (fact_shape_named _ _ Hsh). }
  destruct Hload as (t' & Hl). exact (tagged_not_load _ _ _ Ht Hl).
Qed.

Lemma script_sinks_read_once (csv_columns fact_columns : list string)
    (dims : Dict.t DimInfo) (ct : ColumnTypes)
    (fact_tables : list (string * string)) (ctx : string) :
  NoDup (Dict.keys dims) ->
  (forall t sch rest, fact_tables = (t, sch) :: rest -> ~ In t (Dict.keys dims)) ->
  let parts := script_parts csv_columns fact_columns dims ct fact_tables ctx in
  NoDup (transformation_names parts)
  /\ forall p, In p parts -> is_sink p = true ->
       count_occ string_dec (transformation_names parts) (upstream p) = 1.
Proof.
  intros Hnd Hfact parts.
  assert (Hsrc : transformation_names (source_parts csv_columns) = []).
  { destruct csv_columns; reflexivity. }
  assert (Hall : NoDup (transformation_names parts)).
  { unfold parts, script_parts. rewrite !transformation_names_app, Hsrc.
    cbn [app]. apply NoDup_app.
    - now apply chains_distinct.
    - destruct (fact_chain_shape ctx ct fact_columns fact_tables)
        as [E|(t & sch & rest & _ & Hsh)].
      + rewrite E. constructor.
      + apply (fact_shape_named _ _ Hsh).
    - intros n Hn Hn'. apply chains_tagged in Hn.
      destruct Hn as (t & Ht & Htag).
      destruct (fact_chain_shape ctx ct fact_columns fact_tables)
        as [E|(t' & sch & rest & Heq & Hsh)].
      + rewrite E in Hn'. destruct Hn'.
      + apply (fact_shape_named _ _ Hsh) in Hn'.
        apply (Hfact _ _ _ Heq).
        rewrite (tagged_same_table _ _ _ Hn' Htag). exact Ht. }
  split; [exact Hall|]. intros p Hp Hs.
  apply NoDup_count_occ'; [exact Hall|].
  unfold parts, script_parts in Hp |- *.
  rewrite !transformation_names_app, !in_app_iff.
  rewrite !in_app_iff in Hp. destruct Hp as [Hp|[Hp|Hp]].
  - destruct csv_columns; [destruct Hp|].
    destruct Hp as [<-|[]]. discriminate Hs.
  - right. left. now apply chains_sink_upstream.
  - right. right.
    destruct (fact_chain_shape ctx ct fact_columns fact_tables)
      as [E|(t' & sch & rest & Heq & Hsh)].
    + rewrite E in Hp. destruct Hp.
    + now apply (fact_shape_named _ _ Hsh).
Qed.


(** *** Column names after cleaning *)

(** The characters the cleaning replaces. *)
Definition is_separator (c : ascii) : bool :=
  Ascii.eqb c " " || Ascii.eqb c "-" || Ascii.eqb c ".".

Definition clean_char (c : ascii) : ascii :=
  if is_separator c then "_"%char else c.

Lemma clean_char_swaps (c : ascii) :
  swap_char "." "_" (swap_char "-" "_" (swap_char " " "_" c)) = clean_char c.
Proof.
  unfold swap_char, clean_char, is_separator.
  destruct (Ascii.eqb_spec " " c) as [<-|H1]; [reflexivity|].
  destruct (Ascii.eqb_spec "-" c) as [<-|H2]; [reflexivity|].
  destruct (Ascii.eqb_spec "." c) as [<-|H3]; [reflexivity|].
  destruct (Ascii.eqb_spec c " ") as [->|_]; [congruence|].
  destruct (Ascii.eqb_spec c "-") as [->|_]; [congruence|].
  destruct (Ascii.eqb_spec c ".") as [->|_]; [congruence|].
  reflexivity.
Qed.

Lemma clean_col_map (c : string) : clean_col c = map_chars clean_char c.
Proof.
  unfold clean_col. rewrite !replace_char, !map_chars_map_chars.
  apply map_chars_ext, clean_char_swaps.
Qed.

Lemma clean_char_solid (c : ascii) : negb (is_separator (clean_char c)) = true.
Proof.
  unfold clean_char. destruct (is_separator c) eqn:E; [reflexivity|].
  now rewrite E.
Qed.

Lemma clean_char_fixed (c : ascii) :
  negb (is_separator c) = true -> clean_char c = c.
Proof.
  unfold clean_char. now destruct (is_separator c).
Qed.


(** *** The conversions of a chain *)

Definition cast_types : list string :=
  ["integer"; "decimal(18,2)"; "date"; "timestamp"].

Definition cast_line (col_clean ty : string) : string :=
  "      " ++ col_clean ++ " as " ++ ty.

Lemma agent2_cast_line (ct : ColumnTypes) (c : string) :
  agent2_cast ct c = []
  \/ exists ty, In ty cast_types /\ agent2_cast ct c = [cast_line c ty].
Proof.
  unfold agent2_cast. destruct (Dict.get ct c) as [raw|]; [|now left].
  cbv zeta.
  destruct (_ || _).
  { right. exists "integer". split; [simpl; tauto | reflexivity]. }
  destruct (_ || _).
  { right. exists "decimal(18,2)". split; [simpl; tauto | reflexivity]. }
  destruct (str_in "DATE" _).
  { right. exists "date". split; [simpl; tauto | reflexivity]. }
  destruct (_ || _).
  { right. exists "timestamp". split; [simpl; tauto | reflexivity]. }
  now left.
Qed.

(** A dimension that needs a derive has a column to derive. *)
Lemma derive_needed_cols (ctx dim_name : string) (cols : list string) :
  dim_derive_needed ctx dim_name cols = true ->
  is_empty (dim_derive_cols cols) = false.
Proof.
  unfold dim_derive_needed. intros H.
  apply andb_prop in H. destruct H as [_ H].
  apply negb_true_iff in H.
  induction cols as [|c cols IH]; [discriminate H|].
  cbn [filter] in H. cbn [dim_derive_cols flat_map].
  destruct (str_in "date" (lower c)) eqn:E.
  - unfold any_in. cbn [existsb]. rewrite E. reflexivity.
  - destruct (any_in ["date"; "time"] (lower c)); [reflexivity|].
    cbn [app]. exact (IH H).
Qed.

(** The chain of a dimension that is processed, by the two flags. *)
Lemma dimension_chain_cases (ctx : string) (ct : ColumnTypes)
    (dim_name : string) (info : DimInfo) :
  processed (dim_name, info) = true ->
  let cols := columns info in
  let cast_cols := dim_cast_cols ctx ct dim_name cols in
  exists so pkc ao,
    dimension_chain ctx ct (dim_name, info)
    = if dim_cast_needed ctx ct dim_name cols
      then if is_empty cast_cols
           then [select_part dim_name so; aggregate_part dim_name pkc ao;
                 sink_part ("Aggregate" ++ dim_name) dim_name]
           else [select_part dim_name so; aggregate_part dim_name pkc ao;
                 cast_part "Aggregate" dim_name (join_lines cast_cols);
                 sink_part ("Cast" ++ dim_name) dim_name]
      else if dim_derive_needed ctx dim_name cols
           then [select_part dim_name so; aggregate_part dim_name pkc ao;
                 derive_part dim_name (join_lines (dim_derive_cols cols));
                 sink_part ("Derive" ++ dim_name) dim_name]
           else [select_part dim_name so; aggregate_part dim_name pkc ao;
                 sink_part ("Aggregate" ++ dim_name) dim_name].
Proof.
  destruct info as [cols pk]. unfold processed, dimension_chain.
  cbn [fst snd columns primary_key]. intros H.
  apply andb_prop in H. destruct H as [Hn Hc].
  apply negb_true_iff in Hn. rewrite Hn.
  destruct cols as [|first_col rest]; [discriminate Hc|].
  cbv zeta. do 3 eexists.
  destruct (dim_cast_needed ctx ct dim_name (first_col :: rest)) eqn:Ecast.
  - cbn [andb negb]. rewrite andb_false_r. cbn [is_empty negb app].
    destruct (is_empty (dim_cast_cols ctx ct dim_name (first_col :: rest)));
      reflexivity.
  - cbn [is_empty negb app]. rewrite andb_true_r.
    destruct (dim_derive_needed ctx dim_name (first_col :: rest)) eqn:Eder.
    + rewrite (derive_needed_cols _ _ _ Eder). reflexivity.
    + reflexivity.
Qed.

(** *** The order of the streams *)

(** Every part reads a stream that an earlier part has bound. *)
Fixpoint streams_bound (bound : list string) (parts : list Part) : Prop :=
  match parts with
  | [] => True
  | p :: rest =>
      (kind p = Source \/ In (upstream p) bound)
      /\ streams_bound (target p :: bound) rest
  end.

Lemma streams_bound_incl (b1 b2 : list string) (parts : list Part) :
  incl b1 b2 -> streams_bound b1 parts -> streams_bound b2 parts.
Proof.
  revert b1 b2. induction parts as [|p parts IH]; intros b1 b2 Hi; [auto|].
  cbn [streams_bound]. intros [H1 H2]. split.
  - destruct H1 as [H1|H1]; [now left | right; now apply Hi].
  - apply (IH (target p :: b1)); [|exact H2].
    intros x [<-|Hx]; [now left | right; now apply Hi].
Qed.

Lemma streams_bound_app (b : list string) (l1 l2 : list Part) :
  streams_bound b l1 -> streams_bound b l2 -> streams_bound b (l1 ++ l2).
Proof.
  revert b. induction l1 as [|p l1 IH]; intros b H1 H2; [exact H2|].
  cbn [app streams_bound] in *. destruct H1 as [Hp H1]. split; [exact Hp|].
  apply IH; [exact H1|].
  apply (streams_bound_incl b); [intros x Hx; now right | exact H2].
Qed.

Lemma chain_shape_bound (t : string) (chain : list Part) (b : list string) :
  chain_shape t chain -> In "StagingSource" b -> streams_bound b chain.
Proof.
  intros H Hb. destruct H; cbn [streams_bound select_part aggregate_part
    cast_part derive_part sink_part kind upstream target];
    repeat split; right; simpl; tauto.
Qed.

Lemma fact_shape_bound (t : string) (chain : list Part) (b : list string) :
  fact_shape t chain -> In "StagingSource" b -> streams_bound b chain.
Proof.
  intros H Hb. destruct H; cbn [streams_bound select_part aggregate_part
    cast_part derive_part sink_part kind upstream target];
    repeat split; right; simpl; tauto.
Qed.

Lemma chains_bound (ctx : string) (ct : ColumnTypes) (dims : Dict.t DimInfo)
    (b : list string) :
  In "StagingSource" b -> streams_bound b (dimension_chains ctx ct dims).
Proof.
  intros Hb. unfold dimension_chains.
  induction dims as [|e dims IH]; [exact I|].
  cbn [flat_map]. apply streams_bound_app; [|exact IH].
  destruct (dimension_chain_shape ctx ct e) as [E|Hs].
  - rewrite E. exact I.
  - now apply (chain_shape_bound (fst e)).
Qed.

(** No part of a chain binds the name of the source stream. *)
Lemma tagged_not_staging (t n : string) :
  tagged t n \/ n = "Load" ++ t -> n <> "StagingSource".
Proof.
  intros [(k & Hk & ->)| ->] H.
  - simpl in Hk. destruct Hk as [<-|[<-|[<-|[<-|[]]]]]; simpl in H;
      discriminate H.
  - simpl in H. discriminate H.
Qed.


Lemma dimension_chain_unprocessed (ctx : string) (ct : ColumnTypes)
    (entry : string * DimInfo) :
  processed entry = false -> dimension_chain ctx ct entry = [].
Proof.
  destruct entry as [dim_name [cols pk]]. unfold processed, dimension_chain.
  cbn [fst snd columns primary_key].
  destruct (name_rejected dim_name); [reflexivity|].
  destruct cols; [reflexivity | discriminate].
Qed.

Lemma chain_shape_targets (t : string) (chain : list Part) (p : Part) :
  chain_shape t chain -> In p chain ->
  (tagged t (target p) \/ target p = "Load" ++ t)
  /\ (kind p = Select -> upstream p = "StagingSource").
Proof.
  intros H Hp. destruct H; simpl in Hp;
    repeat (destruct Hp as [<-|Hp];
            [split; [first [left; tag "Select" | left; tag "Aggregate"
                           | left; tag "Cast" | left; tag "Derive"
                           | right; reflexivity]
                    | cbn [kind select_part aggregate_part cast_part
                           derive_part sink_part upstream];
                      first [reflexivity | discriminate]]|]);
    destruct Hp.
Qed.

Lemma fact_shape_targets (t : string) (chain : list Part) (p : Part) :
  fact_shape t chain -> In p chain ->
  (tagged t (target p) \/ target p = "Load" ++ t)
  /\ (kind p = Select -> upstream p = "StagingSource").
Proof.
  intros H Hp. destruct H; simpl in Hp;
    repeat (destruct Hp as [<-|Hp];
            [split; [first [left; tag "Select" | left; tag "Aggregate"
                           | left; tag "Cast" | left; tag "Derive"
                           | right; reflexivity]
                    | cbn [kind select_part aggregate_part cast_part
                           derive_part sink_part upstream];
                      first [reflexivity | discriminate]]|]);
    destruct Hp.
Qed.


Lemma flat_map_at_most_one {A B : Type} (f : A -> list B) (l : list A) :
  (forall x, List.length (f x) <= 1) ->
  List.length (flat_map f l) <= List.length l.
Proof.
  intros H. induction l as [|x l IH]; [auto|].
  cbn [flat_map]. rewrite length_app. specialize (H x). simpl. lia.
Qed.


Lemma dim_cast_cols_line (ctx : string) (ct : ColumnTypes)
    (dim_name : string) (cols : list string) (line : string) :
  In line (dim_cast_cols ctx ct dim_name cols) ->
  exists col ty,
    In col cols /\ In ty cast_types /\ line = cast_line (clean_col col) ty.
Proof.
  intros H. apply in_flat_map in H. destruct H as (col & Hcol & H).
  exists col. cbv zeta in H.
  destruct (_ && _) in H.
  - destruct H as [<-|[]]. exists "integer". simpl; tauto.
  - destruct (agent2_cast_line ct (clean_col col)) as [E|(ty & Hty & E)];
      rewrite E in H; [destruct H|].
    destruct H as [<-|[]]. exists ty. auto.
Qed.

Lemma fact_cast_cols_line (ctx : string) (ct : ColumnTypes)
    (cols : list string) (line : string) :
  In line (fact_cast_cols ctx ct cols) ->
  exists col ty,
    In col cols /\ In ty cast_types /\ line = cast_line (clean_col col) ty.
Proof.
  intros H. apply in_flat_map in H. destruct H as (col & Hcol & H).
  exists col. cbv zeta in H.
  repeat match type of H with
         | In _ (if ?b then _ else _) => destruct b
         end;
    try (destruct H as [<-|[]];
         first [ exists "decimal(18,2)"; simpl; tauto
               | exists "integer"; simpl; tauto
               | exists "timestamp"; simpl; tauto ]).
  destruct (agent2_cast_line ct (clean_col col)) as [E|(ty & Hty & E)];
    rewrite E in H; [destruct H|].
  destruct H as [<-|[]]. exists ty. auto.
Qed.


(** *** The stream the fact sink reads *)











End TransformScript.

(* ================================================================== *)
(** ** The context keyword: [_derive_context_keyword] *)
(* ================================================================== *)

Module ContextKeyword.
Import PyStr.
Import SchemaFallback.
Import TransformScript.

Definition keywords : list string :=
  ["hospital"; "patient"; "doctor"; "healthcare"; "medical"; "clinic";
   "automobile"; "vehicle"; "car"; "sales"; "retail"; "customer"; "order"].

(** [' '.join(csv_columns).lower()] *)
Definition all_text (csv_columns : list string) : string :=
  lower (join " " csv_columns).

(** The arguments [fact_columns] and [dimensions] are not read. *)
Definition _derive_context_keyword (csv_columns fact_columns : list string)
    (dimensions : Dict.t DimInfo) : string :=
  match find (fun keyword => str_in keyword (all_text csv_columns)) keywords with
  | Some keyword => title keyword
  | None => "Data"
  end.

End ContextKeyword.

(* ================================================================== *)
(** ** Patterns of the [re] module *)
(* ================================================================== *)

Module Regex.
Import PyStr.

(** A matcher tries a pattern at the head of a string and returns what
    follows the match.  The patterns of the source are sequences of
    literals, [\s*] and [\w+], in which a repetition is always followed
    by a character outside its class, so that the longest repetition is
    the only one that can succeed and no backtracking is needed. *)
Definition Matcher := string -> option string.

(** A literal, under [re.IGNORECASE]. *)
Fixpoint lit_ci (w : string) (s : string) : option string :=
  match w with
  | EmptyString => Some s
  | String a w' =>
      match s with
      | EmptyString => None
      | String b s' =>
          if Ascii.eqb (lower_char a) (lower_char b) then lit_ci w' s' else None
      end
  end.

(** A literal, letter case significant. *)
Fixpoint lit (w : string) (s : string) : option string :=
  match w with
  | EmptyString => Some s
  | String a w' =>
      match s with
      | EmptyString => None
      | String b s' => if Ascii.eqb a b then lit w' s' else None
      end
  end.

(** [\s*] *)
Fixpoint spaces (s : string) : option string :=
  match s with
  | EmptyString => Some s
  | String c s' => if is_space c then spaces s' else Some s
  end.

(** One character of a class, such as a quotation mark. *)
Definition one_of (p : ascii -> bool) (s : string) : option string :=
  match s with
  | EmptyString => None
  | String c s' => if p c then Some s' else None
  end.

(** The longest run of characters of a class, and what follows it. *)
Fixpoint span (p : ascii -> bool) (s : string) : string * string :=
  match s with
  | EmptyString => (EmptyString, EmptyString)
  | String c s' =>
      if p c then let (w, r) := span p s' in (String c w, r)
      else (EmptyString, s)
  end.

(** [(\w+)]: the group and what follows it. *)
Definition word_plus (s : string) : option (string * string) :=
  match span is_word s with
  | (EmptyString, _) => None
  | (w, r) => Some (w, r)
  end.

Definition seq (m1 m2 : Matcher) : Matcher :=
  fun s => match m1 s with Some r => m2 r | None => None end.

Definition is_some {A : Type} (o : option A) : bool :=
  match o with Some _ => true | None => false end.

(** [re.search(pattern, s)] is not [None], also: [re.finditer] yields a
    match. *)
Fixpoint search (m : Matcher) (s : string) : bool :=
  is_some (m s)
  || match s with
     | EmptyString => false
     | String _ s' => search m s'
     end.

Lemma search_at (m : Matcher) (pre s : string) :
  is_some (m s) = true -> search m (pre ++ s) = true.
Proof.
  intros H. induction pre as [|c pre IH]; simpl.
  - destruct s; simpl; rewrite H; reflexivity.
  - rewrite IH. apply orb_true_r.
Qed.

Lemma search_inv (m : Matcher) (s : string) :
  search m s = true -> exists pre t, s = pre ++ t /\ is_some (m t) = true.
Proof.
  induction s as [|c s IH]; simpl.
  - rewrite orb_false_r. intros H. exists "", "". auto.
  - intros H. apply orb_prop in H. destruct H as [H|H].
    + exists "", (String c s). auto.
    + destruct (IH H) as (pre & t & -> & Ht). exists (String c pre), t. auto.
Qed.

Lemma lit_ci_app (w s : string) (d : string) :
  lower d = lower w -> lit_ci w (d ++ s) = Some s.
Proof.
  revert d. induction w as [|a w IH]; intros [|b d]; simpl; try discriminate.
  - reflexivity.
  - intros H. injection H as Hc Hd. rewrite <- Hc, Ascii.eqb_refl. now apply IH.
Qed.

Lemma lit_ci_inv (w s r : string) :
  lit_ci w s = Some r -> exists d, s = d ++ r /\ lower d = lower w.
Proof.
  revert s. induction w as [|a w IH]; intros s; simpl.
  - intros [= ->]. exists "". auto.
  - destruct s as [|b s]; [discriminate|].
    destruct (Ascii.eqb (lower_char a) (lower_char b)) eqn:E; [|discriminate].
    apply Ascii.eqb_eq in E. intros H. destruct (IH _ H) as (d & -> & Hd).
    exists (String b d). split; [reflexivity|].
    unfold lower in *. simpl. now rewrite Hd, E.
Qed.

Lemma lit_app (w s : string) : lit w (w ++ s) = Some s.
Proof.
  induction w as [|a w IH]; simpl; [reflexivity|].
  now rewrite Ascii.eqb_refl.
Qed.

Lemma lit_inv (w s r : string) : lit w s = Some r -> s = w ++ r.
Proof.
  revert s. induction w as [|a w IH]; intros s; simpl.
  - now intros [= ->].
  - destruct s as [|b s]; [discriminate|].
    destruct (Ascii.eqb a b) eqn:E; [|discriminate].
    apply Ascii.eqb_eq in E. subst b. intros H. now rewrite (IH _ H).
Qed.

(** [w] is blank and [s] does not start with a blank. *)
Definition starts_solid (s : string) : Prop :=
  match s with
  | EmptyString => True
  | String c _ => is_space c = false
  end.

Lemma spaces_app (w s : string) :
  all_chars is_space w = true -> starts_solid s -> spaces (w ++ s) = Some s.
Proof.
  intros Hw Hs. induction w as [|c w IH]; simpl in *.
  - destruct s as [|c s]; [reflexivity|]. simpl in Hs |- *. now rewrite Hs.
  - apply andb_prop in Hw. destruct Hw as [Hc Hw]. rewrite Hc. auto.
Qed.

Lemma spaces_inv (s r : string) :
  spaces s = Some r ->
  exists w, s = w ++ r /\ all_chars is_space w = true /\ starts_solid r.
Proof.
  induction s as [|c s IH]; simpl.
  - intros [= <-]. exists "". simpl. auto.
  - destruct (is_space c) eqn:E.
    + intros H. destruct (IH H) as (w & -> & Hw & Hr).
      exists (String c w). simpl. rewrite E, Hw. auto.
    + intros [= <-]. exists "". simpl. auto.
Qed.

End Regex.

(* ================================================================== *)
(** ** Agent 3C: [validate_generated_code] *)
(* ================================================================== *)

Module Validator.
Import PyStr.
Import Regex.

(** [pre_check_details] *)
Record PreCheckDetails := {
  signature_found : bool;
  has_sql_config : bool;
  has_blob_config : bool;
  syntax_errors : bool;
  sql_types_in_cast : list string
}.

(** A raised exception: the name of its type and its message. *)
Record Exn := { exn_type : string; exn_msg : string }.

(** The dictionary returned by the validator, read through [.get]:
    [is_valid] is the truth value of the entry; [issues_fault] is what
    [len(issues)] and [issues[:5]] raise when the entry ['issues'] is not
    a list, which only an answer of the model can cause, and [None] when
    it is one; [validation_details] is [None] for the empty dictionary,
    and otherwise determined by the [pre_check_details] it is built
    from. *)
Record Verdict := {
  is_valid : bool;
  issues : list string;
  issues_fault : option Exn;
  feedback : string;
  validation_details : option PreCheckDetails
}.

(** The validator returns a dictionary, or whatever other JSON value the
    model answered, of which only the name of the type matters. *)
Inductive Returned :=
| ReturnsDict (v : Verdict)
| ReturnsOther (type_name : string).

(** [compile(generated_code, '<string>', 'exec')] *)
Inductive Compiled :=
| CompileOk
| CompileSyntaxError (msg : string)
| CompileRaises (msg : string).

Definition quote_char (c : ascii) : bool :=
  Ascii.eqb c "'"%char || Ascii.eqb c (ascii_of_nat 34).

(** [derive\s*\(\s*\)\s*~>] *)
Definition empty_derive_pattern : Matcher :=
  seq (lit_ci "derive")
 (seq spaces (seq (lit "(") (seq spaces (seq (lit ")") (seq spaces (lit "~>")))))).

(** [Transformation\(name=] a quote [Load\w+] a quote [\)] *)
Definition load_in_transformations_pattern : Matcher :=
  seq (lit_ci "Transformation(name=")
 (seq (one_of quote_char)
 (seq (lit_ci "Load")
 (seq (fun s => option_map snd (word_plus s))
 (seq (one_of quote_char) (lit ")"))))).

Definition missing_sql_config : string :=
  "The 'deploy_complete_solution' method is missing required parameter: 'sql_config'".
Definition missing_blob_config : string :=
  "The 'deploy_complete_solution' method is missing required parameter: 'blob_config'".
Definition missing_deploy : string :=
  "The 'deploy_complete_solution' method definition was not found in the generated code".
Definition sql_type_issue (sql_type : string) : string :=
  "SQL type '" ++ sql_type
  ++ "' found in cast operation - ADF only supports: string, integer, long, double, decimal, boolean, timestamp, date".
Definition syntax_issue (msg : string) : string :=
  "Python syntax error: " ++ msg.
Definition empty_derive_issue : string :=
  "Empty derive() transformation found - derive() must have expressions or be removed. This causes 'missing input stream' error in ADF.".
Definition load_issue : string :=
  "Load* name found in transformations array - Load* names are sinks, not transformations. This causes 'missing input stream' error in ADF.".

Definition skipped_verdict : Verdict :=
  {| is_valid := true; issues := []; issues_fault := None;
     feedback := "Validation skipped - OpenAI client not available";
     validation_details := None |}.

Definition empty_code_verdict : Verdict :=
  {| is_valid := false; issues := ["Generated code is empty"];
     issues_fault := None;
     feedback := "The generated code is empty. Please regenerate the code.";
     validation_details := None |}.

Definition error_verdict (msg : string) : Verdict :=
  {| is_valid := false; issues := ["Validation error: " ++ msg];
     issues_fault := None;
     feedback := "Validation agent encountered an error: " ++ msg
                 ++ ". Please review the code manually.";
     validation_details := None |}.

(** The types recorded by the loops over the matches: each one once, in
    the order of its first match. *)
Definition record_type (types : list string) (sql_type : string)
    : list string :=
  if mem sql_type types then types else (types ++ [sql_type])%list.

Section Checks.

(** The client, and what the validator obtains from the outside:
    - [find_deploy_signature code]: the text matched by
      [def\s+deploy_complete_solution\s*\([^)]*\)], if any;
    - [has_parameter name signature]: whether [\bname\b] is found in the
      signature;
    - [cast_sql_types code]: the first group of every match of the two
      patterns for SQL types in casts, in the order of the loops;
    - [py_compile code]: the outcome of [compile];
    - [ai_validation client context code]: what the validation by the
      model returns once the pre-checks have passed, its own handling of
      errors included; [context] stands for the other arguments of the
      validator, which only the prompt reads. *)
Variable Client : Type.
Variable Context : Type.
Variable find_deploy_signature : string -> option string.
Variable has_parameter : string -> string -> bool.
Variable cast_sql_types : string -> list string.
Variable py_compile : string -> Compiled.
Variable ai_validation : Client -> Context -> string -> Returned.

Definition signature_issues (code : string) : list string :=
  match find_deploy_signature code with
  | Some method_signature =>
      ((if has_parameter "sql_config" method_signature then []
        else [missing_sql_config])
       ++ (if has_parameter "blob_config" method_signature then []
           else [missing_blob_config]))%list
  | None => [missing_deploy]
  end.

Definition found_sql_types (code : string) : list string :=
  fold_left record_type (cast_sql_types code) [].

Definition syntax_issues (c : Compiled) : list string :=
  match c with
  | CompileSyntaxError msg => [syntax_issue msg]
  | _ => []
  end.

Definition empty_derive_issues (code : string) : list string :=
  if search empty_derive_pattern code then [empty_derive_issue] else [].

Definition load_issues (code : string) : list string :=
  if search load_in_transformations_pattern code then [load_issue] else [].

Definition pre_check_issues (code : string) : list string :=
  (signature_issues code
   ++ map sql_type_issue (found_sql_types code)
   ++ syntax_issues (py_compile code)
   ++ empty_derive_issues code
   ++ load_issues code)%list.

Definition pre_check_details (code : string) : PreCheckDetails :=
  let sig := find_deploy_signature code in
  {| signature_found := is_some sig;
     has_sql_config :=
       match sig with Some s => has_parameter "sql_config" s | None => false end;
     has_blob_config :=
       match sig with Some s => has_parameter "blob_config" s | None => false end;
     syntax_errors :=
       match py_compile code with CompileSyntaxError _ => true | _ => false end;
     sql_types_in_cast := found_sql_types code |}.

Definition pre_check_feedback (found : list string) : string :=
  "Pre-validation checks failed:" ++ TransformScript.nl
  ++ join TransformScript.nl (map (fun issue => "  - " ++ issue) found).

Definition validate_generated_code (client : option Client)
    (context : Context) (generated_code : string) : Returned :=
  match client with
  | None => ReturnsDict skipped_verdict
  | Some c =>
      if String.eqb generated_code "" || strip_is_empty generated_code
      then ReturnsDict empty_code_verdict
      else
        match py_compile generated_code with
        | CompileRaises msg => ReturnsDict (error_verdict msg)
        | _ =>
            let found := pre_check_issues generated_code in
            if SchemaFallback.is_empty found
            then ai_validation c context generated_code
            else ReturnsDict
                   {| is_valid := false;
                      issues := found;
                      issues_fault := None;
                      feedback := pre_check_feedback found;
                      validation_details :=
                        Some (pre_check_details generated_code) |}
        end
  end.

End Checks.

(** *** The constructs in the words of the specification *)

Definition blank (w : string) : Prop := all_chars is_space w = true.

(** A [derive], in any letter case, applied to nothing and chained by
    [~>], blanks allowed between the tokens. *)
Definition has_empty_derive (code : string) : Prop :=
  exists pre d w1 w2 w3 post,
    code = pre ++ d ++ w1 ++ "(" ++ w2 ++ ")" ++ w3 ++ "~>" ++ post
    /\ lower d = "derive" /\ blank w1 /\ blank w2 /\ blank w3.

(** A [Transformation(name=...)] whose quoted name is [Load] followed by
    at least one word character. *)
Definition lists_load_transformation (code : string) : Prop :=
  exists pre t q1 l w q2 post,
    code = pre ++ t ++ String q1 (l ++ w ++ String q2 (")" ++ post))
    /\ lower t = "transformation(name=" /\ lower l = "load"
    /\ quote_char q1 = true /\ quote_char q2 = true
    /\ w <> "" /\ all_chars is_word w = true.


(** *** The patterns find the constructs *)

Lemma append_assoc (a b c : string) : (a ++ b) ++ c = a ++ b ++ c.
Proof. induction a as [|x a IH]; simpl; [reflexivity | now rewrite IH]. Qed.

Lemma empty_derive_found (code : string) :
  has_empty_derive code -> search empty_derive_pattern code = true.
Proof.
  intros (pre & d & w1 & w2 & w3 & post & -> & Hd & H1 & H2 & H3).
  apply search_at. unfold empty_derive_pattern, seq.
  rewrite lit_ci_app by exact Hd.
  rewrite spaces_app; [|exact H1|reflexivity].
  change ("(" ++ w2 ++ ")" ++ w3 ++ "~>" ++ post)
    with ("(" ++ (w2 ++ ")" ++ w3 ++ "~>" ++ post)).
  rewrite lit_app. rewrite spaces_app; [|exact H2|reflexivity].
  change (")" ++ w3 ++ "~>" ++ post) with (")" ++ (w3 ++ "~>" ++ post)).
  rewrite lit_app. rewrite spaces_app; [|exact H3|reflexivity].
  rewrite lit_app. reflexivity.
Qed.

Lemma empty_derive_found_inv (code : string) :
  search empty_derive_pattern code = true -> has_empty_derive code.
Proof.
  intros H. apply search_inv in H. destruct H as (pre & t & -> & Ht).
  unfold empty_derive_pattern, seq in Ht.
  destruct (lit_ci "derive" t) as [r1|] eqn:E1; [|discriminate].
  destruct (spaces r1) as [r2|] eqn:E2; [|discriminate].
  destruct (lit "(" r2) as [r3|] eqn:E3; [|discriminate].
  destruct (spaces r3) as [r4|] eqn:E4; [|discriminate].
  destruct (lit ")" r4) as [r5|] eqn:E5; [|discriminate].
  destruct (spaces r5) as [r6|] eqn:E6; [|discriminate].
  destruct (lit "~>" r6) as [r7|] eqn:E7; [|discriminate].
  apply lit_ci_inv in E1. destruct E1 as (d & -> & Hd).
  apply spaces_inv in E2. destruct E2 as (w1 & -> & H1 & _).
  apply lit_inv in E3. subst r2.
  apply spaces_inv in E4. destruct E4 as (w2 & -> & H2 & _).
  apply lit_inv in E5. subst r4.
  apply spaces_inv in E6. destruct E6 as (w3 & -> & H3 & _).
  apply lit_inv in E7. subst r6.
  exists pre, d, w1, w2, w3, r7. repeat split; auto.
Qed.

Lemma span_word (w rest : string) (q : ascii) :
  all_chars is_word w = true -> is_word q = false ->
  span is_word (w ++ String q rest) = (w, String q rest).
Proof.
  intros Hw Hq. induction w as [|c w IH]; simpl in *.
  - now rewrite Hq.
  - apply andb_prop in Hw. destruct Hw as [Hc Hw]. rewrite Hc, IH; auto.
Qed.

Lemma quote_not_word (q : ascii) : quote_char q = true -> is_word q = false.
Proof.
  unfold quote_char. intros H. apply orb_prop in H.
  destruct H as [H|H]; apply Ascii.eqb_eq in H; subst q; reflexivity.
Qed.

Lemma load_transformation_found (code : string) :
  lists_load_transformation code ->
  search load_in_transformations_pattern code = true.
Proof.
  intros (pre & t & q1 & l & w & q2 & post & -> & Ht & Hl & Hq1 & Hq2 & Hw & Hword).
  apply search_at. unfold load_in_transformations_pattern, seq.
  rewrite lit_ci_app by exact Ht. unfold one_of at 1. rewrite Hq1.
  rewrite lit_ci_app by exact Hl.
  unfold word_plus. rewrite span_word; [|exact Hword|now apply quote_not_word].
  destruct w as [|c w]; [contradiction|]. cbn [option_map snd].
  unfold one_of. rewrite Hq2. rewrite lit_app. reflexivity.
Qed.

(** A string that holds a match of a pattern starting with a letter is
    not blank. *)
Lemma search_lit_ci_not_blank (a : ascii) (w : string) (m : Matcher)
    (code : string) :
  (forall c, lower_char a = lower_char c -> is_space c = false) ->
  search (seq (lit_ci (String a w)) m) code = true ->
  strip_is_empty code = false.
Proof.
  intros Hsolid H. apply search_inv in H. destruct H as (pre & t & -> & Ht).
  unfold seq in Ht. destruct t as [|c t]; [discriminate Ht|].
  simpl in Ht. destruct (Ascii.eqb (lower_char a) (lower_char c)) eqn:E;
    [|discriminate Ht].
  apply Ascii.eqb_eq in E. apply Hsolid in E. clear Ht.
  unfold strip_is_empty. induction pre as [|x pre IH]; simpl.
  - now rewrite E.
  - rewrite IH. apply andb_false_r.
Qed.

Lemma lower_char_solid (a c : ascii) :
  is_lower a = true -> lower_char a = lower_char c -> is_space c = false.
Proof.
  intros Ha H.
  assert (Hl : lower_char a = a).
  { unfold lower_char. destruct (is_upper a) eqn:E; [|reflexivity].
    unfold is_upper, is_lower in *.
    apply andb_prop in E, Ha. destruct E, Ha.
    apply Nat.leb_le in H0, H1, H2, H3. lia. }
  rewrite Hl in H. subst a. unfold lower_char in Ha.
  destruct (is_upper c) eqn:E.
  - unfold is_upper in E. apply andb_prop in E. destruct E as [E1 E2].
    apply Nat.leb_le in E1, E2. unfold is_space.
    destruct (Nat.leb_spec 9 (code c)), (Nat.leb_spec (code c) 13),
      (Nat.leb_spec 28 (code c)), (Nat.leb_spec (code c) 31),
      (Nat.eqb_spec (code c) 32); simpl; try reflexivity; lia.
  - unfold is_lower in Ha. apply andb_prop in Ha. destruct Ha as [E1 E2].
    apply Nat.leb_le in E1, E2. unfold is_space.
    destruct (Nat.leb_spec 9 (code c)), (Nat.leb_spec (code c) 13),
      (Nat.leb_spec 28 (code c)), (Nat.leb_spec (code c) 31),
      (Nat.eqb_spec (code c) 32); simpl; try reflexivity; lia.
Qed.


Lemma load_not_blank (code : string) :
  search load_in_transformations_pattern code = true ->
  (String.eqb code "" || strip_is_empty code) = false.
Proof.
  intros H.
  assert (Hs : strip_is_empty code = false).
  { unfold load_in_transformations_pattern in H.
    eapply search_lit_ci_not_blank; [|exact H].
    intros c Hc. apply (lower_char_solid "t"%char); [reflexivity | exact Hc]. }
  rewrite Hs, orb_false_r. destruct code; [discriminate Hs | reflexivity].
Qed.


(** *** What the pre-checks report *)

Section CheckFacts.
Variable Client : Type.
Variable Context : Type.
Variable find_deploy_signature : string -> option string.
Variable has_parameter : string -> string -> bool.
Variable cast_sql_types : string -> list string.
Variable py_compile : string -> Compiled.
Variable ai_validation : Client -> Context -> string -> Returned.

Let issues_of :=
  pre_check_issues find_deploy_signature has_parameter cast_sql_types py_compile.
Let validate :=
  validate_generated_code Client Context find_deploy_signature has_parameter
    cast_sql_types py_compile ai_validation.

(** The messages of the signature, cast and syntax checks start with
    [T], [S] and [P]. *)
Definition other_issue (x : string) : Prop :=
  x <> empty_derive_issue /\ x <> load_issue.

Lemma signature_issues_other (code : string) :
  Forall other_issue
    (signature_issues find_deploy_signature has_parameter code).
Proof.
  unfold signature_issues. destruct (find_deploy_signature code) as [sig|].
  - apply Forall_app. split.
    + destruct (has_parameter "sql_config" sig); repeat constructor; discriminate.
    + destruct (has_parameter "blob_config" sig); repeat constructor; discriminate.
  - repeat constructor; discriminate.
Qed.

Lemma sql_issues_other (l : list string) :
  Forall other_issue (map sql_type_issue l).
Proof.
  induction l as [|t l IH]; simpl; constructor; [|exact IH].
  split; discriminate.
Qed.

Lemma syntax_issues_other (c : Compiled) : Forall other_issue (syntax_issues c).
Proof. destruct c; repeat constructor; discriminate. Qed.

Lemma count_occ_other (l : list string) (x : string) :
  Forall (fun y => y <> x) l -> count_occ string_dec l x = 0.
Proof.
  intros H. apply count_occ_not_In. intros Hin.
  rewrite Forall_forall in H. exact (H _ Hin eq_refl).
Qed.


Lemma count_load (code : string) :
  count_occ string_dec (issues_of code) load_issue
  = if search load_in_transformations_pattern code then 1 else 0.
Proof.
  unfold issues_of, pre_check_issues. rewrite !count_occ_app.
  rewrite (count_occ_other (signature_issues _ _ code)),
    (count_occ_other (map _ _)), (count_occ_other (syntax_issues _)).
  - unfold empty_derive_issues, load_issues.
    destruct (search empty_derive_pattern code),
      (search load_in_transformations_pattern code); reflexivity.
  - eapply Forall_impl; [|apply syntax_issues_other]. intros y [_ H]. exact H.
  - eapply Forall_impl; [|apply sql_issues_other]. intros y [_ H]. exact H.
  - eapply Forall_impl; [|apply signature_issues_other]. intros y [_ H]. exact H.
Qed.

(** With a client, code that is not blank and that [compile] does not
    fail on other than by a syntax error, a reported issue makes the
    validator return the issues of the pre-checks. *)
Lemma validate_pre_checks (c : Client) (context : Context) (code x : string) :
  (String.eqb code "" || strip_is_empty code) = false ->
  (forall msg, py_compile code <> CompileRaises msg) ->
  In x (issues_of code) ->
  exists v, validate (Some c) context code = ReturnsDict v
            /\ is_valid v = false /\ issues v = issues_of code.
Proof.
  intros Hblank Hcomp Hin. unfold validate, validate_generated_code.
  rewrite Hblank. fold issues_of.
  destruct (issues_of code) as [|y l] eqn:E; [destruct Hin|].
  cbn [SchemaFallback.is_empty].
  destruct (py_compile code) as [|msg|msg] eqn:Ec;
    try (eexists; repeat split; reflexivity).
  exfalso. exact (Hcomp msg eq_refl).
Qed.

End CheckFacts.


(** *** The list of issues *)

Lemma record_type_nonempty (types : list string) (t : string) :
  record_type types t <> [].
Proof.
  unfold record_type. destruct (mem t types) eqn:E.
  - destruct types; [discriminate E | discriminate].
  - destruct types; discriminate.
Qed.

Lemma fold_record_nonempty (l types : list string) :
  types <> [] -> fold_left record_type l types <> [].
Proof.
  revert types. induction l as [|t l IH]; intros types H; [exact H|].
  cbn [fold_left]. apply IH, record_type_nonempty.
Qed.

Lemma fold_record_nil (l : list string) :
  fold_left record_type l [] = [] -> l = [].
Proof.
  destruct l as [|t l]; [reflexivity|]. cbn [fold_left]. intros H.
  now apply fold_record_nonempty in H; [|apply record_type_nonempty].
Qed.

Lemma fold_record_NoDup (l types : list string) :
  NoDup types -> NoDup (fold_left record_type l types).
Proof.
  revert types. induction l as [|t l IH]; intros types H; [exact H|].
  cbn [fold_left]. apply IH. unfold record_type.
  destruct (mem t types) eqn:E; [exact H|].
  apply mem_false_In in E. apply NoDup_app; [exact H | |].
  - constructor; [intros []|constructor].
  - intros a Ha [<-|[]]. contradiction.
Qed.

Lemma fold_record_In (l types : list string) (x : string) :
  In x (fold_left record_type l types) <-> In x types \/ In x l.
Proof.
  revert types. induction l as [|t l IH]; intros types.
  - cbn. tauto.
  - cbn [fold_left]. rewrite IH. unfold record_type.
    destruct (mem t types) eqn:E.
    + apply mem_In in E. cbn. split; [tauto|].
      intros [H|[<-|H]]; auto.
    + rewrite in_app_iff. cbn. tauto.
Qed.

Lemma sql_type_issue_inj (a b : string) :
  sql_type_issue a = sql_type_issue b -> a = b.
Proof.
  unfold sql_type_issue. intros H.
  assert (Hlen : String.length a = String.length b).
  { apply (f_equal String.length) in H.
    rewrite !TransformScript.length_append in H. simpl in H. lia. }
  simpl in H. repeat (injection H as H).
  eapply TransformScript.append_inj_same_length; eassumption.
Qed.

(** The first character of a message tells which check wrote it. *)
Definition head_char (s : string) : option ascii :=
  match s with
  | EmptyString => None
  | String c _ => Some c
  end.

Section IssueList.
Variable find_deploy_signature : string -> option string.
Variable has_parameter : string -> string -> bool.
Variable cast_sql_types : string -> list string.
Variable py_compile : string -> Compiled.

Lemma signature_issues_head (code x : string) :
  In x (signature_issues find_deploy_signature has_parameter code) ->
  head_char x = Some "T"%char.
Proof.
  unfold signature_issues. destruct (find_deploy_signature code) as [sig|].
  - rewrite in_app_iff.
    destruct (has_parameter "sql_config" sig),
      (has_parameter "blob_config" sig); cbn;
      intros H; repeat (destruct H as [H|H]); subst; try reflexivity;
      contradiction.
  - intros [<-|[]]. reflexivity.
Qed.

Lemma signature_issues_NoDup (code : string) :
  NoDup (signature_issues find_deploy_signature has_parameter code).
Proof.
  unfold signature_issues. destruct (find_deploy_signature code) as [sig|].
  - destruct (has_parameter "sql_config" sig),
      (has_parameter "blob_config" sig); cbn; repeat constructor;
      cbn; try tauto.
    intros [H|[]]. discriminate H.
  - repeat constructor. intros [].
Qed.

Lemma pre_check_issues_NoDup (code : string) :
  NoDup (pre_check_issues find_deploy_signature has_parameter cast_sql_types
                          py_compile code).
Proof.
  unfold pre_check_issues.
  assert (Hsql : forall x, In x (map sql_type_issue
                                  (found_sql_types cast_sql_types code)) ->
                           head_char x = Some "S"%char).
  { intros x Hx. apply in_map_iff in Hx. destruct Hx as (t & <- & _).
    reflexivity. }
  assert (Hsyn : forall x, In x (syntax_issues (py_compile code)) ->
                           head_char x = Some "P"%char).
  { intros x Hx. destruct (py_compile code); cbn in Hx;
      [destruct Hx | destruct Hx as [<-|[]]; reflexivity | destruct Hx]. }
  assert (Hder : forall x, In x (empty_derive_issues code) ->
                           head_char x = Some "E"%char).
  { intros x Hx. unfold empty_derive_issues in Hx.
    destruct (search empty_derive_pattern code);
      [destruct Hx as [<-|[]]; reflexivity | destruct Hx]. }
  assert (Hload : forall x, In x (load_issues code) ->
                            head_char x = Some "L"%char).
  { intros x Hx. unfold load_issues in Hx.
    destruct (search load_in_transformations_pattern code);
      [destruct Hx as [<-|[]]; reflexivity | destruct Hx]. }
  apply NoDup_app; [apply signature_issues_NoDup | |].
  2:{ intros x Hx Hx'. apply signature_issues_head in Hx.
      rewrite !in_app_iff in Hx'.
      destruct Hx' as [H|[H|[H|H]]];
        [apply Hsql in H | apply Hsyn in H | apply Hder in H
        | apply Hload in H]; congruence. }
  apply NoDup_app.
  { apply TransformScript.NoDup_map_inj; [exact sql_type_issue_inj|].
    unfold found_sql_types. apply fold_record_NoDup. constructor. }
  2:{ intros x Hx Hx'. apply Hsql in Hx. rewrite !in_app_iff in Hx'.
      destruct Hx' as [H|[H|H]];
        [apply Hsyn in H | apply Hder in H | apply Hload in H]; congruence. }
  apply NoDup_app.
  { destruct (py_compile code); cbn; repeat constructor; intros []. }
  2:{ intros x Hx Hx'. apply Hsyn in Hx. rewrite !in_app_iff in Hx'.
      destruct Hx' as [H|H]; [apply Hder in H | apply Hload in H]; congruence. }
  apply NoDup_app.
  - unfold empty_derive_issues.
    destruct (search empty_derive_pattern code); repeat constructor.
    intros [].
  - unfold load_issues.
    destruct (search load_in_transformations_pattern code);
      repeat constructor. intros [].
  - intros x Hx Hx'. apply Hder in Hx. apply Hload in Hx'. congruence.
Qed.

(** Without an issue every check has passed. *)
Lemma pre_check_issues_nil (code : string) :
  pre_check_issues find_deploy_signature has_parameter cast_sql_types
                   py_compile code = [] ->
  (exists sig, find_deploy_signature code = Some sig
               /\ has_parameter "sql_config" sig = true
               /\ has_parameter "blob_config" sig = true)
  /\ cast_sql_types code = []
  /\ (forall msg, py_compile code <> CompileSyntaxError msg)
  /\ search empty_derive_pattern code = false
  /\ search load_in_transformations_pattern code = false.
Proof.
  unfold pre_check_issues. intros H.
  apply app_eq_nil in H. destruct H as [H1 H].
  apply app_eq_nil in H. destruct H as [H2 H].
  apply app_eq_nil in H. destruct H as [H3 H].
  apply app_eq_nil in H. destruct H as [H4 H5].
  split; [|split; [|split; [|split]]].
  - unfold signature_issues in H1.
    destruct (find_deploy_signature code) as [sig|]; [|discriminate H1].
    exists sig. split; [reflexivity|].
    destruct (has_parameter "sql_config" sig); [|discriminate H1].
    destruct (has_parameter "blob_config" sig); [|discriminate H1].
    now split.
  - apply map_eq_nil in H2. now apply fold_record_nil.
  - intros msg E. rewrite E in H3. discriminate H3.
  - unfold empty_derive_issues in H4.
    destruct (search empty_derive_pattern code); [discriminate H4|reflexivity].
  - unfold load_issues in H5.
    destruct (search load_in_transformations_pattern code);
      [discriminate H5|reflexivity].
Qed.

End IssueList.

End Validator.

(* ================================================================== *)
(** ** [_extract_transformations_from_script] *)
(* ================================================================== *)

Module Extract.
Import PyStr.
Import Regex.

(** [~\s*>\s*(\w+)] at the head of a string: the group and what follows
    the match. *)
Definition arrow_pattern (s : string) : option (string * string) :=
  match seq (lit "~") (seq spaces (seq (lit ">") spaces)) s with
  | Some r => word_plus r
  | None => None
  end.

(** [re.findall] for a pattern with one group: the matches are sought
    from the left and do not overlap; [skip] counts the characters of the
    last match that are still to be passed. *)
Fixpoint findall_go (m : string -> option (string * string)) (skip : nat)
    (s : string) : list string :=
  match s with
  | EmptyString => []
  | String _ s' =>
      match skip with
      | S k => findall_go m k s'
      | O =>
          match m s with
          | Some (group, rest) =>
              group :: findall_go m (String.length s' - String.length rest) s'
          | None => findall_go m 0 s'
          end
      end
  end.

Definition findall (m : string -> option (string * string)) (s : string)
    : list string :=
  findall_go m 0 s.

Definition exclude_patterns : list string :=
  ["SourceCSV"; "StagingSink"; "StagingSource"].

(** The body of the loop over the matches. *)
Definition keep_match (transformations : list string) (m : string)
    : list string :=
  if negb (startswith m "Load") && negb (mem m exclude_patterns)
  then if negb (mem m transformations)
       then (transformations ++ [m])%list
       else transformations
  else transformations.

Definition _extract_transformations_from_script (transform_script : string)
    : list string :=
  fold_left keep_match (findall arrow_pattern transform_script) [].

Lemma keep_match_ok (acc : list string) (m : string) :
  NoDup acc
  /\ Forall (fun t => startswith t "Load" = false /\ ~ In t exclude_patterns) acc ->
  NoDup (keep_match acc m)
  /\ Forall (fun t => startswith t "Load" = false /\ ~ In t exclude_patterns)
            (keep_match acc m).
Proof.
  intros [Hnd Hall]. unfold keep_match.
  destruct (startswith m "Load") eqn:El; cbn [negb andb]; [auto|].
  destruct (mem m exclude_patterns) eqn:Ee; cbn [negb]; [auto|].
  destruct (mem m acc) eqn:Ea; cbn [negb]; [auto|].
  apply mem_false_In in Ee, Ea. split.
  - apply NoDup_app; [assumption | repeat constructor; intros [] |].
    intros x Hx [<-|[]]. contradiction.
  - apply Forall_app. split; [assumption|]. repeat constructor; assumption.
Qed.

Lemma extracted_names_ok (script : string) :
  NoDup (_extract_transformations_from_script script)
  /\ Forall (fun t => startswith t "Load" = false /\ ~ In t exclude_patterns)
            (_extract_transformations_from_script script).
Proof.
  unfold _extract_transformations_from_script.
  apply (fold_left_invariant keep_match
           (fun acc => NoDup acc
                       /\ Forall (fun t => startswith t "Load" = false
                                           /\ ~ In t exclude_patterns) acc)).
  - split; constructor.
  - intros acc m _ H. now apply keep_match_ok.
Qed.

Lemma startswith_append (p s : string) : startswith (p ++ s) p = true.
Proof.
  unfold startswith. induction p as [|c p IH]; simpl; [reflexivity|].
  now rewrite Ascii.eqb_refl.
Qed.

(** *** The list written by [_generate_transform_dataflow_method_code] *)

(** The class of letters and underscore. *)
Definition is_ident_start (c : ascii) : bool := is_cased c || (code c =? 95).

(** The pattern of that function: [~>], blanks, and as group an
    identifier, a letter or underscore followed by word characters. *)
Definition method_arrow_pattern (s : string) : option (string * string) :=
  match seq (lit "~>") spaces s with
  | Some (String c r) =>
      if is_ident_start c
      then let (w, rest) := span is_word r in Some (String c w, rest)
      else None
  | _ => None
  end.

(** The loop that fills [unique_transformations]. *)
Definition keep_unique (unique : list string) (trans : string) : list string :=
  if negb (mem trans unique) && negb (String.eqb trans "StagingSource")
  then (unique ++ [trans])%list
  else unique.

Definition unique_transformations (transform_script : string) : list string :=
  fold_left keep_unique (findall method_arrow_pattern transform_script) [].

(** The lines appended to [transformations_code], before the last comma
    and line feed are stripped. *)
Definition transformation_lines (transform_script : string) : list string :=
  map (fun trans_name =>
         "            Transformation(name='" ++ trans_name ++ "'),"
         ++ TransformScript.nl)
      (unique_transformations transform_script).

End Extract.

(* ================================================================== *)
(** ** Reading the names back from the generated script *)
(* ================================================================== *)

Module ScriptText.
Import PyStr.
Import Regex.
Import SchemaFallback.
Import TransformScript.
Import Extract.

(** *** Texts without a tilde, and names *)

Definition no_tilde (s : string) : bool :=
  all_chars (fun c => negb (Ascii.eqb c "~")) s.

(** An identifier: a letter or underscore, then word characters. *)
Definition is_ident (n : string) : bool :=
  match n with
  | EmptyString => false
  | String c w => is_ident_start c && all_chars is_word w
  end.

(** A name that is a word, not empty. *)
Definition is_table_name (t : string) : bool :=
  negb (String.eqb t "") && all_chars is_word t.

(** What may follow a name: nothing, or a character that is not a word
    character. *)
Definition ends_name (rest : string) : Prop :=
  match rest with
  | EmptyString => True
  | String c _ => is_word c = false
  end.

Lemma all_chars_app (p : ascii -> bool) (a b : string) :
  all_chars p (a ++ b) = all_chars p a && all_chars p b.
Proof.
  induction a as [|c a IH]; simpl; [reflexivity|].
  now rewrite IH, andb_assoc.
Qed.

Lemma no_tilde_app (a b : string) :
  no_tilde (a ++ b) = no_tilde a && no_tilde b.
Proof. apply all_chars_app. Qed.

Lemma ident_start_word (c : ascii) : is_ident_start c = true -> is_word c = true.
Proof.
  unfold is_ident_start, is_word. intros H. apply orb_prop in H.
  destruct H as [H|H]; rewrite H; [reflexivity | apply orb_true_r].
Qed.

Lemma word_not_tilde (c : ascii) :
  is_word c = true -> negb (Ascii.eqb c "~") = true.
Proof.
  destruct (Ascii.eqb_spec c "~") as [->|_]; [discriminate | reflexivity].
Qed.

Lemma word_not_space (c : ascii) : is_word c = true -> is_space c = false.
Proof.
  destruct c as [[] [] [] [] [] [] [] []]; try reflexivity; discriminate.
Qed.

Lemma word_no_tilde (w : string) : all_chars is_word w = true -> no_tilde w = true.
Proof.
  unfold no_tilde. induction w as [|c w IH]; simpl; [reflexivity|].
  intros H. apply andb_prop in H. destruct H as [Hc Hw].
  now rewrite (word_not_tilde _ Hc), IH.
Qed.

Lemma table_name_word (t : string) :
  is_table_name t = true -> t <> "" /\ all_chars is_word t = true.
Proof.
  unfold is_table_name. intros H. apply andb_prop in H. destruct H as [H1 H2].
  split; [|exact H2]. apply negb_true_iff in H1. now apply String.eqb_neq.
Qed.

Lemma span_word_ends (w rest : string) :
  all_chars is_word w = true -> ends_name rest ->
  span is_word (w ++ rest) = (w, rest).
Proof.
  intros Hw Hr. induction w as [|c w IH]; simpl in *.
  - destruct rest as [|q rest]; [reflexivity|]. simpl in Hr |- *.
    now rewrite Hr.
  - apply andb_prop in Hw. destruct Hw as [Hc Hw]. rewrite Hc, IH; auto.
Qed.

Lemma append_nil_r (s : string) : s ++ "" = s.
Proof. induction s as [|c s IH]; simpl; [reflexivity | now rewrite IH]. Qed.

(** *** The two patterns at an arrow *)

Lemma arrow_pattern_none (c : ascii) (s : string) :
  negb (Ascii.eqb c "~") = true -> arrow_pattern (String c s) = None.
Proof.
  intros H. apply negb_true_iff in H. unfold arrow_pattern, seq. cbn [lit].
  rewrite Ascii.eqb_sym in H. now rewrite H.
Qed.

Lemma method_arrow_pattern_none (c : ascii) (s : string) :
  negb (Ascii.eqb c "~") = true -> method_arrow_pattern (String c s) = None.
Proof.
  intros H. apply negb_true_iff in H. unfold method_arrow_pattern, seq.
  cbn [lit]. rewrite Ascii.eqb_sym in H. now rewrite H.
Qed.

Lemma arrow_pattern_hit (name rest : string) :
  is_ident name = true -> ends_name rest ->
  arrow_pattern ("~> " ++ name ++ rest) = Some (name, rest).
Proof.
  intros Hn Hr. destruct name as [|c w]; [discriminate Hn|].
  simpl in Hn. apply andb_prop in Hn. destruct Hn as [Hc Hw].
  apply ident_start_word in Hc.
  unfold arrow_pattern, seq. simpl.
  rewrite (word_not_space _ Hc).
  unfold word_plus. simpl. rewrite Hc.
  now rewrite (span_word_ends w rest Hw Hr).
Qed.

Lemma method_arrow_pattern_hit (name rest : string) :
  is_ident name = true -> ends_name rest ->
  method_arrow_pattern ("~> " ++ name ++ rest) = Some (name, rest).
Proof.
  intros Hn Hr. destruct name as [|c w]; [discriminate Hn|].
  simpl in Hn. apply andb_prop in Hn. destruct Hn as [Hc Hw].
  unfold method_arrow_pattern, seq. simpl.
  rewrite (word_not_space _ (ident_start_word _ Hc)). rewrite Hc.
  now rewrite (span_word_ends w rest Hw Hr).
Qed.

(** *** [findall] over a text of bound names *)

Section Findall.
Variable m : string -> option (string * string).
Hypothesis m_none : forall c s,
  negb (Ascii.eqb c "~") = true -> m (String c s) = None.
Hypothesis m_hit : forall name rest,
  is_ident name = true -> ends_name rest ->
  m ("~> " ++ name ++ rest) = Some (name, rest).

Lemma findall_free (a rest : string) :
  no_tilde a = true ->
  findall_go m 0 (a ++ rest) = findall_go m 0 rest.
Proof.
  unfold no_tilde. induction a as [|c a IH]; simpl; [reflexivity|].
  intros H. apply andb_prop in H. destruct H as [Hc Ha].
  rewrite (m_none c (a ++ rest) Hc). auto.
Qed.

Lemma findall_skip (a rest : string) :
  findall_go m (String.length a) (a ++ rest) = findall_go m 0 rest.
Proof.
  induction a as [|c a IH]; simpl; [reflexivity | exact IH].
Qed.

Lemma findall_hit (name rest : string) :
  is_ident name = true -> ends_name rest ->
  findall_go m 0 ("~> " ++ name ++ rest) = name :: findall_go m 0 rest.
Proof.
  intros Hn Hr.
  change ("~> " ++ name ++ rest) with (String "~" ("> " ++ name ++ rest)).
  cbn [findall_go].
  change (String "~" ("> " ++ name ++ rest)) with ("~> " ++ name ++ rest).
  rewrite (m_hit name rest Hn Hr). f_equal.
  replace (String.length ("> " ++ name ++ rest) - String.length rest)
    with (String.length ("> " ++ name)).
  - change ("> " ++ name ++ rest) with (String ">" (String " " (name ++ rest))).
    change ("> " ++ name) with (String ">" (String " " name)).
    cbn [String.length findall_go].
    apply findall_skip.
  - cbn [String.append String.length]. rewrite !length_append. lia.
Qed.

(** A text made of bodies without a tilde, each followed by an arrow and
    a name, and joined by line feeds: the matches are the names. *)
Definition bound (item : string * string) : string :=
  fst item ++ "~> " ++ snd item.

Lemma findall_bound (items : list (string * string)) :
  Forall (fun item => no_tilde (fst item) = true
                      /\ is_ident (snd item) = true) items ->
  findall m (join nl (map bound items)) = map snd items.
Proof.
  unfold findall, join. induction items as [|[b n] items IH]; intros H.
  - reflexivity.
  - inversion H as [|? ? [Hb Hn] Hrest]; subst. cbn [fst snd] in *.
    destruct items as [|item items].
    + cbn [map String.concat]. unfold bound. cbn [fst snd].
      rewrite findall_free by exact Hb.
      rewrite <- (append_nil_r n) at 1.
      rewrite findall_hit; [reflexivity | exact Hn | exact I].
    + change (String.concat nl (map bound ((b, n) :: item :: items)))
        with (bound (b, n) ++ nl ++ String.concat nl (map bound (item :: items))).
      unfold bound at 1. cbn [fst snd].
      rewrite !Validator.append_assoc.
      rewrite findall_free by exact Hb.
      change ("~> " ++ n ++ nl ++ String.concat nl (map bound (item :: items)))
        with ("~> " ++ n ++ (nl ++ String.concat nl (map bound (item :: items)))).
      rewrite findall_hit; [|exact Hn|reflexivity].
      rewrite findall_free by reflexivity.
      cbn [map snd]. f_equal. exact (IH Hrest).
Qed.

End Findall.


(** *** The parts of the script *)

(** A part whose text is a body without a tilde, an arrow and the name
    the part binds, an identifier. *)
Definition readable (p : Part) : Prop :=
  exists b, text p = b ++ "~> " ++ target p
            /\ no_tilde b = true /\ is_ident (target p) = true.

Lemma ident_prefixed (k t : string) :
  is_ident k = true -> all_chars is_word t = true -> is_ident (k ++ t) = true.
Proof.
  destruct k as [|c k]; [discriminate|]. cbn [is_ident String.append].
  intros H Ht. apply andb_prop in H. destruct H as [Hc Hk].
  now rewrite Hc, all_chars_app, Hk, Ht.
Qed.

Lemma no_tilde_join (sep : string) (lines : list string) :
  no_tilde sep = true ->
  (forall l, In l lines -> no_tilde l = true) ->
  no_tilde (join sep lines) = true.
Proof.
  intros Hsep. unfold join. induction lines as [|l lines IH]; intros H.
  - reflexivity.
  - destruct lines as [|l' lines].
    + cbn [String.concat]. apply H. now left.
    + change (String.concat sep (l :: l' :: lines))
        with (l ++ sep ++ String.concat sep (l' :: lines)).
      rewrite !no_tilde_app, Hsep, (H l (or_introl eq_refl)).
      cbn [andb]. apply IH. intros x Hx. apply H. now right.
Qed.

Lemma no_tilde_join_lines (lines : list string) :
  (forall l, In l lines -> no_tilde l = true) ->
  no_tilde (join_lines lines) = true.
Proof. apply no_tilde_join. reflexivity. Qed.

Lemma no_tilde_clean_col (c : string) :
  no_tilde c = true -> no_tilde (clean_col c) = true.
Proof.
  rewrite clean_col_map. unfold no_tilde.
  induction c as [|x c IH]; simpl; [reflexivity|].
  intros H. apply andb_prop in H. destruct H as [Hx Hc].
  rewrite (IH Hc), andb_true_r. unfold clean_char.
  destruct (is_separator x); [reflexivity | exact Hx].
Qed.

Definition free_names (cols : list string) : bool := forallb no_tilde cols.

Lemma free_names_In (cols : list string) (c : string) :
  free_names cols = true -> In c cols -> no_tilde c = true.
Proof.
  unfold free_names. rewrite forallb_forall. auto.
Qed.

Lemma readable_source (co : string) :
  no_tilde co = true -> readable (source_part co).
Proof.
  intros Hco.
  exists ("source(output(" ++ nl ++ co ++ nl ++ " )," ++ nl
          ++ " allowSchemaDrift: true," ++ nl
          ++ " validateSchema: false," ++ nl
          ++ " ignoreNoFilesFound: false) ").
  split; [|split].
  - cbn [text target source_part]. rewrite !Validator.append_assoc.
    reflexivity.
  - rewrite !no_tilde_app, Hco. reflexivity.
  - reflexivity.
Qed.

Lemma readable_select (t so : string) :
  all_chars is_word t = true -> no_tilde so = true ->
  readable (select_part t so).
Proof.
  intros Ht Hso.
  exists (nl ++ "StagingSource select(mapColumn(" ++ nl
          ++ so ++ nl ++ " )," ++ nl
          ++ " skipDuplicateMapInputs: true," ++ nl
          ++ " skipDuplicateMapOutputs: true) ").
  split; [|split].
  - cbn [text target select_part]. rewrite !Validator.append_assoc.
    reflexivity.
  - rewrite !no_tilde_app, Hso. reflexivity.
  - cbn [target select_part]. now apply ident_prefixed.
Qed.

Lemma readable_aggregate (t pkc ao : string) :
  all_chars is_word t = true -> no_tilde pkc = true -> no_tilde ao = true ->
  readable (aggregate_part t pkc ao).
Proof.
  intros Ht Hpk Hao.
  exists (nl ++ "Select" ++ t ++ " aggregate(groupBy("
          ++ pkc ++ ")," ++ nl ++ ao ++ ") ").
  split; [|split].
  - cbn [text target aggregate_part]. rewrite !Validator.append_assoc.
    reflexivity.
  - rewrite !no_tilde_app, Hpk, Hao, (word_no_tilde t Ht). reflexivity.
  - cbn [target aggregate_part]. now apply ident_prefixed.
Qed.

Lemma readable_cast (from t co : string) :
  no_tilde from = true -> all_chars is_word t = true -> no_tilde co = true ->
  readable (cast_part from t co).
Proof.
  intros Hf Ht Hco.
  exists (nl ++ from ++ t ++ " cast(output(" ++ nl
          ++ co ++ nl ++ ")," ++ nl ++ " errors: true) ").
  split; [|split].
  - cbn [text target cast_part]. rewrite !Validator.append_assoc.
    reflexivity.
  - rewrite !no_tilde_app, Hf, Hco, (word_no_tilde t Ht). reflexivity.
  - cbn [target cast_part]. now apply ident_prefixed.
Qed.

Lemma readable_derive (t d : string) :
  all_chars is_word t = true -> no_tilde d = true ->
  readable (derive_part t d).
Proof.
  intros Ht Hd.
  exists (nl ++ "Aggregate" ++ t ++ " derive(" ++ nl ++ d ++ nl ++ ") ").
  split; [|split].
  - cbn [text target derive_part]. rewrite !Validator.append_assoc.
    reflexivity.
  - rewrite !no_tilde_app, Hd, (word_no_tilde t Ht). reflexivity.
  - cbn [target derive_part]. now apply ident_prefixed.
Qed.

Lemma readable_sink (final t : string) :
  no_tilde final = true -> all_chars is_word t = true ->
  readable (sink_part final t).
Proof.
  intros Hf Ht.
  exists (nl ++ final ++ " sink(allowSchemaDrift: true," ++ nl
          ++ " validateSchema: false," ++ nl
          ++ " deletable:false," ++ nl
          ++ " insertable:true," ++ nl
          ++ " updateable:false," ++ nl
          ++ " upsertable:false," ++ nl
          ++ " format: 'table'," ++ nl
          ++ " skipDuplicateMapInputs: true," ++ nl
          ++ " skipDuplicateMapOutputs: true," ++ nl
          ++ " errorHandlingOption: 'stopOnFirstError') ").
  split; [|split].
  - cbn [text target sink_part]. rewrite !Validator.append_assoc.
    reflexivity.
  - rewrite !no_tilde_app, Hf. reflexivity.
  - cbn [target sink_part]. now apply ident_prefixed.
Qed.


(** *** The texts the generator writes into the parts *)

Lemma free_select_output (cols : list string) :
  free_names cols = true ->
  no_tilde (join_lines (map (fun col => "      " ++ clean_col col) cols)) = true.
Proof.
  intros H. apply no_tilde_join_lines. intros l Hl.
  apply in_map_iff in Hl. destruct Hl as (c & <- & Hc).
  rewrite no_tilde_app. cbn [andb].
  apply no_tilde_clean_col, (free_names_In cols); assumption.
Qed.

Lemma free_agg_output (cols : list string) (pk : string) :
  free_names cols = true -> no_tilde (join_lines (agg_cols cols pk)) = true.
Proof.
  intros H. apply no_tilde_join_lines. intros l Hl. unfold agg_cols in Hl.
  apply in_map_iff in Hl. destruct Hl as (c & <- & Hc).
  apply filter_In in Hc. destruct Hc as [Hc _].
  pose proof (no_tilde_clean_col c (free_names_In cols c H Hc)) as Hf.
  unfold agg_entry. rewrite !no_tilde_app, Hf. reflexivity.
Qed.

Lemma free_cast_line (c ty : string) :
  no_tilde c = true -> In ty cast_types -> no_tilde (cast_line c ty) = true.
Proof.
  intros Hc Hty. unfold cast_line. rewrite !no_tilde_app, Hc.
  simpl in Hty. destruct Hty as [<-|[<-|[<-|[<-|[]]]]]; reflexivity.
Qed.

Lemma free_dim_cast_output (ctx : string) (ct : ColumnTypes)
    (dim_name : string) (cols : list string) :
  free_names cols = true ->
  no_tilde (join_lines (dim_cast_cols ctx ct dim_name cols)) = true.
Proof.
  intros H. apply no_tilde_join_lines. intros l Hl.
  apply dim_cast_cols_line in Hl. destruct Hl as (c & ty & Hc & Hty & ->).
  apply free_cast_line; [|exact Hty].
  apply no_tilde_clean_col, (free_names_In cols); assumption.
Qed.

Lemma free_fact_cast_output (ctx : string) (ct : ColumnTypes)
    (cols : list string) :
  free_names cols = true ->
  no_tilde (join_lines (fact_cast_cols ctx ct cols)) = true.
Proof.
  intros H. apply no_tilde_join_lines. intros l Hl.
  apply fact_cast_cols_line in Hl. destruct Hl as (c & ty & Hc & Hty & ->).
  apply free_cast_line; [|exact Hty].
  apply no_tilde_clean_col, (free_names_In cols); assumption.
Qed.

Lemma free_derive_output (cols : list string) :
  free_names cols = true ->
  no_tilde (join_lines (dim_derive_cols cols)) = true.
Proof.
  intros H. apply no_tilde_join_lines. intros l Hl.
  unfold dim_derive_cols in Hl. apply in_flat_map in Hl.
  destruct Hl as (c & Hc & Hl). cbv zeta in Hl.
  destruct (any_in ["date"; "time"] (lower c)); [|destruct Hl].
  destruct Hl as [<-|[]].
  pose proof (no_tilde_clean_col c (free_names_In cols c H Hc)) as Hf.
  rewrite !no_tilde_app, Hf. reflexivity.
Qed.

Lemma free_effective_primary_key (cols : list string) (pk first_col : string) :
  free_names cols = true -> no_tilde pk = true -> no_tilde first_col = true ->
  no_tilde (effective_primary_key cols pk first_col) = true.
Proof.
  intros Hcols Hpk Hfirst. unfold effective_primary_key.
  destruct (String.eqb pk ""); [|exact Hpk].
  destruct (filter is_id_column cols) as [|cand l] eqn:E; [exact Hfirst|].
  apply (free_names_In cols); [exact Hcols|].
  assert (Hin : In cand (filter is_id_column cols)) by (rewrite E; now left).
  apply filter_In in Hin. tauto.
Qed.

Lemma free_pk_clean (pk first_col : string) :
  no_tilde pk = true -> no_tilde first_col = true ->
  no_tilde (pk_clean pk first_col) = true.
Proof.
  intros Hpk Hfirst. unfold pk_clean.
  destruct (negb (String.eqb pk "")); now apply no_tilde_clean_col.
Qed.

(** A dimension whose name is a word and whose columns and key hold no
    tilde. *)
Definition readable_dim (entry : string * DimInfo) : bool :=
  is_table_name (fst entry)
  && free_names (columns (snd entry))
  && no_tilde (primary_key (snd entry)).

Lemma dimension_chain_readable (ctx : string) (ct : ColumnTypes)
    (entry : string * DimInfo) (p : Part) :
  readable_dim entry = true ->
  In p (dimension_chain ctx ct entry) -> readable p.
Proof.
  destruct entry as [dim_name [cols pk]]. unfold readable_dim, dimension_chain.
  cbn [fst snd columns primary_key]. intros H.
  apply andb_prop in H. destruct H as [H Hpk].
  apply andb_prop in H. destruct H as [Hname Hcols].
  apply table_name_word in Hname. destruct Hname as [_ Hword].
  destruct (name_rejected dim_name); [intros []|].
  destruct cols as [|first_col rest]; [intros []|].
  assert (Hfirst : no_tilde first_col = true).
  { apply (free_names_In (first_col :: rest)); [exact Hcols | now left]. }
  cbv zeta. intros Hin. rewrite !in_app_iff in Hin.
  destruct Hin as [[<-|[<-|[]]]|[Hin|[Hin|[<-|[]]]]].
  - apply readable_select; [exact Hword|]. now apply free_select_output.
  - apply readable_aggregate; [exact Hword | |now apply free_agg_output].
    apply free_pk_clean; [|exact Hfirst].
    now apply free_effective_primary_key.
  - match type of Hin with In _ (if ?b then _ else _) => destruct b eqn:E end;
      [destruct Hin|]. destruct Hin as [<-|[]].
    apply readable_cast; [reflexivity | exact Hword|].
    destruct (dim_cast_needed ctx ct dim_name (first_col :: rest));
      [now apply free_dim_cast_output | reflexivity].
  - match type of Hin with In _ (if ?b then _ else _) => destruct b eqn:E end;
      [destruct Hin|]. destruct Hin as [<-|[]].
    apply readable_derive; [exact Hword|].
    destruct (_ && _); [now apply free_derive_output | reflexivity].
  - apply readable_sink; [|exact Hword].
    repeat match goal with
           | |- context [if ?b then _ else _] => destruct b
           end;
      rewrite no_tilde_app, (word_no_tilde dim_name Hword); reflexivity.
Qed.

Lemma fact_chain_readable (ctx : string) (ct : ColumnTypes)
    (fact_columns : list string) (fact_tables : list (string * string))
    (p : Part) :
  free_names fact_columns = true ->
  match fact_tables with
  | (t, _) :: _ => is_table_name t = true
  | [] => True
  end ->
  In p (fact_chain ctx ct fact_columns fact_tables) -> readable p.
Proof.
  intros Hcols Ht. unfold fact_chain.
  destruct fact_columns as [|c cs]; [intros []|].
  destruct fact_tables as [|[t sch] ts]; [intros []|].
  apply table_name_word in Ht. destruct Ht as [_ Hword].
  cbv zeta. intros Hin. rewrite !in_app_iff in Hin.
  destruct Hin as [[<-|[]]|[Hin|[<-|[]]]].
  - apply readable_select; [exact Hword|]. now apply free_select_output.
  - match type of Hin with In _ (if ?b then _ else _) => destruct b eqn:E end;
      [destruct Hin|]. destruct Hin as [<-|[]].
    apply readable_cast; [reflexivity | exact Hword|].
    destruct (fact_cast_needed ctx ct (c :: cs));
      [now apply free_fact_cast_output | reflexivity].
  - apply readable_sink; [|exact Hword].
    repeat match goal with
           | |- context [if ?b then _ else _] => destruct b
           end;
      rewrite no_tilde_app, (word_no_tilde t Hword); reflexivity.
Qed.

(** The arguments of the generator for which the script can be read
    back: no column name holds a tilde, and the names of the dimensions
    and of the fact table are words. *)
Definition readable_args (csv_columns fact_columns : list string)
    (dimensions : Dict.t DimInfo) (fact_tables : list (string * string))
    : bool :=
  free_names csv_columns && free_names fact_columns
  && forallb readable_dim dimensions
  && match fact_tables with
     | (t, _) :: _ => is_table_name t
     | [] => true
     end.

Lemma script_parts_readable (csv_columns fact_columns : list string)
    (dims : Dict.t DimInfo) (ct : ColumnTypes)
    (fact_tables : list (string * string)) (ctx : string) (p : Part) :
  readable_args csv_columns fact_columns dims fact_tables = true ->
  In p (script_parts csv_columns fact_columns dims ct fact_tables ctx) ->
  readable p.
Proof.
  unfold readable_args. intros H.
  apply andb_prop in H. destruct H as [H Hft].
  apply andb_prop in H. destruct H as [H Hdims].
  apply andb_prop in H. destruct H as [Hcsv Hfact].
  unfold script_parts. rewrite !in_app_iff. intros [Hp|[Hp|Hp]].
  - destruct csv_columns as [|c cs]; [destruct Hp|].
    destruct Hp as [<-|[]]. apply readable_source.
    apply no_tilde_join_lines. intros l Hl.
    apply in_map_iff in Hl. destruct Hl as (x & <- & Hx).
    rewrite !no_tilde_app.
    rewrite (no_tilde_clean_col x (free_names_In (c :: cs) x Hcsv Hx)).
    reflexivity.
  - unfold dimension_chains in Hp. apply in_flat_map in Hp.
    destruct Hp as (e & He & Hp).
    rewrite forallb_forall in Hdims.
    exact (dimension_chain_readable ctx ct e p (Hdims e He) Hp).
  - apply (fact_chain_readable ctx ct fact_columns fact_tables);
      [exact Hfact | | exact Hp].
    destruct fact_tables as [|[t sch] ts]; [exact I | exact Hft].
Qed.

(** *** The matches in the script *)

Lemma readable_items (parts : list Part) :
  (forall p, In p parts -> readable p) ->
  exists items,
    map bound items = map text parts
    /\ map snd items = map target parts
    /\ Forall (fun item => no_tilde (fst item) = true
                           /\ is_ident (snd item) = true) items.
Proof.
  induction parts as [|p parts IH]; intros H.
  - exists []. repeat split. constructor.
  - destruct (H p (or_introl eq_refl)) as (b & Hb & Hfree & Hid).
    destruct IH as (items & Ht & Hn & Hall).
    { intros q Hq. apply H. now right. }
    exists ((b, target p) :: items). cbn [map bound fst snd].
    rewrite Ht, Hn, Hb. repeat split. constructor; [split; assumption|].
    exact Hall.
Qed.

Section Matches.
Variables (csv_columns fact_columns : list string) (dims : Dict.t DimInfo)
  (ct : ColumnTypes) (fact_tables : list (string * string)) (ctx : string).
Hypothesis args_readable :
  readable_args csv_columns fact_columns dims fact_tables = true.

Let parts := script_parts csv_columns fact_columns dims ct fact_tables ctx.
Let script := _generate_transform_dataflow_script
                csv_columns fact_columns dims ct fact_tables ctx.

Lemma findall_script (m : string -> option (string * string)) :
  (forall c s, negb (Ascii.eqb c "~") = true -> m (String c s) = None) ->
  (forall name rest, is_ident name = true -> ends_name rest ->
     m ("~> " ++ name ++ rest) = Some (name, rest)) ->
  findall m script = map target parts.
Proof.
  intros Hnone Hhit.
  destruct (readable_items parts) as (items & Ht & Hn & Hall).
  { intros p Hp.
    exact (script_parts_readable csv_columns fact_columns dims ct
             fact_tables ctx p args_readable Hp). }
  unfold script, _generate_transform_dataflow_script. fold parts.
  rewrite <- Ht, <- Hn. now apply findall_bound.
Qed.

Lemma findall_arrow_script : findall arrow_pattern script = map target parts.
Proof.
  apply findall_script; [exact arrow_pattern_none | exact arrow_pattern_hit].
Qed.

Lemma findall_method_script :
  findall method_arrow_pattern script = map target parts.
Proof.
  apply findall_script;
    [exact method_arrow_pattern_none | exact method_arrow_pattern_hit].
Qed.

End Matches.


(** *** What the two loops keep *)

(** A part binds the name of a transformation of some table, or the name
    of the source or of a sink. *)
Definition classified (p : Part) : Prop :=
  (is_transformation p = true /\ exists t, tagged t (target p))
  \/ (is_transformation p = false
      /\ (target p = "StagingSource" \/ exists t, target p = "Load" ++ t)).

Lemma chain_shape_classified (t : string) (chain : list Part) (p : Part) :
  chain_shape t chain -> In p chain -> classified p.
Proof.
  intros H Hp. destruct H; simpl in Hp;
    repeat (destruct Hp as [<-|Hp];
            [first [ left; split; [reflexivity|]; exists t;
                     first [tag "Select" | tag "Aggregate"
                           | tag "Cast" | tag "Derive"]
                   | right; split; [reflexivity|]; right; exists t;
                     reflexivity ]|]);
    destruct Hp.
Qed.

Lemma fact_shape_classified (t : string) (chain : list Part) (p : Part) :
  fact_shape t chain -> In p chain -> classified p.
Proof.
  intros H Hp. destruct H; simpl in Hp;
    repeat (destruct Hp as [<-|Hp];
            [first [ left; split; [reflexivity|]; exists t;
                     first [tag "Select" | tag "Aggregate"
                           | tag "Cast" | tag "Derive"]
                   | right; split; [reflexivity|]; right; exists t;
                     reflexivity ]|]);
    destruct Hp.
Qed.

Lemma script_parts_classified (csv_columns fact_columns : list string)
    (dims : Dict.t DimInfo) (ct : ColumnTypes)
    (fact_tables : list (string * string)) (ctx : string) (p : Part) :
  In p (script_parts csv_columns fact_columns dims ct fact_tables ctx) ->
  classified p.
Proof.
  unfold script_parts. rewrite !in_app_iff. intros [Hp|[Hp|Hp]].
  - destruct csv_columns as [|c cs]; [destruct Hp|].
    destruct Hp as [<-|[]]. right. split; [reflexivity | now left].
  - unfold dimension_chains in Hp. apply in_flat_map in Hp.
    destruct Hp as (e & _ & Hp).
    destruct (dimension_chain_shape ctx ct e) as [E|Hs].
    + rewrite E in Hp. destruct Hp.
    + exact (chain_shape_classified _ _ _ Hs Hp).
  - destruct (fact_chain_shape ctx ct fact_columns fact_tables)
      as [E|(t & sch & rest & _ & Hs)].
    + rewrite E in Hp. destruct Hp.
    + exact (fact_shape_classified _ _ _ Hs Hp).
Qed.

Lemma keep_match_tagged (acc : list string) (t n : string) :
  tagged t n ->
  keep_match acc n = if mem n acc then acc else (acc ++ [n])%list.
Proof.
  intros (k & Hk & ->). unfold keep_match. simpl in Hk.
  destruct Hk as [<-|[<-|[<-|[<-|[]]]]];
    destruct (mem _ acc); reflexivity.
Qed.

Lemma keep_match_load (acc : list string) (t : string) :
  keep_match acc ("Load" ++ t) = acc.
Proof.
  unfold keep_match. rewrite startswith_append. reflexivity.
Qed.

Lemma fold_keep_match (parts : list Part) (acc : list string) :
  (forall p, In p parts -> classified p) ->
  NoDup (acc ++ transformation_names parts) ->
  fold_left keep_match (map target parts) acc
  = (acc ++ transformation_names parts)%list.
Proof.
  revert acc. induction parts as [|p parts IH]; intros acc Hc Hnd.
  - cbn. now rewrite app_nil_r.
  - cbn [map fold_left].
    assert (Hrest : forall q, In q parts -> classified q).
    { intros q Hq. apply Hc. now right. }
    destruct (Hc p (or_introl eq_refl)) as [[Ht (t & Htag)]|[Ht Hname]].
    + change (transformation_names (p :: parts))
        with (map target (filter is_transformation (p :: parts))) in *.
      cbn [filter] in *. rewrite Ht in *. cbn [map] in *.
      fold (transformation_names parts) in *.
      rewrite (keep_match_tagged acc t _ Htag).
      assert (Hnot : mem (target p) acc = false).
      { apply mem_false_In. intros Hin.
        apply NoDup_remove_2 in Hnd. apply Hnd.
        apply in_app_iff. now left. }
      rewrite Hnot. rewrite IH; [|exact Hrest|].
      * now rewrite <- app_assoc.
      * rewrite <- app_assoc. exact Hnd.
    + change (transformation_names (p :: parts))
        with (map target (filter is_transformation (p :: parts))) in *.
      cbn [filter] in *. rewrite Ht in *.
      fold (transformation_names parts) in *.
      assert (Hkeep : keep_match acc (target p) = acc).
      { destruct Hname as [->|(t & ->)];
          [reflexivity | apply keep_match_load]. }
      rewrite Hkeep. now apply IH.
Qed.

Lemma fold_keep_unique_In (l acc : list string) (n : string) :
  In n (fold_left keep_unique l acc)
  <-> In n acc \/ (In n l /\ n <> "StagingSource").
Proof.
  revert acc. induction l as [|x l IH]; intros acc.
  - cbn. split; [now left | intros [H|[[] _]]; exact H].
  - cbn [fold_left]. rewrite IH. unfold keep_unique.
    destruct (mem x acc) eqn:Em; cbn [negb andb].
    + apply mem_In in Em. split.
      * intros [H|[H Hn]]; [now left | right; split; [now right | exact Hn]].
      * intros [H|[[<-|H] Hn]]; [now left | now left | right; now split].
    + destruct (String.eqb_spec x "StagingSource") as [->|Hx]; cbn [negb].
      * split.
        -- intros [H|[H Hn]]; [now left | right; split; [now right | exact Hn]].
        -- intros [H|[[<-|H] Hn]];
             [now left | now elim Hn | right; now split].
      * rewrite in_app_iff. split.
        -- intros [[H|[<-|[]]]|[H Hn]];
             [now left | right; split; [now left | exact Hx]
             | right; split; [now right | exact Hn]].
        -- intros [H|[[<-|H] Hn]];
             [left; now left | left; right; now left | right; now split].
Qed.

Lemma fold_keep_unique_NoDup (l acc : list string) :
  NoDup acc -> NoDup (fold_left keep_unique l acc).
Proof.
  revert acc. induction l as [|x l IH]; intros acc H; [exact H|].
  cbn [fold_left]. apply IH. unfold keep_unique.
  destruct (mem x acc) eqn:Em; cbn [negb andb]; [exact H|].
  destruct (String.eqb x "StagingSource"); cbn [negb]; [exact H|].
  apply mem_false_In in Em. apply NoDup_app; [exact H | |].
  - constructor; [intros []|constructor].
  - intros a Ha [<-|[]]. contradiction.
Qed.

(** A text that holds a line of the list holds the line. *)
Lemma concat_holds (lines : list string) (x : string) :
  In x lines -> exists pre post, String.concat "" lines = pre ++ x ++ post.
Proof.
  induction lines as [|l lines IH]; [intros []|].
  assert (Hc : String.concat "" (l :: lines) = l ++ String.concat "" lines).
  { destruct lines; cbn [String.concat]; [now rewrite append_nil_r|].
    reflexivity. }
  intros [->|Hin].
  - exists "", (String.concat "" lines). rewrite Hc. reflexivity.
  - destruct (IH Hin) as (pre & post & E). exists (l ++ pre), post.
    rewrite Hc, E. now rewrite Validator.append_assoc.
Qed.


(** *** The sinks of the script *)

Lemma chain_shape_sink (t : string) (chain : list Part) (p : Part) :
  chain_shape t chain -> In p chain -> is_sink p = true ->
  target p = "Load" ++ t.
Proof.
  intros H Hp Hs. destruct H; simpl in Hp;
    repeat (destruct Hp as [<-|Hp];
            [first [discriminate Hs | reflexivity]|]);
    destruct Hp.
Qed.

Lemma fact_shape_sink (t : string) (chain : list Part) (p : Part) :
  fact_shape t chain -> In p chain -> is_sink p = true ->
  target p = "Load" ++ t.
Proof.
  intros H Hp Hs. destruct H; simpl in Hp;
    repeat (destruct Hp as [<-|Hp];
            [first [discriminate Hs | reflexivity]|]);
    destruct Hp.
Qed.

Lemma script_sinks_named (csv_columns fact_columns : list string)
    (dims : Dict.t DimInfo) (ct : ColumnTypes)
    (fact_tables : list (string * string)) (ctx : string) (n : string) :
  readable_args csv_columns fact_columns dims fact_tables = true ->
  In n (sink_names
          (script_parts csv_columns fact_columns dims ct fact_tables ctx)) ->
  exists t, n = "Load" ++ t /\ is_table_name t = true.
Proof.
  unfold readable_args. intros H.
  apply andb_prop in H. destruct H as [H Hft].
  apply andb_prop in H. destruct H as [_ Hdims].
  unfold sink_names. rewrite in_map_iff. intros (p & <- & Hp).
  apply filter_In in Hp. destruct Hp as [Hp Hs].
  unfold script_parts in Hp. rewrite !in_app_iff in Hp.
  destruct Hp as [Hp|[Hp|Hp]].
  - destruct csv_columns as [|c cs]; [destruct Hp|].
    destruct Hp as [<-|[]]. discriminate Hs.
  - unfold dimension_chains in Hp. apply in_flat_map in Hp.
    destruct Hp as (e & He & Hp).
    rewrite forallb_forall in Hdims. specialize (Hdims e He).
    unfold readable_dim in Hdims.
    apply andb_prop in Hdims. destruct Hdims as [Hdims _].
    apply andb_prop in Hdims. destruct Hdims as [Hname _].
    destruct (dimension_chain_shape ctx ct e) as [E|Hsh].
    + rewrite E in Hp. destruct Hp.
    + exists (fst e). split; [|exact Hname].
      exact (chain_shape_sink _ _ _ Hsh Hp Hs).
  - destruct (fact_chain_shape ctx ct fact_columns fact_tables)
      as [E|(t & sch & rest & Heq & Hsh)].
    + rewrite E in Hp. destruct Hp.
    + subst fact_tables. exists t. split; [|exact Hft].
      exact (fact_shape_sink _ _ _ Hsh Hp Hs).
Qed.

(** A line of the list of transformations that names a sink is what the
    validator looks for. *)
Lemma load_line_found (lines : list string) (t : string) :
  is_table_name t = true ->
  In ("            Transformation(name='" ++ ("Load" ++ t) ++ "'),"
      ++ TransformScript.nl) lines ->
  search Validator.load_in_transformations_pattern (String.concat "" lines)
  = true.
Proof.
  intros Ht Hin. apply table_name_word in Ht. destruct Ht as [Hne Hword].
  apply concat_holds in Hin. destruct Hin as (pre & post & ->).
  apply Validator.load_transformation_found.
  exists (pre ++ "            "), "Transformation(name=", "'"%char, "Load", t,
    "'"%char, ("," ++ TransformScript.nl ++ post).
  split; [|repeat split; auto].
  rewrite !Validator.append_assoc. reflexivity.
Qed.

End ScriptText.

(* ================================================================== *)
(** ** Agent 3: the regeneration loop of [generate_python_sdk_code] *)
(* ================================================================== *)

Module Regeneration.
Import PyStr.
Import Validator.

Inductive Outcome (A : Type) :=
| Return (a : A)
| Raise (e : Exn).
Arguments Return {A} a.
Arguments Raise {A} e.

Definition bind {A B : Type} (m : Outcome A) (k : A -> Outcome B) : Outcome B :=
  match m with
  | Return a => k a
  | Raise e => Raise e
  end.

Notation "x <- m ;; k" := (bind m (fun x => k))
  (at level 61, m at next level, right associativity).

(** [raise Exception(f"{prefix}: {type(e).__name__}: {str(e)}") from e] *)
Definition rewrap (prefix : string) (e : Exn) : Exn :=
  {| exn_type := "Exception";
     exn_msg := prefix ++ ": " ++ exn_type e ++ ": " ++ exn_msg e |}.

Definition value_error (msg : string) : Exn :=
  {| exn_type := "ValueError"; exn_msg := msg |}.

Section Loop.

(** The decision of Agent 3A, a JSON dictionary, left abstract. *)
Variable Decision : Type.

(** What [generate_pipeline_prompt] returns: [None], a dictionary, empty
    or not, or another JSON value, true or false. *)
Inductive Plan :=
| PlanNone
| PlanDict (d : Decision) (nonempty : bool)
| PlanOther (truthy : bool).

Definition plan_truthy (p : Plan) : bool :=
  match p with
  | PlanNone => false
  | PlanDict _ b => b
  | PlanOther b => b
  end.

(** The dictionary returned by [generate_python_sdk_code]. *)
Record Result := {
  code : string;
  validation_result : Verdict;
  attempt_count : nat;
  final_validation_status : bool;
  agent3a_decision : Plan
}.

(** The calls to the three agents, in the order they are made. *)
Inductive Event :=
| Planned (call : nat) (feedback : option string) (plan : Plan)
| Synthesized (attempt : nat) (outcome : Outcome string)
| Validated (attempt : nat) (generated : string) (returned : Returned).

(** The client and the answers of the model:
    - [llm_plan client call feedback]: the decision of Agent 3A at its
      [call]-th call, errors included (the function returns [None] on
      any of them);
    - [llm_code client attempt decision feedback]: the code of Agent 3B,
      or the exception met on the way;
    - the five parameters of the validator, its context being the attempt
      and the decision;
    - [fallback_code]: the code of [_generate_complete_sdk_code], used
      when Agent 3A gives no decision;
    and whether the three required arguments are given. *)
Variable Client : Type.
Variable client : option Client.
Variable llm_plan : Client -> nat -> option string -> Plan.
Variable llm_code : Client -> nat -> Decision -> option string -> Outcome string.
Variable find_deploy_signature : string -> option string.
Variable has_parameter : string -> string -> bool.
Variable cast_sql_types : string -> list string.
Variable py_compile : string -> Compiled.
Variable ai_validation : Client -> nat * Plan -> string -> Returned.
Variable fallback_code : string.
Variables csv_analysis_given datatype_analysis_given destination_tables_given
  : bool.

(** [generate_pipeline_prompt], past the checks of its arguments (the
    caller has made them). *)
Definition generate_pipeline_prompt (call : nat) (feedback : option string)
    : Plan :=
  match client with
  | None => PlanNone
  | Some c => llm_plan c call feedback
  end.

Definition generate_python_sdk_code_from_prompt (attempt : nat) (plan : Plan)
    (feedback : option string) : Outcome string :=
  let body :=
    match client with
    | None => Raise (value_error "OpenAI client is not available")
    | Some c =>
        match plan with
        | PlanDict d _ =>
            generated <- llm_code c attempt d feedback ;;
            if String.eqb generated "" || strip_is_empty generated
            then Raise (value_error "Generated code is empty")
            else Return generated
        | _ => Raise (value_error "Agent 3A output must be a dictionary")
        end
    end in
  match body with
  | Return generated => Return generated
  | Raise e => Raise (rewrap "Error in Agent 3B code generation" e)
  end.

Definition validate (attempt : nat) (plan : Plan) (generated : string)
    : Returned :=
  validate_generated_code Client (nat * Plan) find_deploy_signature
    has_parameter cast_sql_types py_compile ai_validation
    client (attempt, plan) generated.

(** [validation_result.get] on a value that is not a dictionary *)
Definition no_get (type_name : string) : Exn :=
  {| exn_type := "AttributeError";
     exn_msg := "'" ++ type_name ++ "' object has no attribute 'get'" |}.

Definition missing_result : Verdict :=
  {| is_valid := false;
     issues := ["Validation error - no validation result available"];
     issues_fault := None;
     feedback := "Code generation completed but validation result is missing.";
     validation_details := None |}.

Section Attempts.
Variable max_retries : nat.

(** The statements after the [for] loop; [last_code] and
    [final_validation_result] are the variables [code] and
    [final_validation_result], unbound or [None] when no attempt was
    made. *)
Definition after_loop (plan : Plan) (last_code : option string)
    (final_validation_result : option Verdict) : Outcome Result :=
  match last_code with
  | None =>
      Raise {| exn_type := "UnboundLocalError";
               exn_msg := "cannot access local variable 'code' where it is not associated with a value" |}
  | Some generated =>
      Return {| code := generated;
                validation_result :=
                  match final_validation_result with
                  | Some v => v
                  | None => missing_result
                  end;
                attempt_count := max_retries;
                final_validation_status := false;
                agent3a_decision := plan |}
  end.

(** [for attempt in range(max_retries): ...], the attempts still to make
    being [todo]; the events of the calls are returned with the
    outcome. *)
Fixpoint attempts (todo : list nat) (plan : Plan)
    (validation_feedback : option string) (last_code : option string)
    (final_validation_result : option Verdict)
    : list Event * Outcome Result :=
  match todo with
  | [] => ([], after_loop plan last_code final_validation_result)
  | attempt :: rest =>
      let synthesized :=
        generate_python_sdk_code_from_prompt attempt plan validation_feedback in
      match synthesized with
      | Raise e => ([Synthesized attempt synthesized], Raise e)
      | Return generated =>
          let returned := validate attempt plan generated in
          let events :=
            [Synthesized attempt synthesized;
             Validated attempt generated returned] in
          match returned with
          | ReturnsOther type_name => (events, Raise (no_get type_name))
          | ReturnsDict v =>
              if is_valid v then
                (events,
                 Return {| code := generated; validation_result := v;
                           attempt_count := attempt + 1;
                           final_validation_status := true;
                           agent3a_decision := plan |})
              else
              match issues_fault v with
              | Some e => (events, Raise e)
              | None =>
              if attempt <? max_retries - 1 then
                let feedback' := Some (feedback v) in
                let plan' := generate_pipeline_prompt (S attempt) feedback' in
                let (later, outcome) :=
                  attempts rest plan' feedback' (Some generated) (Some v) in
                ((events ++ Planned (S attempt) feedback' plan' :: later)%list,
                 outcome)
              else
                (events,
                 Return {| code := generated; validation_result := v;
                           attempt_count := attempt + 1;
                           final_validation_status := false;
                           agent3a_decision := plan |})
              end
          end
      end
  end.

Definition regeneration_loop (plan : Plan) : list Event * Outcome Result :=
  attempts (seq 0 max_retries) plan None None None.

End Attempts.

Definition skipped_result : Verdict :=
  {| is_valid := false;
     issues := ["Validation skipped - Agent 3A failed, using fallback generation"];
     issues_fault := None;
     feedback := "Code generated using fallback method. Validation was not performed.";
     validation_details := None |}.

(** The direct generation used when Agent 3A gives no decision. *)
Definition fallback_generation (plan : Plan) : list Event * Outcome Result :=
  let outcome :=
    if String.eqb fallback_code "" || strip_is_empty fallback_code
    then Raise (value_error "Generated code is empty")
    else Return {| code := fallback_code;
                   validation_result := skipped_result;
                   attempt_count := 0;
                   final_validation_status := false;
                   agent3a_decision := PlanNone |} in
  ([Planned 0 None plan], outcome).

(** The body of the [try] of [generate_python_sdk_code], in which
    [max_retries = 2].  The folder and file names taken from
    [csv_filename], the dictionary [agent2_mapping] and the sample file,
    which the loop hands to the agents unchanged at every attempt, are
    part of what the agents answer from and are not written out. *)
Definition generate_body : list Event * Outcome Result :=
  if negb csv_analysis_given
  then ([], Raise (value_error "CSV analysis (Agent 1 output) is required"))
  else if negb datatype_analysis_given
  then ([], Raise (value_error "Data type analysis (Agent 2 output) is required"))
  else if negb destination_tables_given
  then ([], Raise (value_error "At least one destination table must be selected"))
  else
    let plan := generate_pipeline_prompt 0 None in
    if plan_truthy plan then
      let (events, outcome) := regeneration_loop 2 plan in
      (Planned 0 None plan :: events, outcome)
    else fallback_generation plan.

(** [generate_python_sdk_code]: what the body raises is raised again as
    an [Exception]. *)
Definition generate_python_sdk_code : list Event * Outcome Result :=
  match generate_body with
  | (events, Raise e) =>
      (events, Raise (rewrap "Error in Agent 3 code generation" e))
  | (events, Return r) => (events, Return r)
  end.

(** *** What the loop does *)

(** The validations among the events: attempt, code and returned value. *)
Definition validations (events : list Event) : list (nat * string * Returned) :=
  flat_map (fun e => match e with
                     | Validated a g r => [(a, g, r)]
                     | _ => []
                     end) events.

Definition syntheses (events : list Event) : list nat :=
  flat_map (fun e => match e with
                     | Synthesized a _ => [a]
                     | _ => []
                     end) events.

Definition plannings (events : list Event) : list nat :=
  flat_map (fun e => match e with
                     | Planned c _ _ => [c]
                     | _ => []
                     end) events.

(** A validation whose verdict does not pass. *)
Definition failing (x : nat * string * Returned) : Prop :=
  exists v, snd x = ReturnsDict v /\ is_valid v = false.

(** What a returned result has to do with the events: its code and
    verdict are those of the last validation, which is the attempt of
    number [attempt_count], every earlier validation failed, the status
    is the verdict's, and a failing verdict is returned only at the last
    attempt allowed. *)
Definition result_of_events (max_retries first : nat) (events : list Event)
    (r : Result) : Prop :=
  exists earlier,
    validations events
    = (earlier ++ [(first + List.length earlier, code r,
                    ReturnsDict (validation_result r))])%list
    /\ Forall failing earlier
    /\ attempt_count r = first + List.length earlier + 1
    /\ final_validation_status r = is_valid (validation_result r)
    /\ (is_valid (validation_result r) = false -> attempt_count r = max_retries).

(** An exception leaves the loop only when Agent 3B raised it, when the
    validator returned something that is not a dictionary, or when it
    returned a failing verdict whose issues are not a list. *)
Definition raised_by_agent (events : list Event) (e : Exn) : Prop :=
  (exists attempt, In (Synthesized attempt (Raise e)) events)
  \/ (exists attempt generated type_name,
        In (Validated attempt generated (ReturnsOther type_name)) events
        /\ e = no_get type_name)
  \/ (exists attempt generated v,
        In (Validated attempt generated (ReturnsDict v)) events
        /\ is_valid v = false /\ issues_fault v = Some e).

Lemma validations_app (l1 l2 : list Event) :
  validations (l1 ++ l2) = (validations l1 ++ validations l2)%list.
Proof. apply flat_map_app. Qed.

Lemma syntheses_app (l1 l2 : list Event) :
  syntheses (l1 ++ l2) = (syntheses l1 ++ syntheses l2)%list.
Proof. apply flat_map_app. Qed.

Lemma plannings_app (l1 l2 : list Event) :
  plannings (l1 ++ l2) = (plannings l1 ++ plannings l2)%list.
Proof. apply flat_map_app. Qed.

Lemma attempts_spec (max_retries k : nat) :
  forall first plan fb last_code final,
    first + k = max_retries -> 1 <= k ->
    let run := attempts max_retries (seq first k) plan fb last_code final in
    List.length (validations (fst run)) <= k
    /\ List.length (syntheses (fst run)) <= k
    /\ List.length (plannings (fst run)) <= k - 1
    /\ match snd run with
       | Return r => result_of_events max_retries first (fst run) r
       | Raise e => raised_by_agent (fst run) e
       end.
Proof.
  induction k as [|k IH]; intros first plan fb last_code final Hsum Hk;
    [lia|].
  cbn [seq attempts].
  destruct (generate_python_sdk_code_from_prompt first plan fb)
    as [generated|e] eqn:Esyn.
  2:{ cbn. repeat split; try lia. left. exists first. now left. }
  destruct (validate first plan generated) as [v|type_name] eqn:Eval.
  2:{ cbn. repeat split; try lia. right. left.
      exists first, generated, type_name. split; [|reflexivity].
      right. now left. }
  destruct (is_valid v) eqn:Evalid.
  { cbn. repeat split; try lia. exists []. cbn.
    rewrite Nat.add_0_r. repeat split; auto; try lia. congruence. }
  destruct (issues_fault v) as [fault|] eqn:Efault.
  { cbn. repeat split; try lia. right. right.
    exists first, generated, v. split; [right; now left | auto]. }
  destruct (first <? max_retries - 1) eqn:Elt.
  - apply Nat.ltb_lt in Elt.
    specialize (IH (S first)
                   (generate_pipeline_prompt (S first) (Some (feedback v)))
                   (Some (feedback v)) (Some generated) (Some v)).
    assert (Hsum' : S first + k = max_retries) by lia.
    assert (Hk' : 1 <= k) by lia.
    specialize (IH Hsum' Hk'). cbv zeta in IH.
    destruct (attempts max_retries (seq (S first) k)
                (generate_pipeline_prompt (S first) (Some (feedback v)))
                (Some (feedback v)) (Some generated) (Some v))
      as [later outcome].
    cbn [fst snd] in IH |- *. destruct IH as (Hv & Hs & Hp & Hout).
    rewrite validations_app, syntheses_app, plannings_app.
    change (validations (Planned (S first) (Some (feedback v))
              (generate_pipeline_prompt (S first) (Some (feedback v))) :: later))
      with (validations later).
    change (syntheses (Planned (S first) (Some (feedback v))
              (generate_pipeline_prompt (S first) (Some (feedback v))) :: later))
      with (syntheses later).
    change (plannings (Planned (S first) (Some (feedback v))
              (generate_pipeline_prompt (S first) (Some (feedback v))) :: later))
      with (S first :: plannings later).
    cbn [validations syntheses plannings flat_map app List.length].
    repeat split; try lia.
    destruct outcome as [r|e].
    + destruct Hout as (earlier & Hval & Hfail & Hcount & Hstatus & Hlast).
      exists ((first, generated, ReturnsDict v) :: earlier).
      change (validations
                (Synthesized first (Return generated)
                 :: Validated first generated (ReturnsDict v)
                 :: Planned (S first) (Some (feedback v))
                      (generate_pipeline_prompt (S first) (Some (feedback v)))
                 :: later))
        with ((first, generated, ReturnsDict v) :: validations later).
      cbn [List.length app]. rewrite Hval.
      replace (first + S (List.length earlier))
        with (S first + List.length earlier) by lia.
      split; [reflexivity|]. split; [|split; [lia|split; assumption]].
      constructor; [|exact Hfail]. exists v. auto.
    + destruct Hout as [(attempt & Hin)|[(attempt & g & ty & Hin & He)
                                         |(attempt & g & w & Hin & He)]].
      * left. exists attempt. right. right. right. exact Hin.
      * right. left. exists attempt, g, ty. split; [|exact He].
        right. right. right. exact Hin.
      * right. right. exists attempt, g, w. split; [|exact He].
        right. right. right. exact Hin.
  - apply Nat.ltb_ge in Elt. cbn. repeat split; try lia.
    exists []. cbn. rewrite Nat.add_0_r.
    repeat split; auto; try lia.
Qed.

(** [generate_python_sdk_code] validates at most twice, and the result it
    returns counts at most two attempts. *)
Lemma generate_python_sdk_code_two_attempts :
  List.length (validations (fst generate_python_sdk_code)) <= 2
  /\ forall r, snd generate_python_sdk_code = Return r -> attempt_count r <= 2.
Proof.
  unfold generate_python_sdk_code, generate_body.
  destruct csv_analysis_given; cbn [negb];
    [|split; [cbn; lia | intros r H; discriminate H]].
  destruct datatype_analysis_given; cbn [negb];
    [|split; [cbn; lia | intros r H; discriminate H]].
  destruct destination_tables_given; cbn [negb];
    [|split; [cbn; lia | intros r H; discriminate H]].
  destruct (plan_truthy (generate_pipeline_prompt 0 None)).
  - pose proof (attempts_spec 2 2 0 (generate_pipeline_prompt 0 None)
                  None None None eq_refl (le_S 1 1 (le_n 1))) as H.
    cbv zeta in H. unfold regeneration_loop.
    destruct (attempts 2 (seq 0 2) (generate_pipeline_prompt 0 None)
                None None None) as [events outcome].
    cbn [fst snd] in H. destruct H as (Hv & _ & _ & Hout).
    destruct outcome as [r|e]; cbn [fst snd]; (split; [exact Hv|]).
    + intros r' [= <-].
      destruct Hout as (earlier & Hval & _ & Hcount & _).
      rewrite Hval, length_app in Hv. cbn in Hv. lia.
    + intros r' H. discriminate H.
  - unfold fallback_generation.
    destruct (String.eqb fallback_code "" || strip_is_empty fallback_code);
      cbn; (split; [lia|]); intros r H; [discriminate H|].
    injection H as <-. cbn. lia.
Qed.

(** What [generate_python_sdk_code] raises and returns, by the first
    decision of Agent 3A. *)
Lemma generate_outcomes :
  let run := generate_python_sdk_code in
  let plan := generate_pipeline_prompt 0 None in
  (forall e, snd run = Raise e ->
     exn_type e = "Exception"
     /\ startswith (exn_msg e) "Error in Agent 3 code generation: " = true)
  /\ (csv_analysis_given && datatype_analysis_given
      && destination_tables_given = false ->
      fst run = [] /\ exists e, snd run = Raise e)
  /\ (forall r, snd run = Return r ->
        (attempt_count r = 0 <-> plan_truthy plan = false)
        /\ (attempt_count r = 0 ->
            fst run = [Planned 0 None plan]
            /\ code r = fallback_code
            /\ validation_result r = skipped_result
            /\ final_validation_status r = false
            /\ agent3a_decision r = PlanNone))
  /\ (client = None ->
      syntheses (fst run) = [] /\ validations (fst run) = []).
Proof.
  cbv zeta. split; [|split; [|split]].
  - intros e. unfold generate_python_sdk_code.
    destruct generate_body as [events [r|e0]]; cbn [snd]; [discriminate|].
    intros [= <-]. split; reflexivity.
  - intros H. unfold generate_python_sdk_code, generate_body.
    destruct csv_analysis_given; cbn [negb];
      [|split; [reflexivity | eexists; reflexivity]].
    destruct datatype_analysis_given; cbn [negb];
      [|split; [reflexivity | eexists; reflexivity]].
    destruct destination_tables_given; cbn [negb];
      [discriminate H | split; [reflexivity | eexists; reflexivity]].
  - intros r. unfold generate_python_sdk_code, generate_body.
    destruct csv_analysis_given; cbn [negb]; [|discriminate].
    destruct datatype_analysis_given; cbn [negb]; [|discriminate].
    destruct destination_tables_given; cbn [negb]; [|discriminate].
    destruct (plan_truthy (generate_pipeline_prompt 0 None)) eqn:Ep.
    + pose proof (attempts_spec 2 2 0 (generate_pipeline_prompt 0 None)
                    None None None eq_refl (le_S 1 1 (le_n 1))) as H.
      cbv zeta in H. unfold regeneration_loop.
      destruct (attempts 2 (seq 0 2) (generate_pipeline_prompt 0 None)
                  None None None) as [events outcome].
      cbn [fst snd] in H. destruct H as (_ & _ & _ & Hout).
      destruct outcome as [r'|e]; cbn [fst snd]; [|discriminate].
      intros [= <-]. destruct Hout as (earlier & _ & _ & Hcount & _).
      split; [split; [lia | discriminate] | lia].
    + unfold fallback_generation.
      destruct (String.eqb fallback_code "" || strip_is_empty fallback_code);
        cbn [fst snd]; [discriminate|].
      intros [= <-]. cbn. repeat split.
  - intros Hc. unfold generate_python_sdk_code, generate_body.
    destruct csv_analysis_given; cbn [negb]; [|split; reflexivity].
    destruct datatype_analysis_given; cbn [negb]; [|split; reflexivity].
    destruct destination_tables_given; cbn [negb]; [|split; reflexivity].
    unfold generate_pipeline_prompt. rewrite Hc. cbn [plan_truthy].
    unfold fallback_generation.
    destruct (String.eqb fallback_code "" || strip_is_empty fallback_code);
      split; reflexivity.
Qed.

(** A first verdict that fails followed by a decision that is not a
    dictionary: the second attempt raises, and the code of the first is
    not returned. *)
Lemma failed_replan (c : Client) (d : Decision) (nonempty : bool)
    (generated : string) (v : Verdict) :
  client = Some c ->
  generate_python_sdk_code_from_prompt 0 (PlanDict d nonempty) None
  = Return generated ->
  validate 0 (PlanDict d nonempty) generated = ReturnsDict v ->
  is_valid v = false -> issues_fault v = None ->
  (forall d' b, llm_plan c 1 (Some (feedback v)) <> PlanDict d' b) ->
  let run := regeneration_loop 2 (PlanDict d nonempty) in
  snd run
  = Raise (rewrap "Error in Agent 3B code generation"
             (value_error "Agent 3A output must be a dictionary"))
  /\ validations (fst run) = [(0, generated, ReturnsDict v)]
  /\ plannings (fst run) = [1].
Proof.
  intros Hc Hgen Hval Hinv Hfault Hplan. cbv zeta.
  unfold regeneration_loop. cbn [seq attempts].
  rewrite Hgen, Hval, Hinv, Hfault. cbn [Nat.ltb Nat.leb Nat.sub].
  assert (Hsyn : forall fb,
            generate_python_sdk_code_from_prompt 1
              (generate_pipeline_prompt 1 (Some (feedback v))) fb
            = Raise (rewrap "Error in Agent 3B code generation"
                       (value_error "Agent 3A output must be a dictionary"))).
  { intros fb. unfold generate_python_sdk_code_from_prompt,
      generate_pipeline_prompt. rewrite Hc.
    destruct (llm_plan c 1 (Some (feedback v))) as [|d' b|b] eqn:E;
      [reflexivity | now elim (Hplan d' b) | reflexivity]. }
  rewrite Hsyn. cbn [fst snd]. repeat split.
Qed.

End Loop.

Arguments PlanNone {Decision}.
Arguments PlanDict {Decision} d nonempty.
Arguments PlanOther {Decision} truthy.
Arguments Planned {Decision} call feedback plan.
Arguments Synthesized {Decision} attempt outcome.
Arguments Validated {Decision} attempt generated returned.
Arguments code {Decision} r.
Arguments validation_result {Decision} r.
Arguments attempt_count {Decision} r.
Arguments final_validation_status {Decision} r.
Arguments agent3a_decision {Decision} r.
Arguments validations {Decision} events.
Arguments syntheses {Decision} events.
Arguments plannings {Decision} events.
Arguments result_of_events {Decision} max_retries first events r.
Arguments raised_by_agent {Decision} events e.

End Regeneration.

(* ================================================================== *)
(** ** Agent 3: [generate_python_sdk_code_v3_training] *)
(* ================================================================== *)

Module Training.
Import PyStr.
Import Validator.
Import Regeneration.

(** [compile(generated_code, '<string>', 'exec')]: it returns, raises a
    [SyntaxError], or raises something else. *)
Inductive Compile :=
| Compiles
| RaisesSyntaxError (msg : string)
| RaisesOther (e : Exn).

(** [raise Exception(f"Code generation failed after {max_retries} attempts: {e}")] *)
Definition failed_after (max_retries : nat) (e : Exn) : Exn :=
  {| exn_type := "Exception";
     exn_msg := "Code generation failed after "
                ++ TypeFallback.show_nat max_retries
                ++ " attempts: " ++ exn_msg e |}.

(** ['```' in None] *)
Definition not_iterable : Exn :=
  {| exn_type := "TypeError";
     exn_msg := "argument of type 'NoneType' is not iterable" |}.

Section Retry.

(** The client and what the attempt is made of:
    - [user_prompt]: the prompt built from the arguments, or the
      exception met while the dimensions are normalised and the
      arguments serialised; the arguments are the same at every attempt;
    - [llm_complete client attempt prompt]: the content of the first
      choice of the answer, which may be [None], or the exception of the
      call;
    - [findall_code]: the matches of the pattern for a fenced block;
    - [py_compile]: the syntax check. *)
Variable Client : Type.
Variable client : option Client.
Variable user_prompt : Outcome string.
Variable llm_complete : Client -> nat -> string -> Outcome (option string).
Variable findall_code : string -> list string.
Variable py_compile : string -> Compile.

(** The code taken out of the answer. *)
Definition extract_code (generated_code : string) : string :=
  if str_in "```" generated_code then
    match findall_code generated_code with
    | m :: _ => strip m
    | [] => generated_code
    end
  else generated_code.

(** The body of the [try]; the model is called when the client is there
    and the prompt could be built. *)
Definition attempt_body (attempt : nat) : Outcome string :=
  match client with
  | None => Raise (value_error "OpenAI client is not initialized")
  | Some c =>
      prompt <- user_prompt ;;
      content <- llm_complete c attempt prompt ;;
      match content with
      | None => Raise not_iterable
      | Some generated_code =>
          let generated_code := extract_code generated_code in
          match py_compile generated_code with
          | RaisesOther e => Raise e
          | _ => Return generated_code
          end
      end
  end.

Definition calls_model : bool :=
  match client, user_prompt with
  | Some _, Return _ => true
  | _, _ => false
  end.

(** [for attempt in range(max_retries)], the attempts still to make
    being [todo]; the attempts that called the model are returned with
    the outcome, which is [None] when the loop ends without a
    [return]. *)
Fixpoint retry (max_retries : nat) (todo : list nat)
    : list nat * Outcome (option string) :=
  match todo with
  | [] => ([], Return None)
  | attempt :: rest =>
      let called := if calls_model then [attempt] else [] in
      match attempt_body attempt with
      | Return generated_code => (called, Return (Some generated_code))
      | Raise e =>
          if attempt <? max_retries - 1 then
            let (later, outcome) := retry max_retries rest in
            ((called ++ later)%list, outcome)
          else (called, Raise (failed_after max_retries e))
      end
  end.

(** In the source [max_retries = 2]. *)
Definition generate_python_sdk_code_v3_training
    : list nat * Outcome (option string) :=
  retry 2 (seq 0 2).

End Retry.

End Training.

(* ================================================================== *)
(** ** The properties of the specification *)
(* ================================================================== *)

Import SchemaFallback.

(** The keyword loop takes the primary key among the identifier columns
    of the frame, not among the columns it gives the dimension: with
    numeric identifiers the key of DimPatient is not one of its columns. *)
Lemma keyword_dimension_key_outside_columns :
  Dict.get (dimensions (_create_fallback_analysis df_visits)) "DimPatient"
  = Some {| columns := ["Patient_Name"]; primary_key := "Patient_ID" |}
  /\ ~ In "Patient_ID" ["Patient_Name"].
Proof.
  split; [reflexivity|]. intros [H|[]]. discriminate H.
Qed.

(** C1, as stated, fails: an identifier column named [Xunknown_ID] makes
    the fallback synthesise the dimension [DimXunknown], whose name
    contains the sentinel. *)
Lemma fallback_split_invariant_fails :
  dimensions (_create_fallback_analysis df_unknown)
  = [("DimXunknown",
      {| columns := ["Xunknown_ID"; "Xunknown_Name"];
         primary_key := "Xunknown_ID" |})]
  /\ PyStr.str_in "unknown" "DimXunknown" = true
  /\ ~ split_invariant (_create_fallback_analysis df_unknown).
Proof.
  split; [reflexivity|]. split; [reflexivity|].
  intros [H _].
  destruct (H "DimXunknown"
              {| columns := ["Xunknown_ID"; "Xunknown_Name"];
                 primary_key := "Xunknown_ID" |}) as [_ Hu].
  - left. reflexivity.
  - discriminate Hu.
Qed.

(** C1, amended: in the split of the fallback the dimension names are
    pairwise distinct, and every dimension either carries one of the
    seven fixed names of the keyword table, none of which contains the
    sentinel, or is synthesised from an identifier column of the frame:
    it is then named after that column, has it as primary key, and the
    key is one of its columns. *)
Theorem fallback_split_dimensions (df : DataFrame) :
  let a := _create_fallback_analysis df in
  NoDup (Dict.keys (dimensions a))
  /\ forall name info, In (name, info) (dimensions a) ->
       (In name (map fst dimension_keywords) /\ contains_unknown name = false)
       \/ (exists id_col,
             In id_col (filter is_id_column (map col_name df))
             /\ name = id_dim_name id_col
             /\ primary_key info = id_col
             /\ In (primary_key info) (columns info)).
Proof.
  intros a. destruct (fallback_dims_ok df) as [Hnd Hall]. split.
  - exact Hnd.
  - intros name info Hin. rewrite Forall_forall in Hall.
    exact (Hall _ Hin).
Qed.

(** C8, as stated, fails: with textual identifiers the key [Patient_ID]
    is mapped to DimPatient although the fact table declares only
    [Amount]. *)
Lemma fallback_foreign_key_outside_fact :
  fact_columns (_create_fallback_analysis df_text_ids) = ["Amount"]
  /\ Dict.get (foreign_keys (_create_fallback_analysis df_text_ids)) "Patient_ID"
     = Some "DimPatient"
  /\ ~ foreign_keys_follow_fact (_create_fallback_analysis df_text_ids).
Proof.
  split; [reflexivity|]. split; [reflexivity|].
  intros [H _].
  specialize (H "DimPatient"
                {| columns := ["Patient_ID"; "Patient_Name"];
                   primary_key := "Patient_ID" |}).
  destruct H as [H|[]].
  - left. reflexivity.
  - reflexivity.
  - discriminate H.
Qed.

(** C8, amended: an entry [k -> n] of foreignKeys exists only when [k]
    is a column of the input frame (not necessarily of the fact table)
    and [k] is the primary key of the dimension named [n] of the split,
    so that every value names a dimension of the split; and the primary
    key of every produced dimension has an entry. *)
Theorem fallback_foreign_keys (df : DataFrame) :
  let a := _create_fallback_analysis df in
  (forall k v, Dict.get (foreign_keys a) k = Some v ->
     In k (map col_name df)
     /\ exists info, Dict.get (dimensions a) v = Some info
                     /\ primary_key info = k)
  /\ (forall name info, Dict.get (dimensions a) name = Some info ->
        exists v, Dict.get (foreign_keys a) (primary_key info) = Some v).
Proof.
  intros a. destruct (fallback_fks_ok df) as [Hfk Hcov].
  destruct (fallback_dims_ok df) as [Hnd _].
  pose proof (fallback_pk_in_frame df) as Hpk.
  fold a in Hfk, Hcov, Hnd, Hpk. split.
  - intros k v Hget. apply Dict.get_In in Hget.
    rewrite Forall_forall in Hfk. destruct (Hfk _ Hget) as [Hk (info & Hin & Hp)].
    split; [exact Hk|]. exists info. split; [|exact Hp].
    now apply Dict.In_get.
  - intros name info Hget. apply Dict.get_In in Hget.
    apply Dict.keys_get. apply (Hcov name info Hget).
    rewrite Forall_forall in Hpk. exact (Hpk _ Hget).
Qed.

Import TypeFallback.



Import TransformScript.

(** The aggregate step as C4 words it, on the emitted lines: one
    [first] reduction for each column other than the key, none for the
    key. *)
Definition aggregate_as_claimed (dim_columns : list string) (pk : string)
    : Prop :=
  (forall c, In c dim_columns -> c <> pk ->
     count_occ string_dec (agg_cols dim_columns pk) (agg_entry (clean_col c)) = 1)
  /\ ~ In (agg_entry (clean_col pk)) (agg_cols dim_columns pk).

(** C4, as stated, fails: the key is compared with the columns before
    the names are cleaned, so that a key [Patient ID] next to a column
    [Patient_ID] gives [groupBy(Patient_ID)] together with the reduction
    [Patient_ID = first(Patient_ID)]: the step lists its own group-by
    column as an aggregate target. *)
Lemma aggregate_reduces_cleaned_key :
  pk_clean (primary_key (snd dim_clash)) "Patient ID" = "Patient_ID"
  /\ agg_cols (columns (snd dim_clash)) (primary_key (snd dim_clash))
     = ["     Patient_ID = first(Patient_ID)"]
  /\ ~ aggregate_as_claimed (columns (snd dim_clash))
                            (primary_key (snd dim_clash)).
Proof.
  split; [reflexivity|]. split; [reflexivity|].
  intros [_ H]. apply H. left. reflexivity.
Qed.

(** Likewise a dimension that lists the column [Name] twice gets the
    reduction [Name = first(Name)] twice. *)
Lemma aggregate_repeats_column :
  agg_cols (columns (snd dim_repeated)) (primary_key (snd dim_repeated))
  = ["     Name = first(Name)"; "     Name = first(Name)"]
  /\ ~ aggregate_as_claimed (columns (snd dim_repeated))
                            (primary_key (snd dim_repeated)).
Proof.
  split; [reflexivity|]. intros [H _].
  specialize (H "Name"). simpl in H.
  assert (Hin : "Patient_ID" = "Name" \/ "Name" = "Name" \/ "Name" = "Name" \/ False)
    by (right; left; reflexivity).
  assert (Hne : "Name" <> "Patient_ID") by discriminate.
  specialize (H Hin Hne). vm_compute in H. discriminate H.
Qed.

(** C4, amended: for every processed dimension whose key P and other
    columns have pairwise distinct names once cleaned, the chain holds
    the aggregate step that groups by the cleaned P and whose lines are
    one [first] reduction for each column other than P, each listed
    exactly once, and no reduction of P. *)
Theorem aggregate_step_lists_others (ctx : string) (ct : ColumnTypes)
    (dim_name : string) (info : DimInfo) (first_col : string)
    (rest : list string) :
  name_rejected dim_name = false ->
  columns info = first_col :: rest ->
  let pk := effective_primary_key (columns info) (primary_key info) first_col in
  pk <> "" ->
  NoDup (map clean_col (pk :: other_columns (columns info) pk)) ->
  In (aggregate_part dim_name (clean_col pk)
                     (join_lines (agg_cols (columns info) pk)))
     (dimension_chain ctx ct (dim_name, info))
  /\ (forall c, In c (columns info) -> c <> pk ->
        count_occ string_dec (agg_cols (columns info) pk)
                  (agg_entry (clean_col c)) = 1)
  /\ ~ In (agg_entry (clean_col pk)) (agg_cols (columns info) pk)
  /\ (forall e, In e (agg_cols (columns info) pk) ->
        exists c, In c (columns info) /\ c <> pk /\ e = agg_entry (clean_col c)).
Proof.
  intros Hname Hcols pk Hpk Hnd. repeat split.
  - pose proof (dimension_chain_aggregate ctx ct dim_name info first_col rest
                  Hname Hcols) as H.
    cbv zeta in H. fold pk in H. unfold pk_clean in H.
    apply String.eqb_neq in Hpk. rewrite Hpk in H. exact H.
  - intros c Hin Hne. now apply agg_cols_once.
  - now apply agg_cols_without_key.
  - intros e He. now apply agg_cols_only_others.
Qed.

Lemma aggregate_step_customer :
  agg_cols ["CustomerID"; "Name"; "Phone"] "CustomerID"
  = ["     Name = first(Name)"; "     Phone = first(Phone)"]
  /\ ~ In (agg_entry (clean_col "CustomerID"))
          (agg_cols ["CustomerID"; "Name"; "Phone"] "CustomerID").
Proof.
  split; [reflexivity|].
  refine (proj1 (proj2 (proj2
    (aggregate_step_lists_others "Data" [] "DimCustomer" (snd dim_customer)
       "CustomerID" ["Name"; "Phone"] eq_refl eq_refl _ _)))).
  - discriminate.
  - repeat constructor; simpl; intuition discriminate.
Defined.

(** The node counts as C5 words them, N being the number of dimensions
    of the split. *)
Definition node_counts_as_claimed (dimensions : Dict.t DimInfo)
    (parts : list Part) : Prop :=
  count_kind Select parts = S (List.length dimensions)
  /\ count_kind Aggregate parts = List.length dimensions
  /\ count_kind Sink parts = S (List.length dimensions).

Definition dims_with_unknown : Dict.t DimInfo :=
  [ ("DimUnknown", {| columns := ["Code"]; primary_key := "Code" |}) ].

(** C5, as stated, fails: a split whose only dimension is DimUnknown
    yields the select and the sink of the fact table and nothing else. *)
Lemma node_counts_skip_unknown :
  map kind (script_parts ["Code"; "Amount"] ["Amount"] dims_with_unknown []
                         [("FactSales", "dbo")] "Data")
  = [Source; Select; Sink]
  /\ ~ node_counts_as_claimed dims_with_unknown
         (script_parts ["Code"; "Amount"] ["Amount"] dims_with_unknown []
                       [("FactSales", "dbo")] "Data").
Proof.
  split; [reflexivity|]. intros [H _]. vm_compute in H. discriminate H.
Qed.

(** C5, amended: with fact columns and a fact table present, the script
    has exactly N+1 select nodes, N aggregate nodes and N+1 sink nodes,
    N being the number of dimensions that are processed: those whose name
    contains neither [unknown] nor [unk], whatever the case, and whose
    column list is not empty; N is the number of dimensions of the split
    when all are such. *)
Theorem node_counts_exact (csv_columns fact_columns : list string)
    (dimensions : Dict.t DimInfo) (ct : ColumnTypes)
    (fact_tables : list (string * string)) (ctx : string) :
  fact_columns <> [] -> fact_tables <> [] ->
  let parts := script_parts csv_columns fact_columns dimensions ct
                            fact_tables ctx in
  let n := List.length (filter processed dimensions) in
  count_kind Select parts = S n
  /\ count_kind Aggregate parts = n
  /\ count_kind Sink parts = S n
  /\ (forallb processed dimensions = true -> n = List.length dimensions).
Proof.
  intros Hc Ht parts n. unfold parts, script_parts.
  rewrite !count_kind_app.
  destruct (source_parts_counts csv_columns) as (S1 & S2 & S3).
  destruct (dimension_chains_counts ctx ct dimensions) as (D1 & D2 & D3).
  destruct (fact_chain_counts ctx ct fact_columns fact_tables Hc Ht)
    as (F1 & F2 & F3).
  rewrite S1, S2, S3, D1, D2, D3, F1, F2, F3. fold n.
  repeat split; try lia.
  intros Hall. unfold n. clear -Hall.
  induction dimensions as [|e l IH]; [reflexivity|].
  simpl in Hall |- *. apply andb_prop in Hall. destruct Hall as [He Hl].
  rewrite He. simpl. now rewrite IH.
Qed.

Lemma node_counts_customer :
  count_kind Select (script_parts ["CustomerID"; "Name"; "Phone"; "Amount"]
                       ["Amount"] [dim_customer] [] [("FactSales", "dbo")]
                       "Data") = 2.
Proof.
  refine (proj1 (node_counts_exact ["CustomerID"; "Name"; "Phone"; "Amount"]
                   ["Amount"] [dim_customer] [] [("FactSales", "dbo")] "Data"
                   _ _)); discriminate.
Defined.

Import Normalize.





Import Regex Validator Extract Regeneration.

(** *** Stand-ins for the outside of the validator and of the loop *)

(** A signature with both parameters, no SQL type in a cast, code that
    compiles, a model that accepts. *)
Definition found_signature (code : string) : option string :=
  Some "def deploy_complete_solution(self, sql_config, blob_config)".
Definition any_parameter (name signature : string) : bool := true.
Definition no_cast_types (code : string) : list string := [].
Definition compiles (code : string) : Compiled := CompileOk.
Definition accepting {Context : Type} (c : unit) (context : Context)
    (code : string) : Returned :=
  ReturnsDict {| is_valid := true; issues := []; issues_fault := None;
                 feedback := "Code is valid and ready for deployment.";
                 validation_details := None |}.

Definition empty_derive_code : string := "derive() ~> X".
Definition load_code : string := "Transformation(name='LoadDimPatient')".


Lemma load_code_lists : lists_load_transformation load_code.
Proof.
  exists "", "Transformation(name=", "'"%char, "Load", "DimPatient",
    "'"%char, "".
  repeat split. discriminate.
Qed.

(** C10: without a client the validator returns a passing verdict with
    no issue for every code, whatever the checks would find. *)
Theorem validation_skipped_without_client (Client Context : Type)
    (find_deploy_signature : string -> option string)
    (has_parameter : string -> string -> bool)
    (cast_sql_types : string -> list string)
    (py_compile : string -> Compiled)
    (ai_validation : Client -> Context -> string -> Returned)
    (context : Context) (generated_code : string) :
  validate_generated_code Client Context find_deploy_signature has_parameter
    cast_sql_types py_compile ai_validation None context generated_code
  = ReturnsDict skipped_verdict
  /\ is_valid skipped_verdict = true
  /\ issues skipped_verdict = [].
Proof. repeat split. Qed.





(** The script of the customer dimension and a fact table. *)
Definition customer_script : string :=
  _generate_transform_dataflow_script
    ["CustomerID"; "Name"; "Phone"; "Amount"] ["Amount"] [dim_customer] []
    [("FactSales", "dbo")] "Data".

Lemma customer_script_extracted :
  _extract_transformations_from_script customer_script
  = ["SelectDimCustomer"; "AggregateDimCustomer"; "SelectFactSales"].
Proof. vm_compute. reflexivity. Qed.

(** [_generate_transform_dataflow_method_code], the function that writes
    the list of transformations of the generated program, does not call
    the extraction: it keeps every name bound by [~>] but StagingSource,
    the sinks included, and so writes what the validator reports. *)
Lemma method_code_lists_sinks :
  unique_transformations customer_script
  = ["SelectDimCustomer"; "AggregateDimCustomer"; "LoadDimCustomer";
     "SelectFactSales"; "LoadFactSales"]
  /\ search load_in_transformations_pattern
       (String.concat "" (transformation_lines customer_script)) = true.
Proof. split; vm_compute; reflexivity. Qed.

(** The report of a sink among the transformations as C9 words it. *)
Definition load_reported (r : Returned) : Prop :=
  exists v, r = ReturnsDict v /\ is_valid v = false /\ In load_issue (issues v).

(** C9, as stated, fails: without a client the validator does not flag
    code that lists a Load name as a transformation. *)
Lemma load_unreported_without_client :
  lists_load_transformation load_code
  /\ validate_generated_code unit unit found_signature any_parameter
       no_cast_types compiles accepting None tt load_code
     = ReturnsDict skipped_verdict
  /\ ~ load_reported
         (validate_generated_code unit unit found_signature any_parameter
            no_cast_types compiles accepting None tt load_code).
Proof.
  split; [exact load_code_lists|]. split; [reflexivity|].
  intros (v & Hv & Hvalid & _). injection Hv as <-. discriminate Hvalid.
Qed.

(** C9, amended: the names extracted from any script are pairwise
    distinct, none starts with [Load] nor is a source or staging name, so
    none is the name of a sink; in the generated script no transformation
    node is named as a sink node and, the names of the dimensions being
    distinct and the fact table not named as one of them, no
    transformation name is bound twice and every sink reads a
    transformation bound exactly once; and the validator, when the client
    is present and [compile] raises nothing but a syntax error, gives
    code that lists a Load name as a transformation a failing verdict
    with the Load issue exactly once. *)
Theorem transformations_and_sinks_disjoint :
  (forall script,
     NoDup (_extract_transformations_from_script script)
     /\ forall t, In t (_extract_transformations_from_script script) ->
          PyStr.startswith t "Load" = false
          /\ ~ In t exclude_patterns
          /\ forall table, t <> "Load" ++ table)
  /\ (forall csv_columns fact_columns dims ct fact_tables ctx,
        let parts := script_parts csv_columns fact_columns dims ct
                                  fact_tables ctx in
        (forall n, In n (transformation_names parts) ->
           ~ In n (sink_names parts))
        /\ (NoDup (Dict.keys dims) ->
            (forall t sch rest, fact_tables = (t, sch) :: rest ->
               ~ In t (Dict.keys dims)) ->
            NoDup (transformation_names parts)
            /\ forall p, In p parts -> is_sink p = true ->
                 count_occ string_dec (transformation_names parts)
                           (upstream p) = 1))
  /\ (forall (Client Context : Type) find_deploy_signature has_parameter
             cast_sql_types py_compile
             (ai_validation : Client -> Context -> string -> Returned)
             (c : Client) (context : Context) (generated_code : string),
        lists_load_transformation generated_code ->
        (forall msg, py_compile generated_code <> CompileRaises msg) ->
        exists v,
          validate_generated_code Client Context find_deploy_signature
            has_parameter cast_sql_types py_compile ai_validation (Some c)
            context generated_code
          = ReturnsDict v
          /\ is_valid v = false
          /\ count_occ string_dec (issues v) load_issue = 1).
Proof.
  split; [|split].
  - intros script. destruct (extracted_names_ok script) as [Hnd Hall].
    split; [exact Hnd|]. intros t Ht. rewrite Forall_forall in Hall.
    destruct (Hall _ Ht) as [Hload Hex]. repeat split; auto.
    intros table ->. rewrite startswith_append in Hload. discriminate Hload.
  - intros csv_columns fact_columns dims ct fact_tables ctx parts. split.
    + intros n. apply script_names_disjoint.
    + intros Hnd Hfact. now apply script_sinks_read_once.
  - intros Client Context fds hp cst pc ai c context generated_code Hl Hcomp.
    apply load_transformation_found in Hl.
    pose proof (count_load fds hp cst pc generated_code) as Hcount.
    rewrite Hl in Hcount.
    destruct (validate_pre_checks Client Context fds hp cst pc ai c context
                generated_code load_issue) as (v & Hv & Hvalid & Hissues).
    + now apply load_not_blank.
    + exact Hcomp.
    + apply (count_occ_In string_dec). rewrite Hcount. lia.
    + exists v. rewrite Hissues. auto.
Qed.

(** *** The regeneration loop *)


(** A model whose code always holds an empty derive: both attempts fail
    and the second one is returned. *)
Definition stubborn_run : list (Event unit) * Outcome (Result unit) :=
  regeneration_loop unit unit (Some tt)
    (fun _ _ _ => PlanDict tt true)
    (fun _ _ _ _ => Return empty_derive_code)
    found_signature any_parameter no_cast_types compiles accepting
    2 (PlanDict tt true).


Lemma stubborn_run_result :
  exists r, snd stubborn_run = Return r
            /\ code r = empty_derive_code
            /\ attempt_count r = 2
            /\ final_validation_status r = false
            /\ issues (validation_result r) = [empty_derive_issue].
Proof. eexists. repeat split. Qed.

(* ================================================================== *)
(** ** Further properties of the code *)
(* ================================================================== *)

(** *** The fallback split *)

(** X1: the fact columns of the fallback split are columns of the frame,
    at most fifty of them, and at least one when the frame has a
    column. *)
Theorem fallback_fact_columns_bounded (df : DataFrame) :
  let a := _create_fallback_analysis df in
  incl (fact_columns a) (map col_name df)
  /\ List.length (fact_columns a) <= 50
  /\ (df <> [] -> fact_columns a <> []).
Proof.
  intros a. unfold a. rewrite fallback_fact_columns_eq. cbv zeta.
  set (fact2 := if is_empty (loop_facts df)
                then firstn 20 (frame_numeric df) else loop_facts df).
  assert (Hincl : incl fact2 (frame_columns df)).
  { unfold fact2. destruct (is_empty (loop_facts df)).
    - intros x Hx. apply In_firstn in Hx. now apply frame_numeric_incl.
    - apply loop_facts_incl. }
  destruct (is_empty fact2) eqn:E.
  - split; [apply incl_firstn|]. split.
    + etransitivity; [apply firstn_le_length | lia].
    + intros Hdf. apply firstn_nonempty. unfold frame_columns.
      destruct df; [contradiction | discriminate].
  - split; [intros x Hx; apply In_firstn in Hx; now apply Hincl|]. split.
    + apply firstn_le_length.
    + intros _. apply firstn_nonempty. destruct fact2; [discriminate E | discriminate].
Qed.

(** X2: every dimension of the fallback split has at least one column,
    all its columns are columns of the frame, and so is its primary
    key. *)
Theorem fallback_dimension_columns (df : DataFrame) (name : string)
    (info : DimInfo) :
  In (name, info) (dimensions (_create_fallback_analysis df)) ->
  columns info <> []
  /\ incl (columns info) (map col_name df)
  /\ In (primary_key info) (map col_name df).
Proof.
  intros Hin.
  pose proof (fallback_dims_columns df) as Hc.
  pose proof (fallback_pk_in_frame df) as Hp.
  rewrite Forall_forall in Hc, Hp.
  destruct (Hc _ Hin) as [Hne Hincl]. repeat split; auto.
  exact (Hp _ Hin).
Qed.

Lemma fallback_dimension_columns_visits :
  columns {| columns := ["Doctor_Name"]; primary_key := "Doctor_ID" |} <> []
  /\ incl ["Doctor_Name"] (map col_name df_visits)
  /\ In "Doctor_ID" (map col_name df_visits).
Proof.
  apply (fallback_dimension_columns df_visits "DimDoctor"
           {| columns := ["Doctor_Name"]; primary_key := "Doctor_ID" |}).
  right. left. reflexivity.
Defined.

(** X3: the fallback split has no dimension exactly when the frame has
    no identifier column (a name ending in [_id], whatever the case) and
    no text column whose name holds a keyword of the table. *)
Theorem fallback_no_dimension (df : DataFrame) :
  dimensions (_create_fallback_analysis df) = []
  <-> frame_ids df = []
      /\ forall entry, In entry dimension_keywords ->
           filter (matches_any (snd entry)) (frame_texts df) = [].
Proof.
  rewrite <- (keyword_fold_empty (frame_ids df) (frame_texts df)
                dimension_keywords).
  change (fold_left (keyword_step (frame_ids df) (frame_texts df))
            dimension_keywords [])
    with (keyword_dims df).
  rewrite fallback_dimensions_eq. unfold loop_dims.
  destruct (frame_ids df) as [|first_id ids] eqn:Eids.
  - cbn [is_empty negb]. rewrite andb_false_r.
    destruct (is_empty (keyword_dims df)); tauto.
  - split; [|intros [H _]; discriminate H].
    intros H. exfalso. revert H.
    match goal with |- context [is_empty ?d] => destruct (is_empty d) eqn:E end.
    + apply set_nonempty.
    + intros H. rewrite H in E. discriminate E.
Qed.

(** X4: when the frame has at most fifty columns, the fallback split
    loses none of them: every column is a fact column or a column of
    some dimension. *)
Theorem fallback_covers_frame (df : DataFrame) (c : string) :
  List.length df <= 50 ->
  In c (map col_name df) ->
  let a := _create_fallback_analysis df in
  In c (fact_columns a)
  \/ exists name info, In (name, info) (dimensions a) /\ In c (columns info).
Proof.
  intros Hlen Hc a. unfold a.
  assert (Hdims : forall n d, In (n, d) (loop_dims df) ->
                    In (n, d) (dimensions (_create_fallback_analysis df))).
  { intros n d Hin. rewrite fallback_dimensions_eq.
    destruct (is_empty (loop_dims df)) eqn:E; [|exact Hin].
    apply is_empty_true in E. rewrite E in Hin. destruct Hin. }
  destruct (loop_covers df c Hc) as [Hf|(n & d & Hin & Hcol)].
  - left. rewrite fallback_fact_columns_eq. cbv zeta.
    destruct (is_empty (loop_facts df)) eqn:E.
    + apply is_empty_true in E. rewrite E in Hf. destruct Hf.
    + rewrite E. rewrite firstn_all2; [exact Hf|].
      pose proof (loop_facts_length df). lia.
  - right. exists n, d. auto.
Qed.

Lemma fallback_covers_visits :
  In "Visit_Date" (fact_columns (_create_fallback_analysis df_visits))
  \/ exists name info,
       In (name, info) (dimensions (_create_fallback_analysis df_visits))
       /\ In "Visit_Date" (columns info).
Proof.
  apply (fallback_covers_frame df_visits "Visit_Date").
  - simpl. lia.
  - simpl. tauto.
Defined.

(** *** The fallback types *)


(** *** The data flow script *)

(** X6: cleaning a column name replaces each space, hyphen and full stop
    by an underscore and leaves every other character as it is: the
    result has the length of the name and none of the three characters,
    a name without them is unchanged, and cleaning twice is cleaning
    once. *)
Theorem clean_col_characters (c : string) :
  clean_col c = PyStr.map_chars clean_char c
  /\ String.length (clean_col c) = String.length c
  /\ PyStr.all_chars (fun x => negb (is_separator x)) (clean_col c) = true
  /\ (PyStr.all_chars (fun x => negb (is_separator x)) c = true ->
      clean_col c = c)
  /\ clean_col (clean_col c) = clean_col c.
Proof.
  assert (Hsolid : PyStr.all_chars (fun x => negb (is_separator x))
                     (clean_col c) = true).
  { rewrite clean_col_map.
    apply (PyStr.all_chars_map_chars (fun x => negb (is_separator x))).
    apply clean_char_solid. }
  assert (Hfix : forall s,
             PyStr.all_chars (fun x => negb (is_separator x)) s = true ->
             clean_col s = s).
  { intros s Hs. rewrite clean_col_map.
    apply (PyStr.map_chars_fixed (fun x => negb (is_separator x))); [|exact Hs].
    apply clean_char_fixed. }
  split; [apply clean_col_map|]. split.
  - rewrite clean_col_map. apply PyStr.map_chars_length.
  - split; [exact Hsolid|]. split; [apply Hfix | apply Hfix, Hsolid].
Qed.

(** X7: the chain of a dimension holds a cast or a derive, never both;
    it holds a derive exactly when the dimension is processed, no cast
    is needed and a derive is needed, and a cast exactly when the
    dimension is processed, a cast is needed and some column gets a cast
    line. *)
Theorem dimension_chain_one_conversion (ctx : string) (ct : ColumnTypes)
    (dim_name : string) (info : DimInfo) :
  let chain := dimension_chain ctx ct (dim_name, info) in
  let cols := columns info in
  count_kind Cast chain + count_kind Derive chain <= 1
  /\ (count_kind Derive chain = 1 <->
      processed (dim_name, info) = true
      /\ dim_cast_needed ctx ct dim_name cols = false
      /\ dim_derive_needed ctx dim_name cols = true)
  /\ (count_kind Cast chain = 1 <->
      processed (dim_name, info) = true
      /\ dim_cast_needed ctx ct dim_name cols = true
      /\ dim_cast_cols ctx ct dim_name cols <> []).
Proof.
  cbv zeta. destruct (processed (dim_name, info)) eqn:Hp.
  - destruct (dimension_chain_cases ctx ct dim_name info Hp)
      as (so & pkc & ao & ->).
    destruct (dim_cast_needed ctx ct dim_name (columns info)).
    + destruct (dim_cast_cols ctx ct dim_name (columns info)) eqn:Ec;
        cbn [is_empty]; cbn; (split; [lia|]); split; split;
        try (intros H; discriminate H);
        try (intros (_ & H & _); discriminate H);
        try (intros (_ & _ & H); now elim H);
        intros _; repeat split; discriminate.
    + destruct (dim_derive_needed ctx dim_name (columns info));
        cbn; (split; [lia|]); split; split;
        try (intros H; discriminate H);
        try (intros (_ & H & _); discriminate H);
        try (intros (_ & _ & H); discriminate H);
        intros _; repeat split.
  - rewrite (dimension_chain_unprocessed ctx ct _ Hp). cbn.
    split; [lia|]. split; split;
      try (intros H; discriminate H); intros (H & _); discriminate H.
Qed.

(** X8: every line of a cast step names a column of the table, cleaned,
    and one of the types integer, decimal(18,2), date and timestamp; a
    column gets at most one line. *)
Theorem cast_lines_typed (ctx : string) (ct : ColumnTypes)
    (dim_name : string) (cols : list string) (line : string) :
  (In line (dim_cast_cols ctx ct dim_name cols)
   \/ In line (fact_cast_cols ctx ct cols) ->
   exists col ty,
     In col cols /\ In ty cast_types
     /\ line = "      " ++ clean_col col ++ " as " ++ ty)
  /\ List.length (dim_cast_cols ctx ct dim_name cols) <= List.length cols
  /\ List.length (fact_cast_cols ctx ct cols) <= List.length cols.
Proof.
  assert (Hlen : forall c, List.length (agent2_cast ct c) <= 1).
  { intros c. destruct (agent2_cast_line ct c) as [->|(ty & _ & ->)];
      simpl; lia. }
  split; [|split].
  - intros [H|H].
    + now apply dim_cast_cols_line in H.
    + now apply fact_cast_cols_line in H.
  - unfold dim_cast_cols. apply flat_map_at_most_one. intros c. cbv zeta.
    destruct (_ && _); [simpl; lia | apply Hlen].
  - unfold fact_cast_cols. apply flat_map_at_most_one. intros c. cbv zeta.
    repeat match goal with
           | |- context [if ?b then _ else _] => destruct b
           end; try (simpl; lia); apply Hlen.
Qed.



(** X10: when the CSV has a column, the parts of the script come in
    dependency order: the first is the source, and every other part
    reads a stream bound by a part before it. *)
Theorem script_streams_in_order (csv_columns fact_columns : list string)
    (dims : Dict.t DimInfo) (ct : ColumnTypes)
    (fact_tables : list (string * string)) (ctx : string) :
  csv_columns <> [] ->
  streams_bound []
    (script_parts csv_columns fact_columns dims ct fact_tables ctx).
Proof.
  intros Hcsv. unfold script_parts.
  destruct csv_columns as [|c cs]; [contradiction|].
  cbn [source_parts app streams_bound source_part kind target].
  split; [now left|].
  apply streams_bound_app; [apply chains_bound; now left|].
  destruct (fact_chain_shape ctx ct fact_columns fact_tables)
    as [E|(t & sch & rest & _ & Hs)].
  - rewrite E. exact I.
  - apply (fact_shape_bound t); [exact Hs | now left].
Qed.

Lemma script_streams_in_order_customer :
  ["CustomerID"; "Name"; "Phone"; "Amount"] <> []
  /\ streams_bound []
       (script_parts ["CustomerID"; "Name"; "Phone"; "Amount"] ["Amount"]
                     [dim_customer] [] [("FactSales", "dbo")] "Data").
Proof.
  split; [discriminate|].
  apply (script_streams_in_order ["CustomerID"; "Name"; "Phone"; "Amount"]).
  discriminate.
Defined.

(** X11: when the list of CSV columns is empty, no part binds
    [StagingSource], yet every select step reads it: the script that has
    a part refers to a stream it does not define. *)
Theorem script_without_source (fact_columns : list string)
    (dims : Dict.t DimInfo) (ct : ColumnTypes)
    (fact_tables : list (string * string)) (ctx : string) :
  let parts := script_parts [] fact_columns dims ct fact_tables ctx in
  (forall p, In p parts -> target p <> "StagingSource")
  /\ (forall p, In p parts -> kind p = Select -> upstream p = "StagingSource")
  /\ (parts <> [] -> ~ streams_bound [] parts).
Proof.
  cbv zeta. unfold script_parts. cbn [source_parts app].
  assert (Hall : forall p,
             In p (dimension_chains ctx ct dims
                   ++ fact_chain ctx ct fact_columns fact_tables)%list ->
             (exists t, tagged t (target p) \/ target p = "Load" ++ t)
             /\ (kind p = Select -> upstream p = "StagingSource")).
  { intros p Hp. apply in_app_iff in Hp. destruct Hp as [Hp|Hp].
    - unfold dimension_chains in Hp. apply in_flat_map in Hp.
      destruct Hp as (e & _ & Hp).
      destruct (dimension_chain_shape ctx ct e) as [E|Hs].
      + rewrite E in Hp. destruct Hp.
      + destruct (chain_shape_targets _ _ _ Hs Hp) as [H1 H2]. eauto.
    - destruct (fact_chain_shape ctx ct fact_columns fact_tables)
        as [E|(t & sch & rest & _ & Hs)].
      + rewrite E in Hp. destruct Hp.
      + destruct (fact_shape_targets _ _ _ Hs Hp) as [H1 H2]. eauto. }
  split; [|split].
  - intros p Hp. destruct (Hall p Hp) as [(t & Ht) _].
    now apply (tagged_not_staging t).
  - intros p Hp. now apply Hall.
  - intros Hne Hb.
    destruct (dimension_chains ctx ct dims
              ++ fact_chain ctx ct fact_columns fact_tables)%list
      as [|p rest] eqn:E; [now apply Hne|].
    cbn [streams_bound] in Hb. destruct Hb as [[Hk|[]] _].
    assert (Hp : In p (p :: rest)) by now left.
    rewrite <- E in Hp. apply in_app_iff in Hp. destruct Hp as [Hp|Hp].
    + unfold dimension_chains in Hp. apply in_flat_map in Hp.
      destruct Hp as (e & _ & Hp).
      destruct (dimension_chain_shape ctx ct e) as [E'|Hs].
      * rewrite E' in Hp. destruct Hp.
      * destruct Hs; simpl in Hp;
          repeat (destruct Hp as [<-|Hp]; [discriminate Hk|]); destruct Hp.
    + destruct (fact_chain_shape ctx ct fact_columns fact_tables)
        as [E'|(t & sch & rest' & _ & Hs)].
      * rewrite E' in Hp. destruct Hp.
      * destruct Hs; simpl in Hp;
          repeat (destruct Hp as [<-|Hp]; [discriminate Hk|]); destruct Hp.
Qed.

(** *** The context keyword and the healthcare rules *)

Import ContextKeyword.

(** X12: with the keyword that [_derive_context_keyword] gives, the
    healthcare rules for the dimensions are on exactly when the column
    names hold hospital, patient, doctor or healthcare; those for the
    fact table are on exactly when they hold hospital or patient, or
    hold healthcare and not doctor.  A CSV that names a doctor and
    neither a hospital nor a patient gets the rules for its dimensions
    and not for its fact table. *)
Theorem healthcare_rules_from_columns (csv_columns fact_columns : list string)
    (dimensions : Dict.t DimInfo) :
  let keyword := _derive_context_keyword csv_columns fact_columns dimensions in
  let text := all_text csv_columns in
  dim_is_healthcare keyword
  = (PyStr.str_in "hospital" text || PyStr.str_in "patient" text
     || PyStr.str_in "doctor" text || PyStr.str_in "healthcare" text)
  /\ fact_is_healthcare keyword
     = (PyStr.str_in "hospital" text || PyStr.str_in "patient" text
        || (negb (PyStr.str_in "doctor" text)
            && PyStr.str_in "healthcare" text)).
Proof.
  cbv zeta. unfold _derive_context_keyword.
  generalize (all_text csv_columns) as text.
  intros text. unfold keywords. cbn [find].
  destruct (PyStr.str_in "hospital" text); [split; reflexivity|].
  destruct (PyStr.str_in "patient" text); [split; reflexivity|].
  destruct (PyStr.str_in "doctor" text); [split; reflexivity|].
  destruct (PyStr.str_in "healthcare" text); [split; reflexivity|].
  repeat match goal with
         | |- context [PyStr.str_in ?k text] =>
             destruct (PyStr.str_in k text); [split; reflexivity|]
         end.
  split; reflexivity.
Qed.

(** *** The fallback decision for a single table *)

Import SingleTable.

(** X13: every entry of [csv_columns_mapping] in the fallback decision
    pairs a CSV column, whose name is not empty, with a table column
    that has the same name up to case and underscores; no CSV column is
    mapped twice. *)
Theorem single_table_mapping_sound (name : string)
    (table_columns csv_columns : list string)
    (datatype_columns : DatatypeColumns) (csv_col table_col : string) :
  let d := _create_fallback_single_table_decision
             name table_columns csv_columns datatype_columns in
  (In (csv_col, table_col) (csv_columns_mapping d) ->
   csv_col <> "" /\ In csv_col csv_columns /\ In table_col table_columns
   /\ PyStr.lower (PyStr.replace "_" "" csv_col)
      = PyStr.lower (PyStr.replace "_" "" table_col))
  /\ NoDup (Dict.keys (csv_columns_mapping d)).
Proof.
  cbv zeta. unfold _create_fallback_single_table_decision, table_loop.
  destruct (fold_left (table_step csv_columns datatype_columns)
                      table_columns ([], [])) as [casts mapping] eqn:E.
  cbn [csv_columns_mapping].
  assert (Hm : mapping
               = snd (fold_left (table_step csv_columns datatype_columns)
                                table_columns ([], []))) by now rewrite E.
  split.
  - intros Hin.
    assert (HF : Forall (fun e : string * string =>
                   fst e <> "" /\ In (fst e) csv_columns
                   /\ In (snd e) table_columns
                   /\ PyStr.lower (PyStr.replace "_" "" (fst e))
                      = PyStr.lower (PyStr.replace "_" "" (snd e))) mapping).
    { rewrite Hm. apply fold_mapping_sound; [|constructor].
      intros c t Ht Hc Hne. cbn [fst snd].
      apply matching_csv_col_sound in Hc. destruct Hc as [Hc Hf].
      repeat split; try assumption. now apply String.eqb_eq. }
    rewrite Forall_forall in HF. exact (HF _ Hin).
  - rewrite Hm. clear E Hm. generalize (@nil (string * string)) at 1 as casts0.
    assert (Hnil : NoDup (Dict.keys (@nil (string * string)))) by constructor.
    revert Hnil. generalize (@nil (string * string)) as mapping0.
    induction table_columns as [|t ts IH]; intros mapping0 Hnd casts0;
      [exact Hnd|].
    cbn [fold_left].
    destruct (table_step csv_columns datatype_columns (casts0, mapping0) t)
      as [casts1 mapping1] eqn:Es.
    apply IH.
    assert (H1 : mapping1
                 = snd (table_step csv_columns datatype_columns
                                   (casts0, mapping0) t)) by now rewrite Es.
    rewrite H1, table_step_mapping. cbn [snd].
    destruct (truthy _); [|exact Hnd].
    destruct (matching_csv_col csv_columns t); [|exact Hnd].
    now apply Dict.NoDup_keys_set.
Qed.

(** X14: when no CSV column has the empty name, a table column whose
    name some CSV column has, up to case and underscores, is served: the
    mapping holds a CSV column with that name. *)
Theorem single_table_mapping_complete (name : string)
    (table_columns csv_columns : list string)
    (datatype_columns : DatatypeColumns) (csv_col table_col : string) :
  ~ In "" csv_columns ->
  In table_col table_columns -> In csv_col csv_columns ->
  PyStr.lower (PyStr.replace "_" "" csv_col)
  = PyStr.lower (PyStr.replace "_" "" table_col) ->
  exists served,
    In served (Dict.keys (csv_columns_mapping
                 (_create_fallback_single_table_decision
                    name table_columns csv_columns datatype_columns)))
    /\ PyStr.lower (PyStr.replace "_" "" served)
       = PyStr.lower (PyStr.replace "_" "" table_col).
Proof.
  intros Hne Ht Hc Heq.
  unfold _create_fallback_single_table_decision, table_loop.
  destruct (fold_left (table_step csv_columns datatype_columns)
                      table_columns ([], [])) as [casts mapping] eqn:E.
  cbn [csv_columns_mapping].
  assert (Hm : mapping
               = snd (fold_left (table_step csv_columns datatype_columns)
                                table_columns ([], []))) by now rewrite E.
  assert (Hf : fuzzy_eqb csv_col table_col = true).
  { unfold fuzzy_eqb. rewrite Heq. apply String.eqb_refl. }
  pose proof (matching_csv_col_complete csv_columns table_col csv_col
                Hne Hc Hf) as Htr.
  apply truthy_Some in Htr. destruct Htr as (served & Hs & Hn).
  exists served. split.
  - rewrite Hm. apply fold_mapping_keys. right. exists table_col. auto.
  - apply matching_csv_col_sound in Hs. destruct Hs as [_ Hs].
    now apply String.eqb_eq.
Qed.

Lemma single_table_mapping_complete_orders :
  exists served,
    In served (Dict.keys (csv_columns_mapping
                 (_create_fallback_single_table_decision
                    "Orders" ["OrderID"; "Amount"] ["order_id"; "amount"]
                    None)))
    /\ PyStr.lower (PyStr.replace "_" "" served)
       = PyStr.lower (PyStr.replace "_" "" "OrderID").
Proof.
  apply (single_table_mapping_complete "Orders" ["OrderID"; "Amount"]
           ["order_id"; "amount"] None "order_id" "OrderID").
  - simpl. intros [H|[H|[]]]; discriminate H.
  - simpl. tauto.
  - simpl. tauto.
  - reflexivity.
Defined.

(** X15: in the fallback decision a table column has a cast exactly when
    it is a column of the table, it is matched with a CSV column and the
    type recommended for that column names one; the cast is that of its
    own match, one of the four types; the activities are select and cast
    when some column has a cast, and select alone otherwise. *)
Theorem single_table_casts (name : string)
    (table_columns csv_columns : list string)
    (datatype_columns : DatatypeColumns) :
  let d := _create_fallback_single_table_decision
             name table_columns csv_columns datatype_columns in
  (forall t, Dict.get (cast_columns d) t
             = if PyStr.mem t table_columns
               then column_cast csv_columns datatype_columns t else None)
  /\ (forall t ty, Dict.get (cast_columns d) t = Some ty ->
        In ty ["integer"; "decimal(18,2)"; "date"; "timestamp"])
  /\ activities d
     = if existsb (fun t => match column_cast csv_columns datatype_columns t
                            with Some _ => true | None => false end)
                  table_columns
       then ["select"; "cast"] else ["select"].
Proof.
  cbv zeta. unfold _create_fallback_single_table_decision, table_loop.
  destruct (fold_left (table_step csv_columns datatype_columns)
                      table_columns ([], [])) as [casts mapping] eqn:E.
  cbn [cast_columns activities].
  assert (Hget : forall t, Dict.get casts t
                   = if PyStr.mem t table_columns
                     then column_cast csv_columns datatype_columns t
                     else None).
  { intros t.
    replace casts
      with (fst (fold_left (table_step csv_columns datatype_columns)
                           table_columns ([], []))) by now rewrite E.
    rewrite fold_casts_get. cbn [fst Dict.get].
    destruct (PyStr.mem t table_columns); [|reflexivity].
    now destruct (column_cast csv_columns datatype_columns t). }
  split; [exact Hget|]. split.
  - intros t ty Ht. rewrite Hget in Ht.
    destruct (PyStr.mem t table_columns); [|discriminate Ht].
    unfold column_cast in Ht. destruct (truthy _); [|discriminate Ht].
    destruct (matching_csv_col csv_columns t) as [c|]; [|discriminate Ht].
    unfold recommended_cast in Ht.
    destruct datatype_columns as [cols|]; [|discriminate Ht].
    destruct (Dict.get cols c) as [raw|]; [|discriminate Ht].
    unfold cast_type in Ht. cbv zeta in Ht.
    repeat match type of Ht with
           | (if ?b then _ else _) = _ => destruct b
           end;
      try discriminate Ht; injection Ht as <-; simpl; tauto.
  - destruct (existsb _ table_columns) eqn:Ex.
    + apply existsb_exists in Ex. destruct Ex as (t & Ht & Hc).
      specialize (Hget t). apply PyStr.mem_In in Ht. rewrite Ht in Hget.
      destruct (column_cast csv_columns datatype_columns t);
        [|discriminate Hc].
      destruct casts; [discriminate Hget | reflexivity].
    + destruct casts as [|[t ty] casts]; [reflexivity|]. exfalso.
      specialize (Hget t). cbn [Dict.get] in Hget.
      rewrite String.eqb_refl in Hget.
      destruct (PyStr.mem t table_columns) eqn:Hm; [|discriminate Hget].
      apply PyStr.mem_In in Hm.
      rewrite <- not_true_iff_false in Ex. apply Ex.
      apply existsb_exists. exists t. split; [exact Hm|].
      now rewrite <- Hget.
Qed.

(** *** The retry loop of the training-based generation *)

Import Training.

(** X16: [generate_python_sdk_code_v3_training] returns the code of the
    first of its two attempts that raises nothing, whether or not that
    code compiles, the model being called again only after a first
    attempt that raised; it raises, an [Exception] with the message of
    the second attempt, exactly when both attempts raise; it never ends
    without a value; and without a client it raises without calling the
    model. *)
Theorem training_retries_once (Client : Type) (client : option Client)
    (user_prompt : Outcome string)
    (llm_complete : Client -> nat -> string -> Outcome (option string))
    (findall_code : string -> list string) (py_compile : string -> Compile) :
  let body := attempt_body Client client user_prompt llm_complete
                findall_code py_compile in
  let run := generate_python_sdk_code_v3_training Client client user_prompt
               llm_complete findall_code py_compile in
  (forall code, body 0 = Return code ->
     snd run = Return (Some code) /\ List.length (fst run) <= 1
     /\ ~ In 1 (fst run))
  /\ (forall e code, body 0 = Raise e -> body 1 = Return code ->
        snd run = Return (Some code))
  /\ (forall e0 e1, body 0 = Raise e0 -> body 1 = Raise e1 ->
        snd run = Raise {| exn_type := "Exception";
                           exn_msg := "Code generation failed after 2 attempts: "
                                      ++ exn_msg e1 |})
  /\ snd run <> Return None
  /\ List.length (fst run) <= 2
  /\ (forall attempt generated,
        (exists c prompt,
           client = Some c /\ user_prompt = Return prompt
           /\ llm_complete c attempt prompt = Return (Some generated)
           /\ forall e, py_compile (extract_code findall_code generated)
                        <> RaisesOther e) ->
        body attempt = Return (extract_code findall_code generated))
  /\ (client = None ->
      fst run = []
      /\ snd run = Raise {| exn_type := "Exception";
                            exn_msg := "Code generation failed after 2 attempts: OpenAI client is not initialized" |}).
Proof.
  cbv zeta. unfold generate_python_sdk_code_v3_training.
  change (List.seq 0 2) with [0; 1]. cbn [retry Nat.ltb Nat.leb Nat.sub].
  set (body := attempt_body Client client user_prompt llm_complete
                 findall_code py_compile).
  set (called := calls_model Client client user_prompt).
  split; [|split; [|split; [|split; [|split; [|split]]]]].
  - intros code H. rewrite H. cbn [fst snd].
    split; [reflexivity|].
    destruct called; cbn; split; try lia; intros [H1|[]]; discriminate H1.
  - intros e code H0 H1. rewrite H0, H1. reflexivity.
  - intros e0 e1 H0 H1. rewrite H0, H1. reflexivity.
  - destruct (body 0); [discriminate|]. destruct (body 1); discriminate.
  - destruct (body 0); [destruct called; cbn; lia|].
    destruct (body 1); destruct called; cbn; lia.
  - intros attempt generated (c & prompt & Hc & Hp & Hl & Hcomp).
    unfold body, attempt_body. rewrite Hc, Hp. cbn [bind]. rewrite Hl.
    cbn [bind]. cbv zeta.
    destruct (py_compile (extract_code findall_code generated)) as [|msg|e]
      eqn:E; [reflexivity | reflexivity | now elim (Hcomp e)].
  - intros Hnone. unfold body, called, attempt_body, calls_model.
    rewrite Hnone. split; reflexivity.
Qed.

(** *** The validator *)

(** X17: with a client, a verdict that passes is the verdict of the
    model, and the code it is about has passed every pre-check: it is
    not blank, the deployment method is found with both parameters, no
    cast names an SQL type, [compile] accepts it, it holds no empty
    derive and lists no sink among its transformations. *)
Theorem passing_verdict_passed_checks (Client Context : Type)
    (find_deploy_signature : string -> option string)
    (has_parameter : string -> string -> bool)
    (cast_sql_types : string -> list string)
    (py_compile : string -> Compiled)
    (ai_validation : Client -> Context -> string -> Returned)
    (c : Client) (context : Context) (code : string) (v : Verdict) :
  validate_generated_code Client Context find_deploy_signature has_parameter
    cast_sql_types py_compile ai_validation (Some c) context code
  = ReturnsDict v ->
  is_valid v = true ->
  ai_validation c context code = ReturnsDict v
  /\ PyStr.strip_is_empty code = false
  /\ (exists sig, find_deploy_signature code = Some sig
                  /\ has_parameter "sql_config" sig = true
                  /\ has_parameter "blob_config" sig = true)
  /\ cast_sql_types code = []
  /\ py_compile code = CompileOk
  /\ ~ has_empty_derive code
  /\ ~ lists_load_transformation code.
Proof.
  unfold validate_generated_code. intros H Hv.
  destruct (String.eqb code "" || PyStr.strip_is_empty code) eqn:Eb.
  { injection H as <-. discriminate Hv. }
  apply orb_false_iff in Eb. destruct Eb as [_ Eb].
  assert (Hgo :
    (forall msg, py_compile code <> CompileRaises msg)
    /\ pre_check_issues find_deploy_signature has_parameter cast_sql_types
         py_compile code = []
    /\ ai_validation c context code = ReturnsDict v).
  { destruct (py_compile code) as [|msg|msg] eqn:Ec.
    - destruct (pre_check_issues _ _ _ _ code) eqn:Ei;
        cbn [SchemaFallback.is_empty] in H.
      + repeat split; [discriminate | exact H].
      + injection H as <-. discriminate Hv.
    - destruct (pre_check_issues _ _ _ _ code) eqn:Ei;
        cbn [SchemaFallback.is_empty] in H.
      + repeat split; [discriminate | exact H].
      + injection H as <-. discriminate Hv.
    - injection H as <-. discriminate Hv. }
  destruct Hgo as (Hraise & Hnil & Hai).
  apply pre_check_issues_nil in Hnil.
  destruct Hnil as (Hsig & Hcast & Hsyn & Hder & Hload).
  split; [exact Hai|]. split; [exact Eb|]. split; [exact Hsig|].
  split; [exact Hcast|]. split; [|split].
  - destruct (py_compile code) as [|msg|msg] eqn:Ec; [reflexivity | |].
    + now elim (Hsyn msg).
    + now elim (Hraise msg).
  - intros Hd. apply empty_derive_found in Hd. congruence.
  - intros Hl. apply load_transformation_found in Hl. congruence.
Qed.

(** A validator whose outside answers are all favourable. *)
Definition signature_stub (code : string) : option string :=
  Some "def deploy_complete_solution(self, sql_config, blob_config)".
Definition parameter_stub (name signature : string) : bool := true.
Definition cast_stub (code : string) : list string := [].
Definition compile_stub (code : string) : Compiled := CompileOk.
Definition approving (c : unit) (context : unit) (code : string) : Returned :=
  ReturnsDict {| is_valid := true; issues := []; issues_fault := None;
                 feedback := "ok"; validation_details := None |}.

Lemma passing_verdict_passed_checks_stub :
  approving tt tt "pass"
  = ReturnsDict {| is_valid := true; issues := []; issues_fault := None;
                   feedback := "ok"; validation_details := None |}
  /\ PyStr.strip_is_empty "pass" = false.
Proof.
  destruct (passing_verdict_passed_checks unit unit signature_stub
              parameter_stub cast_stub compile_stub approving tt tt "pass"
              {| is_valid := true; issues := []; issues_fault := None;
                 feedback := "ok"; validation_details := None |}
              eq_refl eq_refl) as (H1 & H2 & _).
  split; [exact H1 | exact H2].
Defined.

(** X18: no issue of the pre-checks is listed twice, and an SQL type
    matched in a cast is reported exactly once, however often and by
    whichever of the two patterns it is matched. *)
Theorem pre_check_issues_distinct
    (find_deploy_signature : string -> option string)
    (has_parameter : string -> string -> bool)
    (cast_sql_types : string -> list string)
    (py_compile : string -> Compiled) (code : string) :
  let found := pre_check_issues find_deploy_signature has_parameter
                 cast_sql_types py_compile code in
  NoDup found
  /\ forall sql_type,
       count_occ string_dec found (sql_type_issue sql_type)
       = if PyStr.mem sql_type (cast_sql_types code) then 1 else 0.
Proof.
  cbv zeta.
  pose proof (pre_check_issues_NoDup find_deploy_signature has_parameter
                cast_sql_types py_compile code) as Hnd.
  split; [exact Hnd|]. intros t.
  assert (Hin : In (sql_type_issue t)
                  (pre_check_issues find_deploy_signature has_parameter
                     cast_sql_types py_compile code)
                <-> In t (cast_sql_types code)).
  { unfold pre_check_issues. rewrite !in_app_iff. split.
    - intros [H|[H|[H|[H|H]]]].
      + apply signature_issues_head in H. discriminate H.
      + apply in_map_iff in H. destruct H as (t' & Heq & H).
        apply sql_type_issue_inj in Heq. subst t'.
        unfold found_sql_types in H. apply fold_record_In in H.
        destruct H as [[]|H]. exact H.
      + destruct (py_compile code); cbn in H;
          [destruct H | destruct H as [H|[]]; discriminate H | destruct H].
      + unfold empty_derive_issues in H.
        destruct (search empty_derive_pattern code);
          [destruct H as [H|[]]; discriminate H | destruct H].
      + unfold load_issues in H.
        destruct (search load_in_transformations_pattern code);
          [destruct H as [H|[]]; discriminate H | destruct H].
    - intros H. right. left. apply in_map. unfold found_sql_types.
      apply fold_record_In. now right. }
  destruct (PyStr.mem t (cast_sql_types code)) eqn:E.
  - apply PyStr.mem_In in E. apply NoDup_count_occ'; [exact Hnd|].
    now apply Hin.
  - apply PyStr.mem_false_In in E. apply count_occ_not_In.
    intros H. now apply E, Hin.
Qed.

(** *** The whole of [generate_python_sdk_code] *)

(** X19: [generate_python_sdk_code] raises only an [Exception] whose
    message starts with the words of Agent 3; a missing argument makes
    it raise before any agent is called; a result counts no attempt
    exactly when the first decision of Agent 3A is empty or missing, and
    it then holds the code of the direct generation, the verdict that
    says validation was skipped and no decision, one call to Agent 3A
    having been made; without a client no code is synthesised or
    validated. *)
Theorem generation_outcomes (Decision Client : Type)
    (client : option Client)
    (llm_plan : Client -> nat -> option string -> Plan Decision)
    (llm_code : Client -> nat -> Decision -> option string -> Outcome string)
    (find_deploy_signature : string -> option string)
    (has_parameter : string -> string -> bool)
    (cast_sql_types : string -> list string)
    (py_compile : string -> Compiled)
    (ai_validation : Client -> nat * Plan Decision -> string -> Returned)
    (fallback_code : string)
    (csv_analysis_given datatype_analysis_given destination_tables_given
       : bool) :
  let run := generate_python_sdk_code Decision Client client llm_plan
               llm_code find_deploy_signature has_parameter cast_sql_types
               py_compile ai_validation fallback_code csv_analysis_given
               datatype_analysis_given destination_tables_given in
  let plan := generate_pipeline_prompt Decision Client client llm_plan
                0 None in
  (forall e, snd run = Raise e ->
     exn_type e = "Exception"
     /\ PyStr.startswith (exn_msg e) "Error in Agent 3 code generation: "
        = true)
  /\ (csv_analysis_given && datatype_analysis_given
      && destination_tables_given = false ->
      fst run = [] /\ exists e, snd run = Raise e)
  /\ (forall r, snd run = Return r ->
        (attempt_count r = 0 <-> plan_truthy Decision plan = false)
        /\ (attempt_count r = 0 ->
            fst run = [Planned 0 None plan]
            /\ code r = fallback_code
            /\ validation_result r = skipped_result
            /\ final_validation_status r = false
            /\ agent3a_decision r = PlanNone))
  /\ (client = None ->
      syntheses (fst run) = [] /\ validations (fst run) = []).
Proof. apply generate_outcomes. Qed.

(** X20: when the first verdict fails and Agent 3A, asked again, gives
    no dictionary, the loop does not fall back on the previous decision:
    the second attempt raises, and the code of the first attempt is not
    returned. *)
Theorem failed_replan_aborts (Decision Client : Type)
    (client : option Client)
    (llm_plan : Client -> nat -> option string -> Plan Decision)
    (llm_code : Client -> nat -> Decision -> option string -> Outcome string)
    (find_deploy_signature : string -> option string)
    (has_parameter : string -> string -> bool)
    (cast_sql_types : string -> list string)
    (py_compile : string -> Compiled)
    (ai_validation : Client -> nat * Plan Decision -> string -> Returned)
    (c : Client) (d : Decision) (nonempty : bool) (generated : string)
    (v : Verdict) :
  client = Some c ->
  generate_python_sdk_code_from_prompt Decision Client client llm_code
    0 (PlanDict d nonempty) None = Return generated ->
  validate Decision Client client find_deploy_signature has_parameter
    cast_sql_types py_compile ai_validation 0 (PlanDict d nonempty) generated
  = ReturnsDict v ->
  is_valid v = false -> issues_fault v = None ->
  (forall d' b, llm_plan c 1 (Some (feedback v)) <> PlanDict d' b) ->
  let run := regeneration_loop Decision Client client llm_plan llm_code
               find_deploy_signature has_parameter cast_sql_types py_compile
               ai_validation 2 (PlanDict d nonempty) in
  snd run
  = Raise (rewrap "Error in Agent 3B code generation"
             (value_error "Agent 3A output must be a dictionary"))
  /\ validations (fst run) = [(0, generated, ReturnsDict v)]
  /\ plannings (fst run) = [1].
Proof. apply failed_replan. Qed.

(** A model that writes an empty derive and, asked for a new decision,
    gives none. *)
Definition derive_writer (c : unit) (attempt : nat) (d : unit)
    (feedback : option string) : Outcome string :=
  Return "Aggregate derive() ~> Derive".
Definition single_planner (c : unit) (call : nat) (feedback : option string)
    : Plan unit :=
  match call with
  | 0 => PlanDict tt true
  | _ => PlanNone
  end.
Definition approving_attempt (c : unit) (context : nat * Plan unit)
    (code : string) : Returned :=
  ReturnsDict skipped_verdict.

Lemma failed_replan_aborts_derive :
  snd (regeneration_loop unit unit (Some tt) single_planner derive_writer
         signature_stub parameter_stub cast_stub compile_stub
         approving_attempt 2 (PlanDict tt true))
  = Raise (rewrap "Error in Agent 3B code generation"
             (value_error "Agent 3A output must be a dictionary")).
Proof.
  eapply (failed_replan_aborts unit unit (Some tt) single_planner
            derive_writer signature_stub parameter_stub cast_stub
            compile_stub approving_attempt tt tt true
            "Aggregate derive() ~> Derive").
  - reflexivity.
  - reflexivity.
  - reflexivity.
  - reflexivity.
  - reflexivity.
  - intros d' b H. discriminate H.
Defined.

(** *** Reading the script back *)

Import ScriptText.

(** X21: the extraction reads back from the generated script exactly the
    names of its transformation nodes, in the order of the script, when
    no column name holds a tilde, the names of the tables are words, the
    names of the dimensions are distinct and the fact table is not named
    as one of them. *)
Theorem extraction_reads_back (csv_columns fact_columns : list string)
    (dims : Dict.t DimInfo) (ct : ColumnTypes)
    (fact_tables : list (string * string)) (ctx : string) :
  readable_args csv_columns fact_columns dims fact_tables = true ->
  NoDup (Dict.keys dims) ->
  (forall t sch rest, fact_tables = (t, sch) :: rest ->
     ~ In t (Dict.keys dims)) ->
  _extract_transformations_from_script
    (_generate_transform_dataflow_script csv_columns fact_columns dims ct
       fact_tables ctx)
  = transformation_names
      (script_parts csv_columns fact_columns dims ct fact_tables ctx).
Proof.
  intros Hargs Hnd Hfact. unfold _extract_transformations_from_script.
  rewrite (findall_arrow_script _ _ _ ct _ ctx Hargs).
  rewrite fold_keep_match; [reflexivity | |].
  - intros p. apply script_parts_classified.
  - cbn [app].
    apply (script_sinks_read_once csv_columns fact_columns dims ct
             fact_tables ctx Hnd Hfact).
Qed.

Lemma extraction_reads_back_customer :
  _extract_transformations_from_script
    (_generate_transform_dataflow_script
       ["CustomerID"; "Name"; "Phone"; "Amount"] ["Amount"] [dim_customer] []
       [("FactSales", "dbo")] "Data")
  = transformation_names
      (script_parts ["CustomerID"; "Name"; "Phone"; "Amount"] ["Amount"]
         [dim_customer] [] [("FactSales", "dbo")] "Data").
Proof.
  apply (extraction_reads_back ["CustomerID"; "Name"; "Phone"; "Amount"]
           ["Amount"] [dim_customer] [] [("FactSales", "dbo")] "Data").
  - reflexivity.
  - simpl. repeat constructor. intros [].
  - intros t sch rest [= <- _ _]. simpl. intros [H|[]]. discriminate H.
Defined.

(** X22: the list of transformations that
    [_generate_transform_dataflow_method_code] writes into the generated
    program holds every name the script binds but [StagingSource], each
    once: the names of the sinks are in it, and as soon as the script has
    a sink the text of the list holds what the validator reports as a
    sink among the transformations. *)
Theorem method_code_lists_every_sink (csv_columns fact_columns : list string)
    (dims : Dict.t DimInfo) (ct : ColumnTypes)
    (fact_tables : list (string * string)) (ctx : string) :
  readable_args csv_columns fact_columns dims fact_tables = true ->
  let script := _generate_transform_dataflow_script csv_columns fact_columns
                  dims ct fact_tables ctx in
  let parts := script_parts csv_columns fact_columns dims ct fact_tables
                 ctx in
  NoDup (unique_transformations script)
  /\ (forall n, In n (unique_transformations script)
                <-> In n (map target parts) /\ n <> "StagingSource")
  /\ (forall n, In n (sink_names parts) ->
        In n (unique_transformations script))
  /\ (sink_names parts <> [] ->
      search load_in_transformations_pattern
        (String.concat "" (transformation_lines script)) = true).
Proof.
  intros Hargs. cbv zeta.
  assert (Hin : forall n,
            In n (unique_transformations
                    (_generate_transform_dataflow_script csv_columns
                       fact_columns dims ct fact_tables ctx))
            <-> In n (map target
                        (script_parts csv_columns fact_columns dims ct
                           fact_tables ctx))
                /\ n <> "StagingSource").
  { intros n. unfold unique_transformations.
    rewrite (findall_method_script _ _ _ ct _ ctx Hargs).
    rewrite fold_keep_unique_In. cbn. tauto. }
  assert (Hsink : forall n,
            In n (sink_names
                    (script_parts csv_columns fact_columns dims ct
                       fact_tables ctx)) ->
            In n (unique_transformations
                    (_generate_transform_dataflow_script csv_columns
                       fact_columns dims ct fact_tables ctx))).
  { intros n Hn. apply Hin. split.
    - unfold sink_names in Hn. apply in_map_iff in Hn.
      destruct Hn as (p & <- & Hp). apply filter_In in Hp.
      apply in_map. tauto.
    - apply (script_sinks_named _ _ _ ct _ ctx n Hargs) in Hn.
      destruct Hn as (t & -> & _). discriminate. }
  split; [|split; [exact Hin|split; [exact Hsink|]]].
  - unfold unique_transformations. apply fold_keep_unique_NoDup. constructor.
  - intros Hne.
    destruct (sink_names (script_parts csv_columns fact_columns dims ct
                            fact_tables ctx)) as [|n l] eqn:E;
      [now elim Hne|].
    assert (Hn : In n (sink_names
                         (script_parts csv_columns fact_columns dims ct
                            fact_tables ctx))) by (rewrite E; now left).
    pose proof (Hsink n (or_introl eq_refl)) as Hu.
    apply (script_sinks_named _ _ _ ct _ ctx n Hargs) in Hn.
    destruct Hn as (t & -> & Ht).
    apply (load_line_found _ t Ht). unfold transformation_lines.
    apply (in_map (fun trans_name =>
                     "            Transformation(name='" ++ trans_name
                     ++ "')," ++ nl)) in Hu.
    exact Hu.
Qed.

Lemma method_code_lists_every_sink_customer :
  In "LoadDimCustomer"
     (unique_transformations
        (_generate_transform_dataflow_script
           ["CustomerID"; "Name"; "Phone"; "Amount"] ["Amount"]
           [dim_customer] [] [("FactSales", "dbo")] "Data")).
Proof.
  apply (method_code_lists_every_sink
           ["CustomerID"; "Name"; "Phone"; "Amount"] ["Amount"]
           [dim_customer] [] [("FactSales", "dbo")] "Data" eq_refl).
  simpl. tauto.
Defined.

(** *** The normal form of the dimensions *)


(** *** The stream read by the sink of the fact table *)

